(** * agari-datagen: a shallow embedding of the two command-line tools

  [generate_dummy_tsv.py] fabricates rows from a JSON schema and bundles
  them with randomized copies of FASTA files; [upload_files.py] posts the
  files of a folder to an HTTP endpoint.  Python values are modelled as
  they occur in the scripts: dictionaries whose iteration order matters
  (schema properties, rows) are association lists in insertion order;
  [file_groups], whose keys are only read through [sorted], is a [gmap];
  the process-wide random generator and the clock are threaded explicitly;
  exceptions are a result type; a float is an IEEE 754 double, kept as its
  exact value; text is kept in UTF-8.  The library functions follow
  CPython 3.11. *)

From Stdlib Require Import Ascii String QArith Qabs Lqa.
From stdpp Require Import base tactics option list list_numbers gmap strings sorting.

Set Warnings "-register-all".

Local Open Scope string_scope.
Local Open Scope Z_scope.
Local Open Scope nat_scope.
Local Open Scope list_scope.

(** ** The Python runtime the scripts rely on *)

Module Py.

Inductive exn : Type :=
| IndexError
| ValueError
| TypeError
| OverflowError
| OSError.

Inductive result (A : Type) : Type :=
| Ok (a : A)
| Raise (e : exn).
Arguments Ok {A} a.
Arguments Raise {A} e.

(** The random generator is a tape of draws read left to right; the clock
    is the local date of [datetime.now()], in days since 1970-01-01. *)
Record runtime : Type := Runtime {
  rand_tape : nat → N;
  rand_pos : nat;
  clock_day : Z
}.

Definition M (A : Type) : Type := runtime → result (A * runtime).

Definition ret {A} (a : A) : M A := λ w, Ok (a, w).
Definition raise {A} (e : exn) : M A := λ _, Raise e.
Definition bind {A B} (m : M A) (k : A → M B) : M B :=
  λ w, match m w with
       | Ok (a, w') => k a w'
       | Raise e => Raise e
       end.

Declare Scope py_scope.
Notation "x <- m ;; k" := (bind m (λ x, k))
  (at level 100, m at next level, right associativity) : py_scope.
Delimit Scope py_scope with py.
Local Open Scope py_scope.

Definition draw : M N :=
  λ w, Ok (rand_tape w (rand_pos w),
           {| rand_tape := rand_tape w; rand_pos := S (rand_pos w);
              clock_day := clock_day w |}).

Definition now_day : M Z := λ w, Ok (clock_day w, w).

(** [for _ in range(n)] collecting the results of [m]. *)
Fixpoint replicateM {A} (n : nat) (m : M A) : M (list A) :=
  match n with
  | O => ret []
  | S n' => x <- m ;; xs <- replicateM n' m ;; ret (x :: xs)
  end.

(** [for x in l: a = f(a, x)] *)
Fixpoint foldM {A B} (f : A → B → M A) (a : A) (l : list B) : M A :=
  match l with
  | [] => ret a
  | x :: l' => a' <- f a x ;; foldM f a' l'
  end.

(** [[f(x) for x in l]], evaluated left to right. *)
Fixpoint mapM {A B} (f : A → M B) (l : list A) : M (list B) :=
  match l with
  | [] => ret []
  | x :: l' => y <- f x ;; ys <- mapM f l' ;; ret (y :: ys)
  end.

(** The value of a run, without the final runtime state. *)
Definition value_of {A} (r : result (A * runtime)) : result A :=
  match r with
  | Ok (a, _) => Ok a
  | Raise e => Raise e
  end.

(** *** [float] and [int]

    A Python float is an IEEE 754 binary64 number.  A finite one is kept
    as its exact rational value; the sign of a zero is not kept: it
    shows only in the text of a cell, which is not rendered here.  Every
    operation rounds its exact result to the nearest double, ties to
    even. *)
Inductive float : Type :=
| Finite (q : Q)
| Infinity (negative : bool)
| NaN.

(** [2 ** e] for an integer [e] of either sign. *)
Definition pow2 (e : Z) : Q :=
  if decide (0 ≤ e)%Z then inject_Z (2 ^ e) else (1 # Z.to_pos (2 ^ (- e)))%Q.

(** The integer nearest to [n / d], ties to the even one. *)
Definition round_half_even (n : Z) (d : positive) : Z :=
  let fl := (n / Z.pos d)%Z in
  let r := (n mod Z.pos d)%Z in
  match (2 * r ?= Z.pos d)%Z with
  | Lt => fl
  | Gt => (fl + 1)%Z
  | Eq => if Z.even fl then fl else (fl + 1)%Z
  end.

(** The double nearest to a real [x]: with [2 ** e <= |x| < 2 ** (e + 1)],
    the doubles around [x] are the multiples of [2 ** (e - 52)], and of
    [2 ** -1074] in the subnormal range; a result of magnitude
    [2 ** 1024] or more is an infinity. *)
Definition b64_round (x : Q) : float :=
  if Qeq_bool x 0 then Finite 0 else
  let a := Qabs x in
  let c := (Z.log2 (Qnum a) - Z.log2 (Z.pos (Qden a)))%Z in
  let e := if Qle_bool (pow2 c) a then c else (c - 1)%Z in
  let ex := Z.max (e - 52) (-1074) in
  let y := (x / pow2 ex)%Q in
  let m := round_half_even (Qnum y) (Qden y) in
  let r := Qred (inject_Z m * pow2 ex) in
  if Qle_bool (pow2 1024) (Qabs r) then Infinity (Qnum x <? 0)%Z else Finite r.

Definition fneg (x : float) : float :=
  match x with
  | Finite q => Finite (- q)
  | Infinity s => Infinity (negb s)
  | NaN => NaN
  end.

(** [x + y], [x - y] and [x * y] on floats. *)
Definition fadd (x y : float) : float :=
  match x, y with
  | NaN, _ | _, NaN => NaN
  | Infinity s, Infinity t => if Bool.eqb s t then Infinity s else NaN
  | Infinity s, Finite _ | Finite _, Infinity s => Infinity s
  | Finite p, Finite q => b64_round (p + q)
  end.

Definition fsub (x y : float) : float := fadd x (fneg y).

Definition fmul (x y : float) : float :=
  match x, y with
  | NaN, _ | _, NaN => NaN
  | Infinity s, Infinity t => Infinity (xorb s t)
  | Infinity s, Finite q | Finite q, Infinity s =>
      if Qeq_bool q 0 then NaN else Infinity (xorb s (Qnum q <? 0)%Z)
  | Finite p, Finite q => b64_round (p * q)
  end.

(** The conversion of an [int] operand in mixed arithmetic:
    [OverflowError] when the integer is too large for a float. *)
Definition float_of_int (z : Z) : M float :=
  match b64_round (inject_Z z) with
  | Infinity _ => raise OverflowError
  | f => ret f
  end.

(** A number as [json.load] gives it: an [int] or a [float]. *)
Inductive number : Type :=
| NInt (z : Z)
| NFloat (f : float).

(** *** module [random] *)

(** [random.random()]: a float in [0, 1), a multiple of [2 ** -53]. *)
Definition random_bits : M N := d <- draw ;; ret (d mod 2 ^ 53)%N.

Definition random_random : M float :=
  n <- random_bits ;; ret (Finite (Z.of_N n # 2 ^ 53)%Q).

(** [_randbelow(n)] for [n > 0]. *)
Definition randbelow (n : nat) : M nat :=
  d <- draw ;; ret (N.to_nat (d mod N.of_nat n)).

(** [random.randint(a, b)] is [randrange(a, b + 1)], which raises
    [ValueError] on an empty range. *)
Definition randint (a b : Z) : M Z :=
  if decide (b < a)%Z then raise ValueError
  else j <- randbelow (Z.to_nat (b - a + 1)) ;; ret (a + Z.of_nat j)%Z.

(** [random.choice(seq)]: [IndexError] on an empty sequence. *)
Definition choice {A} (seq : list A) : M A :=
  match seq with
  | [] => raise IndexError
  | x :: _ => j <- randbelow (length seq) ;; ret (default x (seq !! j))
  end.

(** [random.choices(population, k=k)]: [population[floor(random() * n)]]
    for each of the [k] positions. *)
Definition choices {A} (d : A) (population : list A) (k : nat) : M (list A) :=
  replicateM k
    (r <- random_bits ;;
     ret (default d
            (population !! N.to_nat (r * N.of_nat (length population) / 2 ^ 53)%N))).

(** [random.sample(population, k)], by the pool algorithm that CPython uses
    for populations of up to 21 members (larger ones go through a
    selection by rejection with the same outcomes): position [j] is drawn
    below the number of remaining candidates, and the last remaining
    candidate is moved into the hole.  The pool carries each candidate
    together with its position in [population]. *)
Fixpoint sample_pool {A} (pool : list (nat * A)) (k : nat) : M (list (nat * A)) :=
  match k with
  | O => ret []
  | S k' =>
      match pool with
      | [] => raise ValueError
      | x :: _ =>
          j <- randbelow (length pool) ;;
          let n1 := pred (length pool) in
          let picked := default x (pool !! j) in
          let last := default x (pool !! n1) in
          rest <- sample_pool (take n1 (<[j := last]> pool)) k' ;;
          ret (picked :: rest)
      end
  end.

Definition sample {A} (population : list A) (k : nat) : M (list A) :=
  if decide (length population < k) then raise ValueError
  else picked <- sample_pool (imap (λ i x, (i, x)) population) k ;;
       ret (picked.*2).

(** [random.uniform(a, b)] is [a + (b - a) * random()], in the arithmetic
    of its operands: between two ints the difference is exact and each
    int is converted when it meets a float; the difference is taken
    before [random()] is called, the product and the sum after. *)
Definition uniform (a b : number) : M float :=
  match a, b with
  | NInt a, NInt b =>
      r <- random_random ;;
      d <- float_of_int (b - a) ;;
      a' <- float_of_int a ;;
      ret (fadd a' (fmul d r))
  | NInt a, NFloat b =>
      a' <- float_of_int a ;;
      r <- random_random ;;
      ret (fadd a' (fmul (fsub b a') r))
  | NFloat a, NInt b =>
      b' <- float_of_int b ;;
      r <- random_random ;;
      ret (fadd a (fmul (fsub b' a) r))
  | NFloat a, NFloat b =>
      r <- random_random ;;
      ret (fadd a (fmul (fsub b a) r))
  end.

(** The integer that [randrange] makes of an argument: an int is taken
    as it is; a float goes through [int()], which raises on an infinity
    ([OverflowError]) and on a NaN ([ValueError]), and must be integral
    ([ValueError] otherwise). *)
Definition index_of (n : number) : M Z :=
  match n with
  | NInt z => ret z
  | NFloat (Finite q) =>
      if decide (Qden (Qred q) = 1%positive) then ret (Qnum (Qred q))
      else raise ValueError
  | NFloat (Infinity _) => raise OverflowError
  | NFloat NaN => raise ValueError
  end.

(** [randrange(start, stop)] *)
Definition randrange (start stop : number) : M Z :=
  istart <- index_of start ;;
  istop <- index_of stop ;;
  let width := (istop - istart)%Z in
  if decide (0 < width)%Z
  then j <- randbelow (Z.to_nat width) ;; ret (istart + Z.of_nat j)%Z
  else raise ValueError.

(** [b + 1] *)
Definition number_succ (b : number) : number :=
  match b with
  | NInt z => NInt (z + 1)
  | NFloat f => NFloat (fadd f (Finite 1))
  end.

(** [random.randint(a, b)] on the bounds of a schema, which may be
    floats: [randrange(a, b + 1)]. *)
Definition randint_number (a b : number) : M Z :=
  randrange a (number_succ b).

(** *** builtins *)

(** The multiple of 1/100 nearest to an exact value, ties to the even
    one. *)
Definition decimal_round2 (x : Q) : Q :=
  (round_half_even (100 * Qnum x) (Qden x) # 100)%Q.

(** [round(x, 2)] on a float: the double nearest to the decimal rounding
    of its exact value; an infinity or a NaN is returned as it is. *)
Definition round2 (x : float) : float :=
  match x with
  | Finite q => b64_round (decimal_round2 q)
  | _ => x
  end.

(** [str.startswith('>')] *)
Definition startswith_gt (s : string) : bool :=
  match s with
  | String c _ => bool_decide (c = ">"%char)
  | EmptyString => false
  end.

(** Whitespace, as [str.isspace] and [str.strip] see it.  A string is the
    UTF-8 encoding of the text, so a whitespace character is one byte
    (TAB, LF, VT, FF, CR, FS, GS, RS, US and the space), two bytes
    (U+0085, U+00A0) or three (U+1680, U+2000 to U+200A, U+2028, U+2029,
    U+202F, U+205F, U+3000). *)
Definition isspace (c : ascii) : bool :=
  let n := nat_of_ascii c in
  bool_decide (9 ≤ n ≤ 13) || bool_decide (28 ≤ n ≤ 32).

Definition isspace2 (c1 c2 : ascii) : bool :=
  bool_decide (nat_of_ascii c1 = 194) &&
  (bool_decide (nat_of_ascii c2 = 133) || bool_decide (nat_of_ascii c2 = 160)).

Definition isspace3 (c1 c2 c3 : ascii) : bool :=
  let n1 := nat_of_ascii c1 in
  let n2 := nat_of_ascii c2 in
  let n3 := nat_of_ascii c3 in
  bool_decide (n1 = 225 ∧ n2 = 154 ∧ n3 = 128) ||
  bool_decide (n1 = 226 ∧ n2 = 128 ∧
               (128 ≤ n3 ≤ 138 ∨ n3 = 168 ∨ n3 = 169 ∨ n3 = 175)) ||
  bool_decide (n1 = 226 ∧ n2 = 129 ∧ n3 = 159) ||
  bool_decide (n1 = 227 ∧ n2 = 128 ∧ n3 = 128).

(** The text after a leading whitespace character, if there is one. *)
Definition skip_space (s : string) : option string :=
  match s with
  | String c1 s1 =>
      if isspace c1 then Some s1 else
      match s1 with
      | String c2 s2 =>
          if isspace2 c1 c2 then Some s2 else
          match s2 with
          | String c3 s3 => if isspace3 c1 c2 c3 then Some s3 else None
          | EmptyString => None
          end
      | EmptyString => None
      end
  | EmptyString => None
  end.

Fixpoint lstrip (s : string) : string :=
  match s with
  | String c1 s1 =>
      if isspace c1 then lstrip s1 else
      match s1 with
      | String c2 s2 =>
          if isspace2 c1 c2 then lstrip s2 else
          match s2 with
          | String c3 s3 => if isspace3 c1 c2 c3 then lstrip s3 else s
          | EmptyString => s
          end
      | EmptyString => s
      end
  | EmptyString => EmptyString
  end.

(** A string made of whitespace only. *)
Definition all_space (s : string) : bool := bool_decide (lstrip s = "").

Fixpoint rstrip (s : string) : string :=
  match s with
  | String c s' => if all_space s then EmptyString else String c (rstrip s')
  | EmptyString => EmptyString
  end.

(** [str.strip()] *)
Definition strip (s : string) : string := rstrip (lstrip s).

(** A byte that is no whitespace character and starts none. *)
Definition plain (c : ascii) : bool :=
  negb (isspace c) && bool_decide (nat_of_ascii c ∉ [194; 225; 226; 227]).

(** [s[1:]] *)
Definition drop_first (s : string) : string :=
  match s with
  | String _ s' => s'
  | EmptyString => EmptyString
  end.

(** *** [datetime]: the proleptic Gregorian date of a day number and
    [strftime('%Y-%m-%d')] *)

Definition civil_from_days (day : Z) : Z * Z * Z :=
  let z := (day + 719468)%Z in
  let era := (z / 146097)%Z in
  let doe := (z - era * 146097)%Z in
  let yoe := ((doe - doe / 1460 + doe / 36524 - doe / 146096) / 365)%Z in
  let doy := (doe - (365 * yoe + yoe / 4 - yoe / 100))%Z in
  let mp := ((5 * doy + 2) / 153)%Z in
  let d := (doy - (153 * mp + 2) / 5 + 1)%Z in
  let m := if decide (mp < 10)%Z then (mp + 3)%Z else (mp - 9)%Z in
  let y := (yoe + era * 400)%Z in
  (if decide (m ≤ 2)%Z then (y + 1)%Z else y, m, d).

Definition digit (n : Z) : ascii :=
  ascii_of_nat (48 + Z.to_nat (n mod 10)).

Definition pad2 (n : Z) : string :=
  String (digit (n / 10)) (String (digit n) EmptyString).

Definition pad4 (n : Z) : string :=
  String (digit (n / 1000)) (String (digit (n / 100)) (pad2 n)).

Definition strftime_ymd (day : Z) : string :=
  let '(y, m, d) := civil_from_days day in
  pad4 y +:+ "-" +:+ pad2 m +:+ "-" +:+ pad2 d.

End Py.

(** ** generate_dummy_tsv.py *)

Module Gen.
Import Py.
Local Open Scope py_scope.

(** Values found in rows and in schema enums: JSON scalars and lists. *)
Inductive value : Type :=
| VNone
| VBool (b : bool)
| VInt (z : Z)
| VFloat (f : float)
| VStr (s : string)
| VList (l : list value).

(** Python truthiness, as tested by [not row[req]]. *)
Definition truthy (v : value) : bool :=
  match v with
  | VNone => false
  | VBool b => b
  | VInt z => negb (z =? 0)%Z
  | VFloat (Finite q) => negb (Qnum q =? 0)%Z
  | VFloat _ => true
  | VStr s => negb (bool_decide (s = ""))
  | VList l => negb (bool_decide (l = []))
  end.

(** A value is empty when it is [None], the empty string or the empty
    list. *)
Definition is_empty (v : value) : bool :=
  match v with
  | VNone => true
  | VStr s => bool_decide (s = "")
  | VList l => bool_decide (l = [])
  | _ => false
  end.

(** A property descriptor of the schema; an absent key is [None]. *)
Inductive prop_details : Type := PropDetails {
  p_type : option string;
  p_enum : option (list value);
  p_items : option prop_details;
  p_format : option string;
  p_minimum : option number;
  p_maximum : option number
}.

(** The empty dictionary [{}]. *)
Definition no_details : prop_details :=
  PropDetails None None None None None None.

Record schema : Type := Schema {
  properties : list (string * prop_details);
  required : list string
}.

(** A HeaderEntry [(randomized_file_name, header_text)]. *)
Definition entry : Type := string * string.

(** A Python dict in insertion order. *)
Fixpoint dict_get {V} (d : list (string * V)) (k : string) : option V :=
  match d with
  | [] => None
  | (k', v) :: d' => if decide (k' = k) then Some v else dict_get d' k
  end.

Fixpoint dict_set {V} (d : list (string * V)) (k : string) (v : V)
  : list (string * V) :=
  match d with
  | [] => [(k, v)]
  | (k', v') :: d' =>
      if decide (k' = k) then (k, v) :: d' else (k', v') :: dict_set d' k v
  end.

Definition Row : Type := list (string * value).

(** [string.ascii_letters + string.digits] *)
Definition alphabet : list ascii :=
  list_ascii_of_string
    "abcdefghijklmnopqrstuvwxyzABCDEFGHIJKLMNOPQRSTUVWXYZ0123456789".

Definition generate_random_string (length : nat) : M string :=
  cs <- choices "a"%char alphabet length ;; ret (string_of_list_ascii cs).

Definition generate_random_filename : M string :=
  s <- generate_random_string 12 ;; ret (s +:+ ".fasta").

Definition generate_random_date : M string :=
  days_back <- randint 0 365 ;;
  today <- now_day ;;
  ret (strftime_ymd (today - days_back)).

Definition generate_dummy_value (prop_details : prop_details) : M value :=
  let prop_type := default "string" (p_type prop_details) in
  match p_enum prop_details with
  | Some enum => choice enum
  | None =>
      if decide (prop_type = "array") then
        let items := default no_details (p_items prop_details) in
        match p_enum items with
        | Some enum =>
            num_items <- randint 1 (Z.of_nat (min 3 (length enum))) ;;
            picked <- sample enum (Z.to_nat num_items) ;;
            ret (VList picked)
        | None =>
            n <- randint 1 3 ;;
            strs <- replicateM (Z.to_nat n) (generate_random_string 20) ;;
            ret (VList (VStr <$> strs))
        end
      else if decide (prop_type = "string") then
        if decide (p_format prop_details = Some "date") then
          d <- generate_random_date ;; ret (VStr d)
        else
          s <- generate_random_string 20 ;; ret (VStr s)
      else if decide (prop_type = "number" ∨ prop_type = "integer") then
        let max_val := default (NInt 100) (p_maximum prop_details) in
        let min_val := default (NInt 1) (p_minimum prop_details) in
        if decide (prop_type = "number") then
          u <- uniform min_val max_val ;;
          ret (VFloat (round2 u))
        else
          n <- randint_number min_val max_val ;; ret (VInt n)
      else
        s <- generate_random_string 20 ;; ret (VStr s)
  end.

(** *** Even spreading: [file_groups] and the interleaved list *)

(** One iteration of [for entry in fasta_list]. *)
Definition add_to_group (file_groups : gmap string (list entry)) (e : entry)
  : gmap string (list entry) :=
  let filename := e.1 in
  let file_groups :=
    match file_groups !! filename with
    | None => <[filename := []]> file_groups
    | Some _ => file_groups
    end in
  alter (λ group, group ++ [e]) filename file_groups.

Definition group_by_file (fasta_list : list entry) : gmap string (list entry) :=
  foldl add_to_group ∅ fasta_list.

(** [sorted(...)] on strings. *)
Definition sorted (l : list string) : list string := merge_sort String.le l.

(** The body of [if spread_evenly and fasta_list]; [max] is taken over a
    non-empty dictionary there. *)
Definition interleave (fasta_list : list entry) : list entry :=
  let file_groups := group_by_file fasta_list in
  let max_entries := max_list (length <$> (map_to_list file_groups).*2) in
  seq 0 max_entries ≫= (λ i,
    sorted (elements (dom file_groups)) ≫= (λ filename,
      option_list ((file_groups !!! filename) !! i))).

(** The same list as the specification words it: the entries grouped by
    file, the files sorted by name, and one entry dealt from every group
    that still has one, round after round. *)
Definition group_of (filename : string) (fasta_list : list entry) : list entry :=
  filter (λ e : entry, e.1 = filename) fasta_list.

Fixpoint round_robin (rounds : nat) (groups : list (list entry)) : list entry :=
  match rounds with
  | O => []
  | S rounds' =>
      (groups ≫= (λ group, option_list (head group)))
        ++ round_robin rounds' (tail <$> groups)
  end.

Definition spec_interleave (fasta_list : list entry) : list entry :=
  let files := sorted (remove_dups (fasta_list.*1)) in
  let groups := (λ filename, group_of filename fasta_list) <$> files in
  round_robin (max_list (length <$> groups)) groups.

(** *** Row synthesis *)

(** One iteration of [for prop_name, prop_details in properties.items()];
    the state is the row under construction and [fasta_index].  The test
    [if fasta_list] is the lookup itself: the position
    [fasta_index % len(fasta_list)] holds an entry exactly when the list
    is not empty. *)
Definition fill_property (fasta_list : list entry) (st : Row * nat)
    (prop : string * prop_details) : M (Row * nat) :=
  let '(row, fasta_index) := st in
  let '(prop_name, prop_details) := prop in
  if decide (prop_name = "fasta_file_name") then
    match fasta_list !! (fasta_index `mod` length fasta_list) with
    | Some e => ret (dict_set row prop_name (VStr e.1), fasta_index)
    | None =>
        s <- generate_random_string 20 ;;
        ret (dict_set row prop_name (VStr s), fasta_index)
    end
  else if decide (prop_name = "fasta_header_name") then
    match fasta_list !! (fasta_index `mod` length fasta_list) with
    | Some e => ret (dict_set row prop_name (VStr e.2), S fasta_index)
    | None =>
        s <- generate_random_string 20 ;;
        ret (dict_set row prop_name (VStr s), fasta_index)
    end
  else
    v <- generate_dummy_value prop_details ;;
    ret (dict_set row prop_name v, fasta_index).

(** One iteration of [for req in required]. *)
Definition fill_required (properties : list (string * prop_details))
    (row : Row) (req : string) : M Row :=
  let refill :=
    v <- generate_dummy_value (default no_details (dict_get properties req)) ;;
    ret (dict_set row req v) in
  match dict_get row req with
  | None => refill
  | Some v => if truthy v then ret row else refill
  end.

(** The body of [for row_num in range(num_rows)]. *)
Definition generate_row (s : schema) (fasta_list : list entry)
    (fasta_index : nat) : M (Row * nat) :=
  st <- foldM (fill_property fasta_list) ([], fasta_index) (properties s) ;;
  row <- foldM (fill_required (properties s)) st.1 (required s) ;;
  ret (row, st.2).

Fixpoint generate_rows (s : schema) (fasta_list : list entry)
    (n : nat) (fasta_index : nat) : M (list Row) :=
  match n with
  | O => ret []
  | S n' =>
      r <- generate_row s fasta_list fasta_index ;;
      data <- generate_rows s fasta_list n' r.2 ;;
      ret (r.1 :: data)
  end.

Definition generate_dummy_data (s : schema) (num_rows : Z)
    (fasta_list : list entry) (spread_evenly : bool) : M (list Row) :=
  let fasta_list :=
    if spread_evenly && bool_decide (fasta_list ≠ [])
    then interleave fasta_list else fasta_list in
  generate_rows s fasta_list (Z.to_nat num_rows) 0.

(** *** FASTA randomization and header extraction

    A text file is the list of its lines as [readlines] yields them, and
    the scratch directory maps a file name to the lines written to it. *)

Definition newline : string := String "010"%char EmptyString.

(** A path returned by [glob], with its content when it can be read. *)
Record source_file : Type := SourceFile {
  sf_name : string;
  sf_lines : option (list string)
}.

Definition sf_le (f g : source_file) : Prop := String.le (sf_name f) (sf_name g).

#[global] Instance sf_le_dec : RelDecision sf_le :=
  λ f g, String.le_dec (sf_name f) (sf_name g).

(** The body of [for line in lines]. *)
Definition randomize_line (line : string) : M string :=
  if startswith_gt line then
    s <- generate_random_string 20 ;; ret (">" +:+ s +:+ newline)
  else ret line.

(** The body of [for original_file in fasta_files]; a file that cannot be
    read is reported and skipped, after its name was recorded. *)
Definition process_fasta_file
    (st : gmap string (list string) * list (string * string))
    (original_file : source_file)
  : M (gmap string (list string) * list (string * string)) :=
  let '(temp_dir, file_mapping) := st in
  let original_filename := sf_name original_file in
  new_filename <- generate_random_filename ;;
  let file_mapping := file_mapping ++ [(original_filename, new_filename)] in
  match sf_lines original_file with
  | Some lines =>
      modified_lines <- mapM randomize_line lines ;;
      ret (<[new_filename := modified_lines]> temp_dir, file_mapping)
  | None => ret (temp_dir, file_mapping)
  end.

Definition create_randomized_fasta_files (fasta_files : list source_file)
  : M (option (gmap string (list string)) * list (string * string)) :=
  let fasta_files := merge_sort sf_le fasta_files in
  match fasta_files with
  | [] => ret (None, [])
  | _ =>
      st <- foldM process_fasta_file (∅, []) fasta_files ;;
      ret (Some st.1, st.2)
  end.

(** The headers of one randomized file. *)
Definition headers_of_lines (new_name : string) (lines : list string)
  : list entry :=
  lines ≫= (λ line,
    let line := strip line in
    if startswith_gt line then [(new_name, drop_first line)] else []).

Definition extract_headers_from_temp_dir
    (temp_dir : gmap string (list string))
    (file_mapping : list (string * string)) : list entry :=
  file_mapping ≫= (λ m,
    match temp_dir !! m.2 with
    | Some lines => headers_of_lines m.2 lines
    | None => []
    end).

(** *** [main] *)

Record args : Type := Args {
  num_rows : Z;
  spread : option Z;
  tsv_name : string
}.

(** The generated table: the field names of the header row and the rows.
    The rendering of a cell as text is not modelled. *)
Record tsv_table : Type := TsvTable {
  fieldnames : list string;
  tsv_rows : list Row
}.

Inductive zip_member : Type :=
| ZipTsv (t : tsv_table)
| ZipFasta (lines : list string).

(** The files a run creates: the scratch directory, the temporary table
    and the output archive, a list of members under their archive names. *)
Record filesystem : Type := FileSystem {
  scratch : option (gmap string (list string));
  temp_tsv : option tsv_table;
  archive : option (list (string * zip_member))
}.

(** Which of the file operations of [main] fail with an [OSError]. *)
Record io_faults : Type := IoFaults {
  tsv_write_fails : bool;
  zip_open_fails : bool;
  zip_write_fails : bool
}.

Definition no_faults : io_faults := IoFaults false false false.

Inductive outcome : Type :=
| Returned
| Raised (e : exn).

(** [l[:stop]] *)
Definition slice_to {A} (l : list A) (stop : Z) : list A :=
  if decide (0 ≤ stop)%Z then take (Z.to_nat stop) l
  else take (Z.to_nat (Z.of_nat (length l) + stop)) l.

(** [sorted(list(set(entry[0] for entry in full_fasta_list)))] *)
Definition all_unique_files_of (full_fasta_list : list entry) : list string :=
  sorted (elements (list_to_set (C := gset string) (full_fasta_list.*1))).

Definition selected_files_of (a : args) (full_fasta_list : list entry)
  : list string :=
  let all_unique_files := all_unique_files_of full_fasta_list in
  let max_spread := Z.of_nat (length all_unique_files) in
  let spread := default max_spread (spread a) in
  let spread := Z.min spread max_spread in
  slice_to all_unique_files spread.

(** The members written by the [with zipfile.ZipFile(...)] block. *)
Definition zip_members (a : args) (table : tsv_table)
    (selected_files : list string) (temp_dir : gmap string (list string))
  : list (string * zip_member) :=
  (tsv_name a, ZipTsv table) ::
  (selected_files ≫= (λ fasta_file,
     match temp_dir !! fasta_file with
     | Some lines => [(fasta_file, ZipFasta lines)]
     | None => []
     end)).

(** The [try] block of [main], from the extraction of the headers to the
    removal of the temporary table. *)
Definition main_try (a : args) (s : schema) (faults : io_faults)
    (temp_dir : gmap string (list string))
    (file_mapping : list (string * string)) (w : runtime)
  : outcome * filesystem :=
  let fs := FileSystem (Some temp_dir) None None in
  let full_fasta_list := extract_headers_from_temp_dir temp_dir file_mapping in
  match full_fasta_list with
  | [] => (Returned, fs)
  | _ =>
      let selected_files := selected_files_of a full_fasta_list in
      let fasta_list :=
        filter (λ e : entry, e.1 ∈ selected_files) full_fasta_list in
      match generate_dummy_data s (num_rows a) fasta_list true w with
      | Raise e => (Raised e, fs)
      | Ok ([], _) => (Returned, fs)
      | Ok ((row0 :: _) as data, _) =>
          let table := TsvTable (row0.*1) data in
          if tsv_write_fails faults then
            (Raised OSError, FileSystem (Some temp_dir) (Some (TsvTable [] [])) None)
          else
            let fs := FileSystem (Some temp_dir) (Some table) None in
            if zip_open_fails faults then (Raised OSError, fs)
            else if zip_write_fails faults then
              (Raised OSError, FileSystem (Some temp_dir) (Some table) (Some []))
            else
              let members := zip_members a table selected_files temp_dir in
              (Returned, FileSystem (Some temp_dir) None (Some members))
      end
  end.

(** [finally: shutil.rmtree(temp_dir)] *)
Definition rmtree_scratch (fs : filesystem) : filesystem :=
  FileSystem None (temp_tsv fs) (archive fs).

Definition main (a : args) (s : schema) (fasta_files : list source_file)
    (faults : io_faults) (w : runtime) : outcome * filesystem :=
  match create_randomized_fasta_files fasta_files w with
  | Raise e => (Raised e, FileSystem None None None)
  | Ok ((None, _), _) => (Returned, FileSystem None None None)
  | Ok ((Some temp_dir, file_mapping), w') =>
      let '(o, fs) := main_try a s faults temp_dir file_mapping w' in
      (o, rmtree_scratch fs)
  end.

(** *** Predicates used to state the properties of the generator *)

(** The rounds over a list of groups, by position. *)
Definition rounds (n : nat) (groups : list (list entry)) : list entry :=
  seq 0 n ≫= (λ i, groups ≫= (λ g, option_list (g !! i))).


(** An integer that has a float. *)
Definition converts (z : Z) : Prop := ∃ q, b64_round (inject_Z z) = Finite q.

(** A number that [randrange] takes for an integer, and that integer. *)
Definition is_index (n : number) : Prop :=
  match n with
  | NInt _ => True
  | NFloat (Finite q) => Qden (Qred q) = 1%positive
  | NFloat _ => False
  end.

Definition index_value (n : number) : Z :=
  match n with
  | NInt z => z
  | NFloat (Finite q) => Qnum (Qred q)
  | NFloat _ => 0%Z
  end.

(** Bounds on which [uniform] does not raise: every int that meets a
    float has one. *)
Definition uniform_ok (a b : number) : Prop :=
  match a, b with
  | NInt a, NInt b => converts (b - a) ∧ converts a
  | NInt a, NFloat _ => converts a
  | NFloat _, NInt b => converts b
  | NFloat _, NFloat _ => True
  end.

(** Bounds on which [randint] does not raise: both are taken for
    integers, and there is a value to draw. *)
Definition randint_ok (a b : number) : Prop :=
  is_index a ∧ is_index (number_succ b) ∧
  (index_value a < index_value (number_succ b))%Z.

(** A descriptor on which the synthesizer cannot raise: no empty enum to
    choose from, no integer bound too large for the float arithmetic of
    [uniform], and for an integer property bounds that are integral and
    leave a value to draw. *)
Definition details_ok (pd : prop_details) : Prop :=
  match p_enum pd with
  | Some enum => enum ≠ []
  | None =>
      let prop_type := default "string" (p_type pd) in
      let max_val := default (NInt 100) (p_maximum pd) in
      let min_val := default (NInt 1) (p_minimum pd) in
      if decide (prop_type = "array") then
        match p_enum (default no_details (p_items pd)) with
        | Some enum => enum ≠ []
        | None => True
        end
      else if decide (prop_type = "number") then uniform_ok min_val max_val
      else if decide (prop_type = "integer") then randint_ok min_val max_val
      else True
  end.

Definition schema_ok (s : schema) : Prop :=
  Forall (λ p, details_ok p.2) (properties s).

(** What the rows guarantee about a required field [req]: it is present,
    and not empty as soon as its descriptor's enum has no empty member. *)
Definition enum_members_not_empty (pd : prop_details) : Prop :=
  ∀ enum x, p_enum pd = Some enum → x ∈ enum → is_empty x = false.

Definition required_filled (props : list (string * prop_details))
    (row : Row) (req : string) : Prop :=
  ∃ v, dict_get row req = Some v ∧
    (enum_members_not_empty (default no_details (dict_get props req)) →
     is_empty v = false).

(** What every generated row satisfies: distinct keys, which are the
    declared properties and the required names, and every required field
    filled. *)
Definition row_ok (s : schema) (row : Row) : Prop :=
  NoDup (row.*1) ∧
  (∀ k, k ∈ row.*1 ↔ k ∈ (properties s).*1 ∨ k ∈ required s) ∧
  (∀ req, req ∈ required s → required_filled (properties s) row req).

(** The value under [fasta_file_name], when there is one, is the file of
    an entry of the header list. *)
Definition file_name_from (fl : list entry) (row : Row) : Prop :=
  ∀ v, dict_get row "fasta_file_name" = Some v → ∃ e, e ∈ fl ∧ v = VStr e.1.

(** How a line of the randomized copy relates to the source line. *)
Definition randomized_line (line modified : string) : Prop :=
  if startswith_gt line
  then ∃ s, String.length s = 20 ∧ modified = ">" +:+ s +:+ newline
  else modified = line.

(** The sequence files of an archive, and the rows of its table. *)
Definition fasta_member_names (members : list (string * zip_member)) : list string :=
  members ≫= (λ m, match m.2 with ZipFasta _ => [m.1] | ZipTsv _ => [] end).

Definition member_rows (members : list (string * zip_member)) : list Row :=
  members ≫= (λ m, match m.2 with ZipTsv t => tsv_rows t | ZipFasta _ => [] end).

End Gen.

(** ** upload_files.py *)

Module Upload.

(** What posting one file does: a response with a status code and a
    body, or an exception (raised by [open] or by [requests.post]). *)
Inductive attempt : Type :=
| Response (status_code : Z) (text : string)
| Exception (message : string).

(** The multipart POST request: the endpoint, the [Authorization] header
    and the name given to the [file] field. *)
Record request : Type := Request {
  url : string;
  authorization : string;
  filename : string
}.

Record args : Type := Args {
  token : string;
  folio : string;
  project_id : string;
  submission_id : string
}.

(** [post] stands for the network and the file system: what the request
    for a file is answered with.  Directory entries are named by their
    base name. *)
Definition upload_file (post : request → attempt)
    (file_path folio_url project_id submission_id token : string) : bool :=
  let url :=
    folio_url +:+ "/projects/" +:+ project_id +:+ "/submissions/"
      +:+ submission_id +:+ "/upload2" in
  let filename := file_path in
  let headers := "Bearer " +:+ token in
  match post (Request url headers filename) with
  | Response status_code _ =>
      if decide (status_code ∈ [200; 201]%Z) then true else false
  | Exception _ => false
  end.

(** An entry matched by [folder_path.glob(pattern)]. *)
Record dir_entry : Type := DirEntry {
  de_name : string;
  de_is_file : bool
}.

(** What the checks on the folder and the matching of the pattern give:
    the folder does not exist, it is not a directory, [glob] rejects the
    pattern (an empty pattern raises [ValueError], an absolute one
    [NotImplementedError]; the exception is not caught and the
    interpreter exits with status 1), or the entries matched. *)
Inductive folder : Type :=
| Missing
| NotADirectory
| BadPattern
| Directory (matched : list dir_entry).

Definition de_le (f g : dir_entry) : Prop := String.le (de_name f) (de_name g).

#[global] Instance de_le_dec : RelDecision de_le :=
  λ f g, String.le_dec (de_name f) (de_name g).

(** The [for file_path in sorted(files)] loop: the two counters. *)
Definition upload_all (post : request → attempt) (a : args)
    (files : list dir_entry) : nat * nat :=
  foldl (λ '(success_count, fail_count) file_path,
           if upload_file post (de_name file_path) (folio a) (project_id a)
                (submission_id a) (token a)
           then (S success_count, fail_count)
           else (success_count, S fail_count))
        (0, 0) (merge_sort de_le files).

(** The exit code of the process and the two counters printed at the end. *)
Record report : Type := Report {
  exit_code : Z;
  uploaded : nat;
  failed : nat
}.

Definition main (post : request → attempt) (a : args) (fd : folder) : report :=
  match fd with
  | Missing => Report 1 0 0
  | NotADirectory => Report 1 0 0
  | BadPattern => Report 1 0 0
  | Directory matched =>
      let files := filter (λ f, de_is_file f = true) matched in
      match files with
      | [] => Report 0 0 0
      | _ =>
          let '(success_count, fail_count) := upload_all post a files in
          if decide (0 < fail_count) then Report 1 success_count fail_count
          else Report 0 success_count fail_count
      end
  end.

(** The upload of a matched file succeeded. *)
Definition succeeded (post : request → attempt) (a : args) (f : dir_entry) : Prop :=
  upload_file post (de_name f) (folio a) (project_id a) (submission_id a) (token a)
    = true.

#[global] Instance succeeded_dec post a f : Decision (succeeded post a f) :=
  decide (upload_file post (de_name f) (folio a) (project_id a)
            (submission_id a) (token a) = true).

End Upload.

(** ** Concrete inputs *)

Module Examples.
Import Py Gen.

(** A tape of 64-bit draws and a clock set to 2025-11-03. *)
Definition tape (n : nat) : N :=
  ((N.of_nat n + 1) * 6364136223846793005 + 1442695040888963407)
    `mod` 18446744073709551616.

Definition w0 : runtime := Runtime tape 0 20395.

Definition details (type : string) : prop_details :=
  PropDetails (Some type) None None None None None.

Definition enum_of (type : string) (enum : list value) : prop_details :=
  PropDetails (Some type) (Some enum) None None None None.

Definition array_of (items : prop_details) : prop_details :=
  PropDetails (Some "array") None (Some items) None None None.

Definition bounded (type : string) (lo hi : option number) : prop_details :=
  PropDetails (Some type) None None None lo hi.

(** Three files with 3, 3 and 2 headers, in extraction order. *)
Definition entries_3_3_2 : list entry :=
  [("a.fasta", "a1"); ("a.fasta", "a2"); ("a.fasta", "a3");
   ("b.fasta", "b1"); ("b.fasta", "b2"); ("b.fasta", "b3");
   ("c.fasta", "c1"); ("c.fasta", "c2")].

Definition two_entries : list entry :=
  [("a.fasta", "h1"); ("b.fasta", "h2")].

(** The header field declared before the file field. *)
Definition header_first : schema :=
  Schema [("fasta_header_name", details "string");
          ("fasta_file_name", details "string")] [].

(** The file field declared before the header field. *)
Definition file_first : schema :=
  Schema [("sample_id", details "string");
          ("fasta_file_name", details "string");
          ("fasta_header_name", details "string")]
         ["sample_id"; "fasta_file_name"; "fasta_header_name"].

(** A required name that is not a declared property. *)
Definition undeclared_required : schema :=
  Schema [("sample_id", details "string")] ["collector"].

(** A required field whose enum holds only the empty string. *)
Definition empty_enum_member : schema :=
  Schema [("note", enum_of "string" [VStr ""])] ["note"].

Definition sample_schema : schema :=
  Schema [("sample_id", details "string");
          ("host", enum_of "string" [VStr "human"; VStr "bovine"]);
          ("age", details "integer");
          ("tags", array_of (enum_of "string" [VStr "x"; VStr "y"; VStr "z"]))]
         ["sample_id"; "age"; "collector"].

(** A source file whose second header line is indented. *)
Definition indented_lines : list string :=
  [">seq1" +:+ newline; "ACGT" +:+ newline;
   "  " +:+ ">" +:+ ("seq2 sample" +:+ newline); "GGCC" +:+ newline].

Definition indented_file : source_file :=
  SourceFile "virus.fasta" (Some indented_lines).

Definition indented_source : list source_file := [indented_file].

(** The scratch directory and the name mapping of that run. *)
Definition indented_temp_dir : gmap string (list string) :=
  match create_randomized_fasta_files indented_source w0 with
  | Ok ((Some temp_dir, _), _) => temp_dir
  | _ => ∅
  end.

Definition indented_mapping : list (string * string) :=
  match create_randomized_fasta_files indented_source w0 with
  | Ok ((_, file_mapping), _) => file_mapping
  | _ => []
  end.

(** A header line indented with a no-break space (U+00A0) and ended by
    an ideographic space (U+3000) before its newline, in UTF-8. *)
Definition no_break_space : string :=
  String (ascii_of_nat 194) (String (ascii_of_nat 160) EmptyString).

Definition ideographic_space : string :=
  String (ascii_of_nat 227)
    (String (ascii_of_nat 128) (String (ascii_of_nat 128) EmptyString)).

Definition unicode_indented_line : string :=
  no_break_space +:+ ">h1 " +:+ ideographic_space +:+ newline.

(** A generator whose draws are all the same, so that every random name
    it gives is the same name, and the indented file followed by a file
    without header lines. *)
Definition w_same : runtime := Runtime (λ _, 0%N) 0 20395.

Definition overwriting_source : list source_file :=
  [indented_file; SourceFile "z.fasta" (Some ["TTAA" +:+ newline])].

Definition overwritten_temp_dir : gmap string (list string) :=
  match create_randomized_fasta_files overwriting_source w_same with
  | Ok ((Some temp_dir, _), _) => temp_dir
  | _ => ∅
  end.

Definition overwritten_mapping : list (string * string) :=
  match create_randomized_fasta_files overwriting_source w_same with
  | Ok ((_, file_mapping), _) => file_mapping
  | _ => []
  end.

(** Two source files with one record each, and a run asking for one row
    spread over two files ([--spread 2]). *)
Definition two_sources : list source_file :=
  [SourceFile "first.fasta" (Some [">alpha" +:+ newline; "ACGT" +:+ newline]);
   SourceFile "second.fa" (Some [">beta" +:+ newline; "GGCC" +:+ newline])].

Definition one_row : args := Args 1 (Some 2%Z) "generated_data.tsv".

Definition zip_open_fault : io_faults := IoFaults false true false.

Definition one_row_fs : filesystem :=
  (main one_row file_first two_sources no_faults w0).2.

Definition one_row_members : list (string * zip_member) :=
  default [] (archive one_row_fs).

(** Three files to upload, the second answered with HTTP 500. *)
Definition upload_args : Upload.args :=
  Upload.Args "secret" "http://localhost:8080" "p1" "s1".

Definition three_files : list Upload.dir_entry :=
  [Upload.DirEntry "a.fasta" true; Upload.DirEntry "b.fasta" true;
   Upload.DirEntry "c.fasta" true].

Definition one_rejected (r : Upload.request) : Upload.attempt :=
  if decide (Upload.filename r = "b.fasta")
  then Upload.Response 500 "Internal Server Error"
  else if decide (Upload.filename r = "a.fasta")
  then Upload.Response 200 "ok"
  else Upload.Response 201 "created".
End Examples.

(** ** Further predicates and examples *)

Module GenMore.
Import Py Gen.
Local Open Scope py_scope.

(** A string of ASCII letters and digits. *)
Definition alnum (s : string) : Prop :=
  Forall (λ c, c ∈ alphabet) (list_ascii_of_string s).

(** [generate_random_number(min_val=1, max_val=100)] *)
Definition generate_random_number (min_val max_val : Z) : M Z :=
  randint min_val max_val.

(** A line of the randomized copy against the source line: a header line
    is replaced by the marker, 20 letters or digits and a newline; any
    other line is kept. *)
Definition anonymized_line (line modified : string) : Prop :=
  if startswith_gt line
  then ∃ s, modified = ">" +:+ s +:+ newline ∧ String.length s = 20 ∧ alnum s
  else modified = line.

(** A randomized file name: 12 letters or digits and the extension. *)
Definition random_name (name : string) : Prop :=
  ∃ s, name = s +:+ ".fasta" ∧ String.length s = 12 ∧ alnum s.

End GenMore.

Module ExamplesMore.
Import Py Gen GenMore Examples.

(** The scratch directory and the name mapping of the run over two files. *)
Definition two_sources_temp_dir : gmap string (list string) :=
  match create_randomized_fasta_files two_sources w0 with
  | Ok ((Some temp_dir, _), _) => temp_dir
  | _ => ∅
  end.

Definition two_sources_mapping : list (string * string) :=
  match create_randomized_fasta_files two_sources w0 with
  | Ok ((_, file_mapping), _) => file_mapping
  | _ => []
  end.

(** A schema that declares the file field but no header field. *)
Definition file_only : schema :=
  Schema [("sample_id", details "string");
          ("fasta_file_name", details "string")]
         ["fasta_file_name"].

(** The rows of a run of two rows over two entries. *)
Definition file_first_rows : list Row :=
  match generate_dummy_data file_first 2 two_entries true w0 with
  | Ok (rows, _) => rows
  | Raise _ => []
  end.

(** A schema whose second property has an empty enum. *)
Definition no_choice : schema :=
  Schema [("sample_id", details "string"); ("host", enum_of "string" [])] [].

End ExamplesMore.

(** * Properties *)

Import Py Gen.

Section interleave_facts.
Implicit Types (l : list entry) (e : entry) (f : string).

Lemma add_to_group_lookup (m : gmap string (list entry)) e f :
  add_to_group m e !! f =
    if decide (f = e.1) then Some (default [] (m !! f) ++ [e]) else m !! f.
Proof.
  unfold add_to_group. case_decide as Hf.
  - subst f. destruct (m !! e.1) as [g|] eqn:Hm.
    + rewrite lookup_alter_eq, Hm. done.
    + rewrite lookup_alter_eq, lookup_insert_eq. done.
  - destruct (m !! e.1) eqn:Hm.
    + by rewrite lookup_alter_ne.
    + rewrite lookup_alter_ne by done. by rewrite lookup_insert_ne.
Qed.

Lemma group_by_file_snoc l e :
  group_by_file (l ++ [e]) = add_to_group (group_by_file l) e.
Proof. unfold group_by_file. by rewrite foldl_app. Qed.

Lemma group_of_absent l f : f ∉ l.*1 → group_of f l = [].
Proof.
  intros Hf. unfold group_of. induction l as [|e l IH]; [done|].
  rewrite fmap_cons, not_elem_of_cons in Hf. destruct Hf as [Hne Hf].
  rewrite filter_cons_False by (intros Heq; by apply Hne). auto.
Qed.

Lemma group_by_file_lookup l f :
  group_by_file l !! f =
    if decide (f ∈ l.*1) then Some (group_of f l) else None.
Proof.
  induction l as [|e l IH] using rev_ind.
  - unfold group_by_file. simpl. rewrite lookup_empty.
    done.
  - rewrite group_by_file_snoc, add_to_group_lookup, IH.
    unfold group_of. rewrite fmap_app, filter_app. simpl.
    destruct (decide (f = e.1)) as [->|Hne].
    + rewrite (decide_True (P := e.1 ∈ l.*1 ++ [e.1])) by set_solver.
      rewrite filter_cons_True by done. rewrite filter_nil.
      case_decide as Hin; simpl; [done|].
      pose proof (group_of_absent l (e.1) Hin) as Hg. unfold group_of in Hg.
      by rewrite Hg.
    + rewrite filter_cons_False by (intros Heq; by apply Hne). rewrite filter_nil, app_nil_r.
      apply decide_ext. rewrite elem_of_app, list_elem_of_singleton. tauto.
Qed.

Lemma group_by_file_dom l :
  dom (group_by_file l) = list_to_set (l.*1).
Proof.
  apply set_eq. intros f. rewrite elem_of_dom, group_by_file_lookup, elem_of_list_to_set.
  case_decide as Hf.
  - split; [done | intros _; by eexists].
  - split; [by intros [??] | done].
Qed.

Lemma group_by_file_total l f :
  f ∈ l.*1 → group_by_file l !!! f = group_of f l.
Proof.
  intros Hf. rewrite lookup_total_alt, group_by_file_lookup. by rewrite decide_True.
Qed.


Lemma round_robin_rounds n (groups : list (list entry)) :
  round_robin n groups = rounds n groups.
Proof.
  unfold rounds. revert groups. induction n as [|n IH]; intros groups; [done|].
  rewrite <- cons_seq, bind_cons. simpl. f_equal.
  - apply list_bind_ext; [|done]. intros g. by rewrite head_lookup.
  - rewrite IH, <- fmap_S_seq, list_fmap_bind. apply list_bind_ext; [|done].
    intros i. simpl. rewrite list_fmap_bind. apply list_bind_ext; [|done].
    intros g. simpl. by rewrite lookup_tail.
Qed.

Lemma round_empty (groups : list (list entry)) i :
  Forall (λ g, length g ≤ i) groups →
  groups ≫= (λ g, option_list (g !! i)) = [].
Proof.
  induction 1 as [|g groups Hg _ IH]; [done|].
  rewrite bind_cons, IH. rewrite lookup_ge_None_2 by done. done.
Qed.

Lemma rounds_extra n k (groups : list (list entry)) :
  Forall (λ g, length g ≤ n) groups →
  rounds (n + k) groups = rounds n groups.
Proof.
  intros Hn. unfold rounds. rewrite seq_app, bind_app. simpl.
  rewrite <- (app_nil_r (seq 0 n ≫= _)) at 2. f_equal.
  assert (∀ j, n ≤ j → seq j k ≫= (λ i, groups ≫= (λ g, option_list (g !! i))) = []) as Hj.
  { induction k as [|k IH]; intros j Hj; [done|].
    change (seq j (S k)) with (j :: seq (S j) k).
    rewrite bind_cons, IH by lia. rewrite round_empty; [done|].
    eapply Forall_impl; [exact Hn|]. simpl. lia. }
  by apply Hj.
Qed.

Lemma sorted_elements_remove_dups (ks : list string) :
  sorted (elements (list_to_set (C := gset string) ks)) = sorted (remove_dups ks).
Proof.
  unfold sorted. apply (Sorted_unique String.le).
  - apply (Sorted_merge_sort String.le).
  - apply (Sorted_merge_sort String.le).
  - rewrite !merge_sort_Permutation. apply NoDup_Permutation.
    + apply NoDup_elements.
    + apply NoDup_remove_dups.
    + intros k. by rewrite elem_of_elements, elem_of_list_to_set, elem_of_remove_dups.
Qed.

Lemma elem_of_sorted (ks : list string) f : f ∈ sorted ks ↔ f ∈ ks.
Proof. unfold sorted. by rewrite merge_sort_Permutation. Qed.

Lemma max_list_bound (ns : list nat) n : Forall (λ k, k ≤ n) ns → max_list ns ≤ n.
Proof. induction 1; simpl; lia. Qed.

Lemma group_length_le_max l f :
  length (group_of f l) ≤ max_list (length <$> (map_to_list (group_by_file l)).*2).
Proof.
  destruct (decide (f ∈ l.*1)) as [Hf|Hf].
  - apply max_list_elem_of_le. apply list_elem_of_fmap.
    exists (group_of f l). split; [done|].
    apply list_elem_of_fmap. exists (f, group_of f l). split; [done|].
    apply elem_of_map_to_list. rewrite group_by_file_lookup. by rewrite decide_True.
  - rewrite group_of_absent by done. simpl. lia.
Qed.

Lemma interleave_rounds l :
  interleave l =
    rounds (max_list (length <$> (map_to_list (group_by_file l)).*2))
           ((λ f, group_of f l) <$> sorted (remove_dups (l.*1))).
Proof.
  unfold interleave, rounds. apply list_bind_ext; [|done]. intros i.
  rewrite group_by_file_dom, sorted_elements_remove_dups, list_fmap_bind.
  apply Forall_bind_ext. apply Forall_forall. intros f Hf. simpl.
  rewrite group_by_file_total; [done|].
  rewrite elem_of_sorted, elem_of_remove_dups in Hf. done.
Qed.

Lemma interleave_refines_spec l : interleave l = spec_interleave l.
Proof.
  rewrite interleave_rounds. unfold spec_interleave. rewrite round_robin_rounds.
  set (groups := (λ f, group_of f l) <$> sorted (remove_dups (l.*1))).
  set (n := max_list (length <$> groups)).
  set (m := max_list _).
  assert (n ≤ m) as Hle.
  { apply max_list_bound, Forall_fmap, Forall_fmap, Forall_forall.
    intros f _. apply group_length_le_max. }
  replace m with (n + (m - n)) by lia. apply rounds_extra.
  apply Forall_forall. intros g Hg. apply max_list_elem_of_le.
  by apply list_elem_of_fmap_2.
Qed.

Lemma eq_Permutation {A} (xs ys : list A) : xs = ys → xs ≡ₚ ys.
Proof. by intros ->. Qed.

Lemma bind_app_Permutation {A B} (g h : A → list B) (xs : list A) :
  xs ≫= (λ x, g x ++ h x) ≡ₚ (xs ≫= g) ++ (xs ≫= h).
Proof.
  induction xs as [|x xs IH]; [done|].
  rewrite !bind_cons, IH.
  rewrite <- !(assoc_L (++)). apply Permutation_app_head.
  rewrite !(assoc_L (++)). apply Permutation_app_tail, Permutation_app_comm.
Qed.

Lemma bind_swap_Permutation {A B C} (k : A → B → list C) (xs : list A) (ys : list B) :
  xs ≫= (λ x, ys ≫= k x) ≡ₚ ys ≫= (λ y, xs ≫= (λ x, k x y)).
Proof.
  induction xs as [|x xs IH].
  - simpl. induction ys as [|y ys IHy]; [done|]. by rewrite bind_cons, <- IHy.
  - rewrite bind_cons, IH.
    rewrite <- bind_app_Permutation. 
    apply eq_Permutation. apply list_bind_ext; [|done]. intros y. by rewrite bind_cons.
Qed.

Lemma positions_all (g : list entry) n :
  length g ≤ n → seq 0 n ≫= (λ i, option_list (g !! i)) = g.
Proof.
  revert n. induction g as [|e g IH]; intros n Hn.
  - induction (seq 0 n) as [|i s IHs]; [done|]. by rewrite bind_cons, IHs.
  - destruct n as [|n]; [simpl in Hn; lia|].
    rewrite <- cons_seq, bind_cons, <- fmap_S_seq, list_fmap_bind. simpl. f_equal.
    apply IH. simpl in Hn. lia.
Qed.

Lemma rounds_Permutation n (groups : list (list entry)) :
  Forall (λ g, length g ≤ n) groups → rounds n groups ≡ₚ mjoin groups.
Proof.
  intros Hn. unfold rounds. rewrite bind_swap_Permutation, list_join_bind.
  apply eq_Permutation. apply Forall_bind_ext.
  eapply Forall_impl; [exact Hn|]. intros g Hg. by apply positions_all.
Qed.

Lemma groups_cover (ks : list string) l :
  NoDup ks → (∀ e, e ∈ l → e.1 ∈ ks) →
  ks ≫= (λ f, group_of f l) ≡ₚ l.
Proof.
  intros Hks. induction l as [|e l IH]; intros Hl.
  - clear. induction ks as [|k ks IHk]; [done|]. by rewrite bind_cons.
  - transitivity (e :: ks ≫= (λ f, group_of f l));
      [|constructor; apply IH; intros e' He'; apply Hl; by right].
    assert (e.1 ∈ ks) as He by (apply Hl; by left).
    clear IH Hl. induction Hks as [|k ks Hk Hks IHk]; [by apply elem_of_nil in He|].
    rewrite !bind_cons. unfold group_of at 1. 
    destruct (decide (e.1 = k)) as [Hek|Hek].
    + rewrite filter_cons_True by done. simpl. constructor.
      apply Permutation_app_head. apply eq_Permutation, Forall_bind_ext, Forall_forall.
      intros f Hf. unfold group_of. rewrite filter_cons_False; [done|].
      intros Heq. apply Hk. congruence.
    + rewrite filter_cons_False by done.
      apply elem_of_cons in He as [He|He]; [congruence|].
      rewrite IHk by done. fold (group_of k l). symmetry. apply Permutation_middle.
Qed.

Lemma interleave_Permutation l : interleave l ≡ₚ l.
Proof.
  rewrite interleave_rounds, rounds_Permutation.
  - rewrite list_join_bind, list_fmap_bind. apply groups_cover.
    + unfold sorted. rewrite merge_sort_Permutation. apply NoDup_remove_dups.
    + intros e He. apply elem_of_sorted, elem_of_remove_dups. by apply list_elem_of_fmap_2.
  - apply Forall_fmap, Forall_forall. intros f _. apply group_length_le_max.
Qed.

Lemma group_of_file l f e : e ∈ group_of f l → e.1 = f.
Proof. unfold group_of. rewrite list_elem_of_filter. by intros [? _]. Qed.

Lemma interleave_3_3_2 l f1 f2 f3 :
  sorted (remove_dups (l.*1)) = [f1; f2; f3] →
  length (group_of f1 l) = 3 →
  length (group_of f2 l) = 3 →
  length (group_of f3 l) = 2 →
  (interleave l).*1 = [f1; f2; f3; f1; f2; f3; f1; f2].
Proof.
  intros Hfiles H1 H2 H3. rewrite interleave_refines_spec. unfold spec_interleave.
  rewrite Hfiles. simpl. rewrite H1, H2, H3.
  pose proof (group_of_file l f1) as G1.
  pose proof (group_of_file l f2) as G2.
  pose proof (group_of_file l f3) as G3.
  destruct (group_of f1 l) as [|a1 [|a2 [|a3 [|? ?]]]]; try discriminate H1.
  destruct (group_of f2 l) as [|b1 [|b2 [|b3 [|? ?]]]]; try discriminate H2.
  destruct (group_of f3 l) as [|c1 [|c2 [|? ?]]]; try discriminate H3.
  simpl.
  rewrite (G1 a1), (G1 a2), (G1 a3), (G2 b1), (G2 b2), (G2 b3), (G3 c1), (G3 c2);
    [done|set_solver..].
Qed.
End interleave_facts.

Section runtime_facts.
Local Open Scope py_scope.

Lemma bind_Ok {A B} (m : M A) (k : A → M B) w b w' :
  bind m k w = Ok (b, w') ↔ ∃ a w1, m w = Ok (a, w1) ∧ k a w1 = Ok (b, w').
Proof.
  unfold bind. destruct (m w) as [[a w1]|e]; split.
  - intros H. by exists a, w1.
  - by intros (? & ? & [= <- <-] & ?).
  - done.
  - by intros (? & ? & ? & ?).
Qed.

Lemma ret_Ok {A} (a b : A) w w' : ret a w = Ok (b, w') ↔ a = b ∧ w = w'.
Proof. unfold ret. split; [by intros [= -> ->] | by intros [-> ->]]. Qed.

Lemma bind_run {A B} (m : M A) (k : A → M B) w a w1 :
  m w = Ok (a, w1) → bind m k w = k a w1.
Proof. unfold bind. by intros ->. Qed.

Lemma randbelow_Ok n w j w' :
  randbelow n w = Ok (j, w') → 0 < n → j < n.
Proof.
  unfold randbelow, bind, draw, ret. intros [= <- _] Hn.
  assert (rand_tape w (rand_pos w) `mod` N.of_nat n < N.of_nat n)%N
    by (apply N.mod_lt; lia). lia.
Qed.

Lemma randbelow_total n w : ∃ j w', randbelow n w = Ok (j, w').
Proof. unfold randbelow, bind, draw, ret. eauto. Qed.

Lemma randint_Ok a b w z w' :
  randint a b w = Ok (z, w') → (a ≤ z ≤ b)%Z.
Proof.
  unfold randint. case_decide as Hab; [done|].
  intros (j & w1 & Hj & [<- _]%ret_Ok)%bind_Ok.
  apply randbelow_Ok in Hj; lia.
Qed.

Lemma randint_total a b w :
  (a ≤ b)%Z → ∃ z w', randint a b w = Ok (z, w').
Proof.
  intros Hab. unfold randint. rewrite decide_False by lia.
  destruct (randbelow_total (Z.to_nat (b - a + 1)) w) as (j & w1 & Hj).
  rewrite (bind_run _ _ _ _ _ Hj). unfold ret. eauto.
Qed.

Lemma randint_empty a b w : (b < a)%Z → randint a b w = Raise ValueError.
Proof. intros Hab. unfold randint. by rewrite decide_True. Qed.

Lemma choice_Ok {A} (xs : list A) w x w' :
  choice xs w = Ok (x, w') → x ∈ xs.
Proof.
  destruct xs as [|x0 xs]; [done|]. unfold choice.
  intros (j & w1 & Hj & [<- _]%ret_Ok)%bind_Ok.
  apply randbelow_Ok in Hj; [|simpl; lia].
  destruct (lookup_lt_is_Some_2 (x0 :: xs) j Hj) as [y Hy].
  rewrite Hy. simpl. by eapply list_elem_of_lookup_2.
Qed.

Lemma choice_total {A} (xs : list A) w :
  xs ≠ [] → ∃ x w', choice xs w = Ok (x, w').
Proof.
  destruct xs as [|x0 xs]; [done|]. intros _. unfold choice.
  destruct (randbelow_total (length (x0 :: xs)) w) as (j & w1 & Hj).
  rewrite (bind_run _ _ _ _ _ Hj). unfold ret. eauto.
Qed.

Lemma replicateM_Ok {A} (m : M A) (P : A → Prop) n w xs w' :
  (∀ w x w', m w = Ok (x, w') → P x) →
  replicateM n m w = Ok (xs, w') → length xs = n ∧ Forall P xs.
Proof.
  intros Hm. revert w xs w'. induction n as [|n IH]; intros w xs w'; simpl.
  - by intros [<- _]%ret_Ok.
  - intros (x & w1 & Hx & (ys & w2 & Hys & [<- _]%ret_Ok)%bind_Ok)%bind_Ok.
    destruct (IH _ _ _ Hys) as [<- ?]. split; [done|]. constructor; eauto.
Qed.

Lemma replicateM_total {A} (m : M A) n w :
  (∀ w, ∃ x w', m w = Ok (x, w')) → ∃ xs w', replicateM n m w = Ok (xs, w').
Proof.
  intros Hm. revert w. induction n as [|n IH]; intros w; simpl.
  - unfold ret. eauto.
  - destruct (Hm w) as (x & w1 & Hx). rewrite (bind_run _ _ _ _ _ Hx).
    destruct (IH w1) as (xs & w2 & Hxs). rewrite (bind_run _ _ _ _ _ Hxs).
    unfold ret. eauto.
Qed.

Lemma pool_step {A} (pool : list A) j p q :
  pool !! j = Some p → pool !! pred (length pool) = Some q →
  p :: take (pred (length pool)) (<[j := q]> pool) ≡ₚ pool.
Proof.
  intros Hp Hq. set (n1 := pred (length pool)).
  assert (j < length pool) as Hj by (by eapply lookup_lt_Some).
  assert (pool = take n1 pool ++ [q]) as Hsplit.
  { rewrite <- (take_drop n1 pool) at 1. f_equal.
    rewrite (drop_S _ q) by done. rewrite drop_ge; [done|]. unfold n1. lia. }
  destruct (decide (j = n1)) as [->|Hne].
  - rewrite take_insert_ge by done. assert (p = q) as -> by (unfold n1 in Hp; congruence).
    rewrite Hsplit at 2. apply Permutation_cons_append.
  - assert (j < n1) as Hlt by (unfold n1 in *; lia).
    rewrite take_insert_lt by done.
    assert (take n1 pool !! j = Some p) as HT by (by rewrite lookup_take_lt).
    rewrite Hsplit at 2. rewrite <- Permutation_cons_append.
    rewrite (delete_Permutation _ _ _ HT) at 2.
    rewrite insert_take_drop by (by eapply lookup_lt_Some).
    rewrite delete_take_drop, <- Permutation_middle. apply perm_swap.
Qed.

Lemma sample_pool_Ok {A} (pool : list (nat * A)) k w picked w' :
  sample_pool pool k w = Ok (picked, w') →
  length picked = k ∧ ∃ rest, picked ++ rest ≡ₚ pool.
Proof.
  revert pool w picked w'. induction k as [|k IH]; intros pool w picked w'; simpl.
  - intros [<- _]%ret_Ok. split; [done|]. by exists pool.
  - destruct pool as [|x pool']; [done|]. set (pool := x :: pool').
    intros (j & w1 & Hj & (rest & w2 & Hrest & [<- _]%ret_Ok)%bind_Ok)%bind_Ok.
    apply randbelow_Ok in Hj; [|simpl; lia].
    apply IH in Hrest as [<- [others Hperm]]. split; [done|].
    exists others. simpl. rewrite Hperm.
    destruct (lookup_lt_is_Some_2 pool j Hj) as [p Hp].
    destruct (lookup_lt_is_Some_2 pool (pred (length pool)) ltac:(simpl; lia)) as [q Hq].
    rewrite Hp, Hq. simpl.
    by apply (pool_step pool).
Qed.

Lemma sample_pool_total {A} (pool : list (nat * A)) k w :
  k ≤ length pool → ∃ picked w', sample_pool pool k w = Ok (picked, w').
Proof.
  revert pool w. induction k as [|k IH]; intros pool w Hk; simpl.
  - unfold ret. eauto.
  - destruct pool as [|x pool']; [simpl in Hk; lia|].
    destruct (randbelow_total (length (x :: pool')) w) as (j & w1 & Hj).
    rewrite (bind_run _ _ _ _ _ Hj).
    edestruct (IH (take (pred (length (x :: pool')))
                     (<[j:=default x ((x :: pool') !! pred (length (x :: pool')))]> (x :: pool'))) w1)
      as (rest & w2 & Hrest).
    { rewrite length_take, length_insert. simpl in *. lia. }
    rewrite (bind_run _ _ _ _ _ Hrest). unfold ret. eauto.
Qed.

(** [random.sample] returns [k] members taken at pairwise distinct
    positions of the population. *)
Lemma sample_Ok {A} (population : list A) k w vs w' :
  sample population k w = Ok (vs, w') →
  length vs = k ∧
  ∃ positions, NoDup positions ∧
    Forall2 (λ i v, population !! i = Some v) positions vs.
Proof.
  unfold sample. case_decide as Hk; [done|].
  intros (picked & w1 & Hpicked & [<- _]%ret_Ok)%bind_Ok.
  apply sample_pool_Ok in Hpicked as [Hlen [rest Hperm]].
  split; [by rewrite length_fmap|]. exists (picked.*1). split.
  - assert (NoDup ((picked ++ rest).*1)) as Hnd.
    { rewrite Hperm, fmap_imap. 
      rewrite (imap_ext _ (λ i _, i)) by done. rewrite imap_seq_0.
      rewrite list_fmap_id. apply NoDup_seq. }
    rewrite fmap_app in Hnd. by apply NoDup_app in Hnd as [? _].
  - apply Forall2_fmap, Forall_Forall2_diag, Forall_forall. intros [i v] Hiv. simpl.
    assert ((i, v) ∈ picked ++ rest) as Hin by (apply elem_of_app; by left).
    rewrite Hperm in Hin. apply elem_of_lookup_imap in Hin as (i' & v' & [= -> ->] & Hv).
    done.
Qed.

Lemma sample_total {A} (population : list A) k w :
  k ≤ length population → ∃ vs w', sample population k w = Ok (vs, w').
Proof.
  intros Hk. unfold sample. rewrite decide_False by lia.
  destruct (sample_pool_total (imap (λ i x, (i, x)) population) k w)
    as (picked & w1 & Hpicked); [by rewrite length_imap|].
  rewrite (bind_run _ _ _ _ _ Hpicked). unfold ret. eauto.
Qed.

Lemma sample_members {A} (population : list A) k w vs w' :
  sample population k w = Ok (vs, w') → Forall (λ v, v ∈ population) vs.
Proof.
  intros (_ & positions & _ & Hpos)%sample_Ok.
  induction Hpos as [|i v ?? Hv _ IH]; constructor; [|done].
  by eapply list_elem_of_lookup_2.
Qed.

Lemma sample_NoDup {A} (population : list A) k w vs w' :
  NoDup population → sample population k w = Ok (vs, w') → NoDup vs.
Proof.
  intros Hnd (_ & positions & Hpnd & Hpos)%sample_Ok.
  induction Hpos as [|i v is' vs' Hv Hrest IH]; [constructor|].
  apply NoDup_cons in Hpnd as [Hi Hpnd]. constructor; [|by apply IH].
  intros Hin. apply Hi. clear IH Hpnd Hi.
  induction Hrest as [|i' v' ?? Hv' _ IH']; [by apply elem_of_nil in Hin|].
  apply elem_of_cons in Hin as [<-|Hin]; [|apply elem_of_cons; right; by apply IH'].
  apply elem_of_cons. left. by eapply NoDup_lookup.
Qed.

Lemma random_random_Ok w r w' :
  random_random w = Ok (r, w') →
  ∃ q, r = Finite q ∧ (0 <= q)%Q ∧ (q <= 1)%Q ∧ rand_pos w' = S (rand_pos w) ∧
       rand_tape w' = rand_tape w ∧ clock_day w' = clock_day w.
Proof.
  unfold random_random, random_bits, bind, draw, ret. intros [= <- <-].
  set (d := rand_tape w (rand_pos w)).
  assert (d `mod` 2 ^ 53 < 2 ^ 53)%N as Hd by (by apply N.mod_lt).
  set (r := (d `mod` 2 ^ 53)%N) in *.
  change (2 ^ 53)%N with 9007199254740992%N in Hd.
  eexists. split; [reflexivity|].
  unfold Qle. cbn [Qnum Qden].
  change (Z.pos (2 ^ 53)) with 9007199254740992%Z.
  split; [lia|]. split; [lia|]. done.
Qed.

Lemma random_random_total w :
  ∃ q w', random_random w = Ok (Finite q, w') ∧ (0 <= q)%Q ∧ (q <= 1)%Q.
Proof.
  assert (∃ r w', random_random w = Ok (r, w')) as (r & w' & Hr).
  { unfold random_random, random_bits, bind, draw, ret. eauto. }
  destruct (random_random_Ok _ _ _ Hr) as (q & -> & H0 & H1 & _).
  by exists q, w'.
Qed.






Lemma b64_round_cases x :
  (∃ r, b64_round x = Finite r) ∨ (∃ s, b64_round x = Infinity s).
Proof.
  unfold b64_round. destruct (Qeq_bool x 0); [by left; eexists|].
  cbv zeta. destruct (Qle_bool _ _); [right|left]; by eexists.
Qed.









Lemma bind_Raise {A B} (m : M A) (k : A → M B) w e :
  m w = Raise e → bind m k w = Raise e.
Proof. unfold bind. by intros ->. Qed.

Lemma converts_dec z : converts z ∨ ¬ converts z.
Proof.
  unfold converts. destruct (b64_round_cases (inject_Z z)) as [[r Hr]|[s Hs]].
  - left. by exists r.
  - right. intros [q Hq]. congruence.
Qed.

Lemma float_of_int_converts z w :
  converts z → ∃ q, float_of_int z w = Ok (Finite q, w).
Proof. intros [q Hq]. exists q. unfold float_of_int. by rewrite Hq. Qed.

Lemma float_of_int_Ok z w f w' : float_of_int z w = Ok (f, w') → converts z.
Proof.
  unfold float_of_int, converts.
  by destruct (b64_round_cases (inject_Z z)) as [[r ->]|[s ->]]; [eexists|].
Qed.

Lemma float_of_int_raises z w :
  ¬ converts z → float_of_int z w = Raise OverflowError.
Proof.
  unfold float_of_int, converts. intros Hn.
  destruct (b64_round_cases (inject_Z z)) as [[r Hr]|[s ->]]; [|done].
  destruct Hn. by eexists.
Qed.

Lemma uniform_ok_dec a b : uniform_ok a b ∨ ¬ uniform_ok a b.
Proof.
  destruct a as [a|a], b as [b|b]; simpl; [|apply converts_dec..|by left].
  destruct (converts_dec (b - a)), (converts_dec a); tauto.
Qed.

Lemma uniform_total a b w : uniform_ok a b → ∃ u w', uniform a b w = Ok (u, w').
Proof.
  destruct (random_random_total w) as (r & w1 & Hr & _).
  destruct a as [a|a], b as [b|b]; simpl.
  - intros [Hd Ha]. rewrite (bind_run _ _ _ _ _ Hr).
    destruct (float_of_int_converts _ w1 Hd) as (d & Hd').
    destruct (float_of_int_converts _ w1 Ha) as (a' & Ha').
    rewrite (bind_run _ _ _ _ _ Hd'), (bind_run _ _ _ _ _ Ha'). unfold ret. eauto.
  - intros Ha. destruct (float_of_int_converts _ w Ha) as (a' & Ha').
    rewrite (bind_run _ _ _ _ _ Ha'), (bind_run _ _ _ _ _ Hr). unfold ret. eauto.
  - intros Hb. destruct (float_of_int_converts _ w Hb) as (b' & Hb').
    rewrite (bind_run _ _ _ _ _ Hb'), (bind_run _ _ _ _ _ Hr). unfold ret. eauto.
  - intros _. rewrite (bind_run _ _ _ _ _ Hr). unfold ret. eauto.
Qed.

Lemma uniform_raises a b w : ¬ uniform_ok a b → uniform a b w = Raise OverflowError.
Proof.
  destruct (random_random_total w) as (r & w1 & Hr & _).
  destruct a as [a|a], b as [b|b]; simpl; intros Hn.
  - rewrite (bind_run _ _ _ _ _ Hr).
    destruct (converts_dec (b - a)) as [Hd|Hd].
    + destruct (float_of_int_converts _ w1 Hd) as (d & Hd').
      rewrite (bind_run _ _ _ _ _ Hd'). apply bind_Raise, float_of_int_raises. tauto.
    + by apply bind_Raise, float_of_int_raises.
  - by apply bind_Raise, float_of_int_raises.
  - by apply bind_Raise, float_of_int_raises.
  - by destruct Hn.
Qed.

Lemma is_index_dec n : is_index n ∨ ¬ is_index n.
Proof.
  destruct n as [z|[q|s|]]; simpl; [by left| |by right; intros []..].
  destruct (decide (Qden (Qred q) = 1%positive)); auto.
Qed.

Lemma index_of_total n w : is_index n → index_of n w = Ok (index_value n, w).
Proof.
  destruct n as [z|[q|s|]]; simpl; [done| |done..].
  intros Hq. by rewrite decide_True.
Qed.

Lemma index_of_raises n : ¬ is_index n → ∃ e, ∀ w, index_of n w = Raise e.
Proof.
  destruct n as [z|[q|s|]]; simpl; intros Hn.
  - by destruct Hn.
  - exists ValueError. intros w. by rewrite decide_False.
  - by exists OverflowError.
  - by exists ValueError.
Qed.

Lemma randint_ok_dec a b : randint_ok a b ∨ ¬ randint_ok a b.
Proof.
  unfold randint_ok.
  destruct (is_index_dec a), (is_index_dec (number_succ b)),
    (decide (index_value a < index_value (number_succ b))%Z); tauto.
Qed.

Lemma randint_number_total a b w :
  randint_ok a b → ∃ z w', randint_number a b w = Ok (z, w').
Proof.
  intros (Ha & Hb & Hlt). unfold randint_number, randrange.
  rewrite (bind_run _ _ _ _ _ (index_of_total a w Ha)).
  rewrite (bind_run _ _ _ _ _ (index_of_total _ w Hb)).
  rewrite decide_True by lia.
  destruct (randbelow_total (Z.to_nat (index_value (number_succ b) - index_value a)) w)
    as (j & w' & Hj).
  rewrite (bind_run _ _ _ _ _ Hj). unfold ret. eauto.
Qed.

Lemma randint_number_Ok a b w z w' :
  randint_number a b w = Ok (z, w') →
  randint_ok a b ∧ (index_value a ≤ z < index_value (number_succ b))%Z.
Proof.
  unfold randint_number, randrange.
  destruct (is_index_dec a) as [Ha|Ha].
  2: { destruct (index_of_raises a Ha) as (e & He).
       by rewrite (bind_Raise _ _ _ _ (He w)). }
  rewrite (bind_run _ _ _ _ _ (index_of_total a w Ha)).
  destruct (is_index_dec (number_succ b)) as [Hb|Hb].
  2: { destruct (index_of_raises _ Hb) as (e & He).
       by rewrite (bind_Raise _ _ _ _ (He w)). }
  rewrite (bind_run _ _ _ _ _ (index_of_total _ w Hb)).
  case_decide as Hlt; [|done].
  intros (j & w1 & Hj & [<- _]%ret_Ok)%bind_Ok.
  apply randbelow_Ok in Hj; [|lia].
  split; [split; [done|split; [done|lia]]|lia].
Qed.

Lemma randint_number_raises a b :
  ¬ randint_ok a b → ∃ e, ∀ w, randint_number a b w = Raise e.
Proof.
  intros Hn. unfold randint_number, randrange.
  destruct (is_index_dec a) as [Ha|Ha].
  2: { destruct (index_of_raises a Ha) as (e & He). exists e. intros w.
       by apply bind_Raise. }
  destruct (is_index_dec (number_succ b)) as [Hb|Hb].
  2: { destruct (index_of_raises _ Hb) as (e & He). exists e. intros w.
       rewrite (bind_run _ _ _ _ _ (index_of_total a w Ha)). by apply bind_Raise. }
  exists ValueError. intros w.
  rewrite (bind_run _ _ _ _ _ (index_of_total a w Ha)).
  rewrite (bind_run _ _ _ _ _ (index_of_total _ w Hb)).
  rewrite decide_False; [done|]. intros Hlt. apply Hn.
  split; [done|split; [done|lia]].
Qed.


End runtime_facts.

Section value_facts.
Local Open Scope py_scope.

Lemma string_of_list_ascii_length cs :
  String.length (string_of_list_ascii cs) = length cs.
Proof. induction cs; simpl; congruence. Qed.

Lemma choices_Ok {A} (d : A) population k w xs w' :
  choices d population k w = Ok (xs, w') → length xs = k.
Proof.
  unfold choices. intros H.
  by apply (replicateM_Ok _ (λ _, True)) in H as [? _].
Qed.

Lemma choices_total {A} (d : A) population k w :
  ∃ xs w', choices d population k w = Ok (xs, w').
Proof.
  unfold choices. apply replicateM_total. intros w0.
  unfold random_bits, bind, draw, ret. eauto.
Qed.

Lemma generate_random_string_Ok n w s w' :
  generate_random_string n w = Ok (s, w') → String.length s = n.
Proof.
  unfold generate_random_string.
  intros (cs & w1 & Hcs & [<- _]%ret_Ok)%bind_Ok.
  rewrite string_of_list_ascii_length. by eapply choices_Ok.
Qed.

Lemma generate_random_string_total n w :
  ∃ s w', generate_random_string n w = Ok (s, w').
Proof.
  unfold generate_random_string.
  destruct (choices_total "a"%char alphabet n w) as (cs & w1 & Hcs).
  rewrite (bind_run _ _ _ _ _ Hcs). unfold ret. eauto.
Qed.

Lemma strftime_ymd_nonempty day : strftime_ymd day ≠ "".
Proof. unfold strftime_ymd. by destruct (civil_from_days day) as [[y m] d]. Qed.

Lemma generate_random_date_Ok w s w' :
  generate_random_date w = Ok (s, w') →
  ∃ days_back, (0 ≤ days_back ≤ 365)%Z ∧ s = strftime_ymd (clock_day w - days_back).
Proof.
  unfold generate_random_date.
  intros (k & w1 & Hk & (t & w2 & Ht & [<- _]%ret_Ok)%bind_Ok)%bind_Ok.
  exists k. split; [by eapply randint_Ok|].
  unfold now_day in Ht. injection Ht as <- _.
  unfold randint in Hk. case_decide; [done|].
  apply bind_Ok in Hk as (j & w3 & Hj & [_ <-]%ret_Ok).
  unfold randbelow, bind, draw, ret in Hj. by injection Hj as _ <-.
Qed.

Lemma generate_random_date_total w : ∃ s w', generate_random_date w = Ok (s, w').
Proof.
  unfold generate_random_date.
  destruct (randint_total 0 365 w ltac:(lia)) as (k & w1 & Hk).
  rewrite (bind_run _ _ _ _ _ Hk). unfold now_day, bind, ret. eauto.
Qed.

(** The array branch of [generate_dummy_value]. *)
Lemma array_enum_Ok pd enum w v w' :
  p_type pd = Some "array" → p_enum pd = None →
  p_enum (default no_details (p_items pd)) = Some enum →
  generate_dummy_value pd w = Ok (v, w') →
  ∃ vs, v = VList vs ∧ 1 ≤ length vs ≤ min 3 (length enum) ∧
    ∃ positions, NoDup positions ∧
      Forall2 (λ i x, enum !! i = Some x) positions vs.
Proof.
  intros Ht He Hi. unfold generate_dummy_value. rewrite Ht, He, Hi. simpl.
  intros (n & w1 & Hn & (vs & w2 & Hvs & [<- _]%ret_Ok)%bind_Ok)%bind_Ok.
  apply randint_Ok in Hn. apply sample_Ok in Hvs as [Hlen Hpos].
  exists vs. split; [done|]. split; [lia|done].
Qed.

Lemma array_enum_total pd enum w :
  p_type pd = Some "array" → p_enum pd = None →
  p_enum (default no_details (p_items pd)) = Some enum → enum ≠ [] →
  ∃ v w', generate_dummy_value pd w = Ok (v, w').
Proof.
  intros Ht He Hi Hne. unfold generate_dummy_value. rewrite Ht, He, Hi. simpl.
  assert (1 ≤ length enum) by (destruct enum; [done|simpl; lia]).
  destruct (randint_total 1 (Z.of_nat (min 3 (length enum))) w ltac:(lia))
    as (n & w1 & Hn).
  rewrite (bind_run _ _ _ _ _ Hn). apply randint_Ok in Hn.
  destruct (sample_total enum (Z.to_nat n) w1 ltac:(lia)) as (vs & w2 & Hvs).
  rewrite (bind_run _ _ _ _ _ Hvs). unfold ret. eauto.
Qed.

Lemma array_strings_Ok pd w v w' :
  p_type pd = Some "array" → p_enum pd = None →
  p_enum (default no_details (p_items pd)) = None →
  generate_dummy_value pd w = Ok (v, w') →
  ∃ strs, v = VList (VStr <$> strs) ∧ 1 ≤ length strs ≤ 3 ∧
    Forall (λ s, String.length s = 20) strs.
Proof.
  intros Ht He Hi. unfold generate_dummy_value. rewrite Ht, He, Hi. simpl.
  intros (n & w1 & Hn & (strs & w2 & Hstrs & [<- _]%ret_Ok)%bind_Ok)%bind_Ok.
  apply randint_Ok in Hn.
  apply (replicateM_Ok _ (λ s, String.length s = 20)) in Hstrs as [Hlen Hall];
    [|intros ???; apply generate_random_string_Ok].
  exists strs. split; [done|]. split; [lia|done].
Qed.

Lemma array_strings_total pd w :
  p_type pd = Some "array" → p_enum pd = None →
  p_enum (default no_details (p_items pd)) = None →
  ∃ v w', generate_dummy_value pd w = Ok (v, w').
Proof.
  intros Ht He Hi. unfold generate_dummy_value. rewrite Ht, He, Hi. simpl.
  destruct (randint_total 1 3 w ltac:(lia)) as (n & w1 & Hn).
  rewrite (bind_run _ _ _ _ _ Hn).
  destruct (replicateM_total (generate_random_string 20) (Z.to_nat n) w1
              (generate_random_string_total 20)) as (strs & w2 & Hstrs).
  rewrite (bind_run _ _ _ _ _ Hstrs). unfold ret. eauto.
Qed.

Lemma positions_members {A} (xs : list A) positions vs :
  Forall2 (λ i x, xs !! i = Some x) positions vs → Forall (λ v, v ∈ xs) vs.
Proof.
  induction 1 as [|i v ?? Hv _ IH]; constructor; [|done].
  by eapply list_elem_of_lookup_2.
Qed.

Lemma positions_NoDup {A} (xs : list A) positions vs :
  NoDup xs → NoDup positions →
  Forall2 (λ i x, xs !! i = Some x) positions vs → NoDup vs.
Proof.
  intros Hnd Hpnd Hpos.
  induction Hpos as [|i v is' vs' Hv Hrest IH]; [constructor|].
  apply NoDup_cons in Hpnd as [Hi Hpnd]. constructor; [|by apply IH].
  intros Hin. apply Hi. clear IH Hpnd Hi.
  induction Hrest as [|i' v' ?? Hv' _ IH']; [by apply elem_of_nil in Hin|].
  apply elem_of_cons in Hin as [<-|Hin]; [|apply elem_of_cons; right; by apply IH'].
  apply elem_of_cons. left. by eapply NoDup_lookup.
Qed.

Lemma truthy_not_empty v : truthy v = true → is_empty v = false.
Proof.
  destruct v as [|b|z|[q|s|]|s|l]; simpl; try done; by intros ->%negb_true_iff.
Qed.

Lemma nonempty_string_of_length s n : String.length s = n → 0 < n → s ≠ "".
Proof. intros <- Hn ->. simpl in Hn. lia. Qed.

(** The synthesizer yields an empty value only when it draws one from an
    enum. *)
Lemma generate_dummy_value_not_empty pd w v w' :
  generate_dummy_value pd w = Ok (v, w') →
  (∀ enum x, p_enum pd = Some enum → x ∈ enum → is_empty x = false) →
  is_empty v = false.
Proof.
  unfold generate_dummy_value. intros Hrun Henum.
  destruct (p_enum pd) as [enum|] eqn:He.
  { apply choice_Ok in Hrun. by eapply Henum. }
  assert (∀ n w s w', generate_random_string (S n) w = Ok (s, w') →
            is_empty (VStr s) = false) as Hstr.
  { intros n w0 s w0' Hs%generate_random_string_Ok. simpl.
    apply bool_decide_eq_false. eapply nonempty_string_of_length; [done|lia]. }
  case_decide as Harr.
  { destruct (p_enum (default no_details (p_items pd))) as [ienum|] eqn:Hi.
    - apply bind_Ok in Hrun as (n & w1 & Hn & (vs & w2 & Hvs & [<- _]%ret_Ok)%bind_Ok).
      apply randint_Ok in Hn. apply sample_Ok in Hvs as [Hlen _]. simpl.
      apply bool_decide_eq_false. intros ->. simpl in Hlen. lia.
    - apply bind_Ok in Hrun as (n & w1 & Hn & (strs & w2 & Hstrs & [<- _]%ret_Ok)%bind_Ok).
      apply randint_Ok in Hn.
      apply (replicateM_Ok _ (λ _, True)) in Hstrs as [Hlen _]; [|done]. simpl.
      apply bool_decide_eq_false. intros Hnil%fmap_nil_inv. subst strs.
      simpl in Hlen. lia. }
  case_decide as Hstring.
  { case_decide as Hdate.
    - apply bind_Ok in Hrun as (d & w1 & Hd & [<- _]%ret_Ok).
      apply generate_random_date_Ok in Hd as (k & _ & ->). cbn [is_empty].
      apply bool_decide_eq_false, strftime_ymd_nonempty.
    - apply bind_Ok in Hrun as (s & w1 & Hs & [<- _]%ret_Ok). by eapply Hstr. }
  case_decide as Hnum.
  { case_decide as Hnumber.
    - by apply bind_Ok in Hrun as (u & w1 & _ & [<- _]%ret_Ok).
    - by apply bind_Ok in Hrun as (n & w1 & _ & [<- _]%ret_Ok). }
  apply bind_Ok in Hrun as (s & w1 & Hs & [<- _]%ret_Ok). by eapply Hstr.
Qed.


Lemma generate_dummy_value_total pd w :
  details_ok pd → ∃ v w', generate_dummy_value pd w = Ok (v, w').
Proof.
  unfold details_ok, generate_dummy_value. intros Hok.
  assert (∀ w, ∃ v w', (s <- generate_random_string 20 ;; ret (VStr s)) w = Ok (v, w'))
    as Hstr.
  { intros w0. destruct (generate_random_string_total 20 w0) as (s & w1 & Hs).
    rewrite (bind_run _ _ _ _ _ Hs). unfold ret. eauto. }
  destruct (p_enum pd) as [enum|] eqn:He; [by apply choice_total|].
  simpl in Hok. set (t := default "string" (p_type pd)) in *.
  destruct (decide (t = "array")) as [Harr|Harr].
  { destruct (p_enum (default no_details (p_items pd))) as [ienum|] eqn:Hi.
    - assert (1 ≤ length ienum) by (destruct ienum; [done|simpl; lia]).
      destruct (randint_total 1 (Z.of_nat (min 3 (length ienum))) w ltac:(lia))
        as (n & w1 & Hn).
      rewrite (bind_run _ _ _ _ _ Hn). apply randint_Ok in Hn.
      destruct (sample_total ienum (Z.to_nat n) w1 ltac:(lia)) as (vs & w2 & Hvs).
      rewrite (bind_run _ _ _ _ _ Hvs). unfold ret. eauto.
    - destruct (randint_total 1 3 w ltac:(lia)) as (n & w1 & Hn).
      rewrite (bind_run _ _ _ _ _ Hn).
      destruct (replicateM_total (generate_random_string 20) (Z.to_nat n) w1
                  (generate_random_string_total 20)) as (strs & w2 & Hstrs).
      rewrite (bind_run _ _ _ _ _ Hstrs). unfold ret. eauto. }
  destruct (decide (t = "string")) as [Hstring|Hstring].
  { destruct (decide (p_format pd = Some "date")) as [Hdate|Hdate]; [|apply Hstr].
    destruct (generate_random_date_total w) as (d & w1 & Hd).
    rewrite (bind_run _ _ _ _ _ Hd). unfold ret. eauto. }
  destruct (decide (t = "number" ∨ t = "integer")) as [Hnum|Hnum]; [|apply Hstr].
  destruct (decide (t = "number")) as [Hnumber|Hnumber].
  - destruct (uniform_total _ _ w Hok) as (u & w1 & Hu).
    rewrite (bind_run _ _ _ _ _ Hu). unfold ret. eauto.
  - destruct Hnum as [?|Hint]; [done|]. rewrite decide_True in Hok by done.
    destruct (randint_number_total _ _ w Hok) as (n & w1 & Hn).
    rewrite (bind_run _ _ _ _ _ Hn). unfold ret. eauto.
Qed.



Lemma no_details_ok : details_ok no_details.
Proof. done. Qed.
End value_facts.

Section dict_facts.
Context {V : Type}.
Implicit Types (d : list (string * V)) (k : string) (v : V).

Lemma dict_set_keys d k v k' :
  k' ∈ (dict_set d k v).*1 ↔ k' = k ∨ k' ∈ d.*1.
Proof.
  induction d as [|[k0 v0] d IH]; simpl.
  - rewrite list_elem_of_singleton, elem_of_nil. tauto.
  - case_decide as Hk; simpl; rewrite !elem_of_cons.
    + subst k0. tauto.
    + rewrite IH. tauto.
Qed.

Lemma dict_set_NoDup d k v : NoDup (d.*1) → NoDup ((dict_set d k v).*1).
Proof.
  induction d as [|[k0 v0] d IH]; simpl.
  - intros _. apply NoDup_singleton.
  - intros [Hk0 Hd]%NoDup_cons. case_decide as Hk; simpl.
    + subst k0. by constructor.
    + constructor; [|by apply IH]. rewrite dict_set_keys. intros [?|?]; [congruence|done].
Qed.

Lemma dict_get_set_eq d k v : dict_get (dict_set d k v) k = Some v.
Proof.
  induction d as [|[k0 v0] d IH]; simpl.
  - by rewrite decide_True.
  - case_decide as Hk; simpl; [by rewrite decide_True|by rewrite decide_False].
Qed.

Lemma dict_get_set_ne d k v k' :
  k ≠ k' → dict_get (dict_set d k v) k' = dict_get d k'.
Proof.
  intros Hne. induction d as [|[k0 v0] d IH]; simpl.
  - by rewrite decide_False.
  - case_decide as Hk; simpl.
    + subst k0. by rewrite !decide_False.
    + case_decide; [done|apply IH].
Qed.

Lemma dict_get_Some_key d k v : dict_get d k = Some v → k ∈ d.*1.
Proof.
  induction d as [|[k0 v0] d IH]; simpl; [done|].
  case_decide as Hk; rewrite elem_of_cons; [by left|]. intros ?. right. by apply IH.
Qed.

Lemma dict_get_None_key d k : dict_get d k = None → k ∉ d.*1.
Proof.
  induction d as [|[k0 v0] d IH]; simpl; [intros _; apply not_elem_of_nil|].
  case_decide as Hk; [done|]. intros Hget. apply not_elem_of_cons. auto.
Qed.

Lemma dict_get_Some_elem d k v : dict_get d k = Some v → (k, v) ∈ d.
Proof.
  induction d as [|[k0 v0] d IH]; simpl; [done|].
  case_decide as Hk.
  - intros [= ->]. subst k0. by left.
  - intros ?. right. by apply IH.
Qed.
End dict_facts.

Section row_facts.
Local Open Scope py_scope.
Implicit Types (fl : list entry) (row : Row).

Lemma foldM_nil {A B} (f : A → B → M A) a w : foldM f a [] w = Ok (a, w).
Proof. done. Qed.

Lemma foldM_cons_Ok {A B} (f : A → B → M A) a x xs w a' w' :
  foldM f a (x :: xs) w = Ok (a', w') ↔
  ∃ a1 w1, f a x w = Ok (a1, w1) ∧ foldM f a1 xs w1 = Ok (a', w').
Proof. simpl. apply bind_Ok. Qed.

Lemma foldM_total {A B} (f : A → B → M A) (xs : list B) a w :
  (∀ a x w, x ∈ xs → ∃ a' w', f a x w = Ok (a', w')) →
  ∃ a' w', foldM f a xs w = Ok (a', w').
Proof.
  revert a w. induction xs as [|x xs IH]; intros a w Hf; simpl.
  - unfold ret. eauto.
  - destruct (Hf a x w ltac:(left)) as (a1 & w1 & H1).
    rewrite (bind_run _ _ _ _ _ H1). apply IH.
    intros ??? Hin. apply Hf. by right.
Qed.

(** Each property assigns its own key; the file name, when it is drawn
    from the header list, is the file of one of its entries. *)
Lemma fill_property_Ok fl row i k pd w row' i' w' :
  fill_property fl (row, i) (k, pd) w = Ok ((row', i'), w') →
  ∃ v, row' = dict_set row k v ∧
    (k = "fasta_file_name" → fl ≠ [] → ∃ e, e ∈ fl ∧ v = VStr e.1).
Proof.
  unfold fill_property.
  destruct (decide (k = "fasta_file_name")) as [Hk|Hk].
  { destruct (fl !! (i `mod` length fl)) as [e|] eqn:He.
    - intros [[= <- <-] _]%ret_Ok. eexists. split; [done|].
      intros _ _. exists e. split; [|done]. by eapply list_elem_of_lookup_2.
    - intros (v & w1 & _ & [[= <- <-] _]%ret_Ok)%bind_Ok.
      eexists. split; [done|]. intros _ Hfl. exfalso.
      apply lookup_ge_None in He.
      assert (0 < length fl) by (destruct fl; [done|simpl; lia]).
      pose proof (Nat.mod_upper_bound i (length fl) ltac:(lia)) as Hlt.
      apply Nat.lt_nge in Hlt. by apply Hlt. }
  destruct (decide (k = "fasta_header_name")) as [Hh|Hh].
  { destruct (fl !! (i `mod` length fl)) as [e|] eqn:He.
    - intros [[= <- <-] _]%ret_Ok. eexists. split; [done|]. done.
    - intros (v & w1 & _ & [[= <- <-] _]%ret_Ok)%bind_Ok. eexists. split; done. }
  intros (v & w1 & _ & [[= <- <-] _]%ret_Ok)%bind_Ok. eexists. split; done.
Qed.

Lemma fill_property_total fl row i k pd w :
  details_ok pd → ∃ st w', fill_property fl (row, i) (k, pd) w = Ok (st, w').
Proof.
  intros Hok. unfold fill_property.
  assert (∀ (g : string → Row * nat) w, ∃ st w',
            (s <- generate_random_string 20 ;; ret (g s)) w = Ok (st, w')) as Hstr.
  { intros g w0. destruct (generate_random_string_total 20 w0) as (s & w1 & Hs).
    rewrite (bind_run _ _ _ _ _ Hs). unfold ret. eauto. }
  destruct (decide (k = "fasta_file_name")).
  { destruct (fl !! (i `mod` length fl)); [unfold ret; eauto|].
    apply (Hstr (λ s, (dict_set row k (VStr s), i))). }
  destruct (decide (k = "fasta_header_name")).
  { destruct (fl !! (i `mod` length fl)); [unfold ret; eauto|].
    apply (Hstr (λ s, (dict_set row k (VStr s), i))). }
  destruct (generate_dummy_value_total pd w Hok) as (v & w1 & Hv).
  rewrite (bind_run _ _ _ _ _ Hv). unfold ret. eauto.
Qed.

Lemma fill_properties_keys fl props row i w row' i' w' :
  foldM (fill_property fl) (row, i) props w = Ok ((row', i'), w') →
  (NoDup (row.*1) → NoDup (row'.*1)) ∧
  (∀ k, k ∈ row'.*1 ↔ k ∈ row.*1 ∨ k ∈ props.*1).
Proof.
  revert row i w. induction props as [|[k pd] props IH]; intros row i w.
  - intros [[= <- <-] _]%ret_Ok. split; [done|]. intros k. rewrite elem_of_nil. tauto.
  - intros ([row1 i1] & w1 & Hstep & Hrest)%foldM_cons_Ok.
    apply fill_property_Ok in Hstep as (v & -> & _).
    apply IH in Hrest as [Hnd Hkeys]. split.
    + intros Hrow. by apply Hnd, dict_set_NoDup.
    + intros k'. rewrite Hkeys, dict_set_keys, fmap_cons, elem_of_cons. simpl. tauto.
Qed.

(** A required field is left alone when it holds a truthy value and is
    assigned a freshly synthesized value otherwise. *)
Lemma fill_required_Ok props row req w row' w' :
  fill_required props row req w = Ok (row', w') →
  (row' = row ∧ ∃ v, dict_get row req = Some v ∧ truthy v = true) ∨
  (∃ v w0 w1,
     generate_dummy_value (default no_details (dict_get props req)) w0 = Ok (v, w1) ∧
     row' = dict_set row req v ∧
     ∀ v0, dict_get row req = Some v0 → truthy v0 = false).
Proof.
  unfold fill_required.
  assert (∀ w row' w',
    (v <- generate_dummy_value (default no_details (dict_get props req)) ;;
     ret (dict_set row req v)) w = Ok (row', w') →
    ∃ v w0 w1,
      generate_dummy_value (default no_details (dict_get props req)) w0 = Ok (v, w1) ∧
      row' = dict_set row req v) as Hrefill.
  { intros w0 r w0' (v & w1 & Hv & [<- _]%ret_Ok)%bind_Ok. eauto. }
  destruct (dict_get row req) as [v|] eqn:Hget.
  - destruct (truthy v) eqn:Hv.
    + intros [<- _]%ret_Ok. left. eauto.
    + intros (v1 & w0 & w1 & Hv1 & ->)%Hrefill. right.
      exists v1, w0, w1. split; [done|]. split; [done|]. by intros ? [= <-].
  - intros (v1 & w0 & w1 & Hv1 & ->)%Hrefill. right.
    exists v1, w0, w1. split; [done|]. split; done.
Qed.

Lemma fill_required_total props row req w :
  details_ok (default no_details (dict_get props req)) →
  ∃ row' w', fill_required props row req w = Ok (row', w').
Proof.
  intros Hok. unfold fill_required.
  destruct (generate_dummy_value_total _ w Hok) as (v & w1 & Hv).
  destruct (dict_get row req) as [v0|];
    [destruct (truthy v0); [unfold ret; eauto|]|];
    rewrite (bind_run _ _ _ _ _ Hv); unfold ret; eauto.
Qed.


Lemma fill_required_filled props row req w row' w' :
  fill_required props row req w = Ok (row', w') → required_filled props row' req.
Proof.
  intros [[-> (v & Hget & Hv)]|(v & w0 & w1 & Hv & -> & _)]%fill_required_Ok.
  - exists v. split; [done|]. intros _. by apply truthy_not_empty.
  - exists v. split; [apply dict_get_set_eq|].
    intros Henum. by eapply generate_dummy_value_not_empty.
Qed.

Lemma fill_required_preserves props row req req0 w row' w' :
  fill_required props row req w = Ok (row', w') →
  required_filled props row req0 → required_filled props row' req0.
Proof.
  intros Hstep Hfilled. destruct (decide (req = req0)) as [->|Hne].
  - by eapply fill_required_filled.
  - apply fill_required_Ok in Hstep as [[-> _]|(v & w0 & w1 & _ & -> & _)]; [done|].
    destruct Hfilled as (v0 & Hget & Hv0). exists v0.
    by rewrite dict_get_set_ne.
Qed.

Lemma fill_required_keys props row req w row' w' :
  fill_required props row req w = Ok (row', w') →
  (NoDup (row.*1) → NoDup (row'.*1)) ∧
  (∀ k, k ∈ row'.*1 ↔ k = req ∨ k ∈ row.*1).
Proof.
  intros [[-> (v & Hget & _)]|(v & w0 & w1 & _ & -> & _)]%fill_required_Ok.
  - split; [done|]. intros k. split; [by right|].
    intros [->|?]; [by eapply dict_get_Some_key|done].
  - split; [apply dict_set_NoDup|]. intros k. apply dict_set_keys.
Qed.

Lemma fill_all_required props reqs row w row' w' :
  foldM (fill_required props) row reqs w = Ok (row', w') →
  (NoDup (row.*1) → NoDup (row'.*1)) ∧
  (∀ k, k ∈ row'.*1 ↔ k ∈ row.*1 ∨ k ∈ reqs) ∧
  (∀ req, required_filled props row req ∨ req ∈ reqs → required_filled props row' req).
Proof.
  revert row w. induction reqs as [|r reqs IH]; intros row w.
  - intros [<- _]%ret_Ok. split; [done|]. split.
    + intros k. rewrite elem_of_nil. tauto.
    + intros req [?|[]%elem_of_nil]. done.
  - intros (row1 & w1 & Hstep & Hrest)%foldM_cons_Ok.
    pose proof (fill_required_keys _ _ _ _ _ _ Hstep) as [Hnd1 Hkeys1].
    apply IH in Hrest as (Hnd & Hkeys & Hfilled). split; [auto|]. split.
    + intros k. rewrite Hkeys, Hkeys1, elem_of_cons. tauto.
    + intros req [Hreq|Hreq].
      * apply Hfilled. left. by eapply fill_required_preserves.
      * apply elem_of_cons in Hreq as [->|Hreq]; apply Hfilled; [left|by right].
        by eapply fill_required_filled.
Qed.


Lemma fill_properties_file_name fl props row i w row' i' w' :
  fl ≠ [] →
  foldM (fill_property fl) (row, i) props w = Ok ((row', i'), w') →
  file_name_from fl row → file_name_from fl row'.
Proof.
  intros Hfl. revert row i w. induction props as [|[k pd] props IH]; intros row i w.
  - by intros [[= <- <-] _]%ret_Ok.
  - intros ([row1 i1] & w1 & Hstep & Hrest)%foldM_cons_Ok Hrow.
    apply fill_property_Ok in Hstep as (v & -> & Hv).
    eapply IH; [done|]. intros v'.
    destruct (decide (k = "fasta_file_name")) as [->|Hk].
    + rewrite dict_get_set_eq. intros [= <-]. by apply Hv.
    + rewrite dict_get_set_ne by done. apply Hrow.
Qed.

Lemma fill_all_required_file_name fl props reqs row w row' w' :
  (∀ e, e ∈ fl → e.1 ≠ "") →
  foldM (fill_required props) row reqs w = Ok (row', w') →
  "fasta_file_name" ∈ row.*1 → file_name_from fl row →
  "fasta_file_name" ∈ row'.*1 ∧ file_name_from fl row'.
Proof.
  intros Hnames. revert row w. induction reqs as [|r reqs IH]; intros row w.
  - by intros [<- _]%ret_Ok.
  - intros (row1 & w1 & Hstep & Hrest)%foldM_cons_Ok Hin Hrow.
    apply fill_required_Ok in Hstep
      as [[-> _]|(v & w0 & w0' & _ & -> & Hfalsy)]; [by eapply IH|].
    eapply IH; [done| |].
    + apply dict_set_keys. by right.
    + intros v'. destruct (decide (r = "fasta_file_name")) as [->|Hr].
      * exfalso. destruct (dict_get row "fasta_file_name") as [v0|] eqn:Hget.
        -- destruct (Hrow v0 Hget) as (e & He & ->).
           specialize (Hfalsy _ eq_refl). simpl in Hfalsy.
           apply negb_false_iff, bool_decide_eq_true in Hfalsy. by eapply Hnames.
        -- by apply dict_get_None_key in Hget.
      * rewrite dict_get_set_ne by done. apply Hrow.
Qed.
End row_facts.

Section data_facts.
Local Open Scope py_scope.
Implicit Types (fl : list entry) (row : Row).

Lemma value_of_Ok {A} (r : result (A * runtime)) a :
  value_of r = Ok a ↔ ∃ w', r = Ok (a, w').
Proof.
  destruct r as [[a0 w0]|e]; simpl; split.
  - intros [= ->]. eauto.
  - by intros (? & [= -> _]).
  - done.
  - by intros (? & ?).
Qed.


Lemma generate_row_Ok s fl i w row i' w' :
  generate_row s fl i w = Ok ((row, i'), w') → row_ok s row.
Proof.
  unfold generate_row.
  intros ([row1 i1] & w1 & Hprops & (row2 & w2 & Hreqs & [[= <- _] _]%ret_Ok)%bind_Ok)%bind_Ok.
  apply fill_properties_keys in Hprops as [Hnd1 Hkeys1].
  apply fill_all_required in Hreqs as (Hnd2 & Hkeys2 & Hfilled).
  split; [|split].
  - apply Hnd2, Hnd1. constructor.
  - intros k. rewrite Hkeys2. simpl. rewrite Hkeys1, elem_of_nil. tauto.
  - intros req Hreq. apply Hfilled. by right.
Qed.

Lemma generate_row_file_name s fl i w row i' w' :
  fl ≠ [] → (∀ e, e ∈ fl → e.1 ≠ "") →
  "fasta_file_name" ∈ (properties s).*1 →
  generate_row s fl i w = Ok ((row, i'), w') →
  ∃ e, e ∈ fl ∧ dict_get row "fasta_file_name" = Some (VStr e.1).
Proof.
  intros Hfl Hnames Hdecl. unfold generate_row.
  intros ([row1 i1] & w1 & Hprops & (row2 & w2 & Hreqs & [[= <- _] _]%ret_Ok)%bind_Ok)%bind_Ok.
  simpl in Hreqs.
  pose proof (fill_properties_file_name _ _ _ _ _ _ _ _ Hfl Hprops) as Hfrom.
  apply fill_properties_keys in Hprops as [_ Hkeys1].
  eapply fill_all_required_file_name in Hreqs as [Hin Hrow]; [|done| |].
  - destruct (dict_get row2 "fasta_file_name") as [v|] eqn:Hget.
    + destruct (Hrow v Hget) as (e & He & ->). eauto.
    + by apply dict_get_None_key in Hget.
  - apply Hkeys1. by right.
  - apply Hfrom. by intros v.
Qed.

Lemma generate_row_total s fl i w :
  schema_ok s → ∃ st w', generate_row s fl i w = Ok (st, w').
Proof.
  intros Hok. unfold generate_row.
  destruct (foldM_total (fill_property fl) (properties s) ([], i) w)
    as ([row1 i1] & w1 & Hprops).
  { intros [row0 i0] [k pd] w0 Hin. apply fill_property_total.
    unfold schema_ok in Hok. rewrite Forall_forall in Hok. by apply (Hok (k, pd)). }
  rewrite (bind_run _ _ _ _ _ Hprops).
  destruct (foldM_total (fill_required (properties s)) (required s) row1 w1)
    as (row2 & w2 & Hreqs).
  { intros row0 req w0 _. apply fill_required_total.
    destruct (dict_get (properties s) req) as [pd|] eqn:Hget; [|apply no_details_ok].
    simpl. unfold schema_ok in Hok. rewrite Forall_forall in Hok.
    apply (Hok (req, pd)). by apply dict_get_Some_elem. }
  simpl. rewrite (bind_run _ _ _ _ _ Hreqs). unfold ret. eauto.
Qed.

Lemma generate_rows_Ok s fl n i w rows w' (P : Row → Prop) :
  (∀ i w row i' w', generate_row s fl i w = Ok ((row, i'), w') → P row) →
  generate_rows s fl n i w = Ok (rows, w') →
  length rows = n ∧ Forall P rows.
Proof.
  intros HP. revert i w rows w'. induction n as [|n IH]; intros i w rows w'; simpl.
  - by intros [<- _]%ret_Ok.
  - intros ([row i1] & w1 & Hrow & (data & w2 & Hdata & [<- _]%ret_Ok)%bind_Ok)%bind_Ok.
    apply IH in Hdata as [<- Hall]. split; [done|]. constructor; [|done].
    by eapply HP.
Qed.

Lemma generate_rows_total s fl n i w :
  schema_ok s → ∃ rows w', generate_rows s fl n i w = Ok (rows, w').
Proof.
  intros Hok. revert i w. induction n as [|n IH]; intros i w; simpl.
  - unfold ret. eauto.
  - destruct (generate_row_total s fl i w Hok) as ([row i1] & w1 & Hrow).
    rewrite (bind_run _ _ _ _ _ Hrow).
    destruct (IH i1 w1) as (data & w2 & Hdata).
    rewrite (bind_run _ _ _ _ _ Hdata). unfold ret. eauto.
Qed.
End data_facts.

Section claims_generate.
Import Examples.

(** C10. The interleaved list is a permutation of the header list it was
    built from: the list the cursor runs over (interleaved when spreading
    is enabled and the list is not empty, unchanged otherwise) has the same
    length and holds every (file, header) pair with the same multiplicity,
    so spreading only reorders the entries. *)
Theorem C10_interleave_permutation (fasta_list : list entry) (spread_evenly : bool) :
  interleave fasta_list ≡ₚ fasta_list ∧
  (if spread_evenly && bool_decide (fasta_list ≠ [])
   then interleave fasta_list else fasta_list) ≡ₚ fasta_list ∧
  length (interleave fasta_list) = length fasta_list ∧
  (∀ e : entry,
     length (filter (λ e', e' = e) (interleave fasta_list))
       = length (filter (λ e', e' = e) fasta_list)) ∧
  (∀ e : entry, e ∈ interleave fasta_list ↔ e ∈ fasta_list).
Proof.
  pose proof (interleave_Permutation fasta_list) as Hperm.
  split; [exact Hperm|]. split.
  - destruct (spread_evenly && bool_decide (fasta_list ≠ [])); [exact Hperm|done].
  - split; [by rewrite Hperm|]. split.
    + intros e. by rewrite Hperm.
    + intros e. by rewrite Hperm.
Qed.

(** C7 (amended). For an array-typed descriptor without an enum of its
    own: when the item descriptor declares a non-empty enum, the
    synthesizer returns a list of between 1 and min(3, enum size) values
    taken at pairwise distinct positions of that enum, so each is a member
    and they are pairwise distinct when the enum has no repeated member;
    when the item descriptor declares no enum, it returns a list of 1 to 3
    random strings of 20 characters. *)
Theorem C7_array_values (pd : prop_details) (w : runtime) :
  p_type pd = Some "array" → p_enum pd = None →
  match p_enum (default no_details (p_items pd)) with
  | Some enum =>
      enum ≠ [] →
      ∃ vs, value_of (generate_dummy_value pd w) = Ok (VList vs) ∧
        1 ≤ length vs ≤ min 3 (length enum) ∧
        Forall (λ v, v ∈ enum) vs ∧
        (∃ positions, NoDup positions ∧
           Forall2 (λ i v, enum !! i = Some v) positions vs) ∧
        (NoDup enum → NoDup vs)
  | None =>
      ∃ strs, value_of (generate_dummy_value pd w) = Ok (VList (VStr <$> strs)) ∧
        1 ≤ length strs ≤ 3 ∧
        Forall (λ s, String.length s = 20) strs
  end.
Proof.
  intros Ht He. destruct (p_enum (default no_details (p_items pd))) as [enum|] eqn:Hi.
  - intros Hne.
    destruct (array_enum_total pd enum w Ht He Hi Hne) as (v & w' & Hrun).
    destruct (array_enum_Ok pd enum w v w' Ht He Hi Hrun)
      as (vs & -> & Hlen & positions & Hnd & Hpos).
    exists vs. rewrite Hrun. split; [done|]. split; [done|].
    split; [by eapply positions_members|]. split; [eauto|].
    intros Henum. by eapply positions_NoDup.
  - destruct (array_strings_total pd w Ht He Hi) as (v & w' & Hrun).
    destruct (array_strings_Ok pd w v w' Ht He Hi Hrun) as (strs & -> & Hlen & Hall).
    exists strs. by rewrite Hrun.
Qed.

Lemma C7_witness :
  ∃ vs,
    value_of (generate_dummy_value
                (array_of (enum_of "string" [VStr "x"; VStr "y"; VStr "z"])) w0)
      = Ok (VList vs) ∧
    1 ≤ length vs ≤ 3 ∧
    Forall (λ v, v ∈ [VStr "x"; VStr "y"; VStr "z"]) vs ∧
    (∃ positions, NoDup positions ∧
       Forall2 (λ i v, [VStr "x"; VStr "y"; VStr "z"] !! i = Some v) positions vs) ∧
    (NoDup [VStr "x"; VStr "y"; VStr "z"] → NoDup vs).
Proof.
  apply (C7_array_values
           (array_of (enum_of "string" [VStr "x"; VStr "y"; VStr "z"])) w0);
    [reflexivity | reflexivity | discriminate].
Defined.

(** C7 as stated fails in three ways: an array-typed descriptor with an
    enum of its own yields a single member, not a list; an empty item enum
    raises [ValueError]; an item enum with a repeated member can yield the
    same value twice. *)
Lemma C7_counterexample :
  value_of (generate_dummy_value (enum_of "array" [VStr "x"]) w0) = Ok (VStr "x") ∧
  value_of (generate_dummy_value (array_of (enum_of "string" [])) w0)
    = Raise ValueError ∧
  value_of (generate_dummy_value
              (array_of (enum_of "string" [VStr "a"; VStr "a"]))
              (Runtime tape 1 20395))
    = Ok (VList [VStr "a"; VStr "a"]) ∧
  ¬ NoDup [VStr "a"; VStr "a"].
Proof.
  split; [vm_compute; reflexivity|]. split; [vm_compute; reflexivity|].
  split; [vm_compute; reflexivity|].
  intros [Hin _]%NoDup_cons. apply Hin. by left.
Qed.




(** C2 (amended). Whenever [generate_dummy_data] returns, it returns N
    rows; the keys of each row are pairwise distinct and are exactly the
    schema's declared properties together with the names of the required
    list (a required name that is not declared becomes an extra key); each
    required field is present, and its value is not empty (not [None], the
    empty string or the empty list) provided the enum of its descriptor,
    if it has one, has no empty member.  It does return when no
    declared descriptor has an empty enum, an empty item enum, an
    integer range that is empty or not integral, or a number range with
    an integer bound too large for a float. *)
Theorem C2_rows_keys_and_required (s : schema) (N : Z)
    (fasta_list : list entry) (spread_evenly : bool) (w : runtime) :
  (schema_ok s →
   ∃ rows, value_of (generate_dummy_data s N fasta_list spread_evenly w) = Ok rows) ∧
  (∀ rows,
     value_of (generate_dummy_data s N fasta_list spread_evenly w) = Ok rows →
     length rows = Z.to_nat N ∧ Forall (row_ok s) rows).
Proof.
  unfold generate_dummy_data. split.
  - intros Hok.
    edestruct (generate_rows_total s) as (rows & w' & Hrows); [exact Hok|].
    exists rows. by rewrite Hrows.
  - intros rows [w' Hrows]%value_of_Ok.
    eapply generate_rows_Ok; [|exact Hrows].
    intros i w1 row i' w1'. apply generate_row_Ok.
Qed.

Lemma C2_witness :
  ∃ rows,
    value_of (generate_dummy_data sample_schema 2 [] false w0) = Ok rows ∧
    length rows = 2 ∧ Forall (row_ok sample_schema) rows.
Proof.
  destruct (C2_rows_keys_and_required sample_schema 2 [] false w0) as [Hret Hrows].
  destruct Hret as [rows Hrun].
  - unfold schema_ok, sample_schema. cbn [properties].
    repeat (apply Forall_cons_2; [by repeat constructor|]). apply Forall_nil_2.
  - exists rows. split; [exact Hrun|]. by apply Hrows.
Defined.

(** C2 as stated fails: a required name that is not a declared property
    becomes an extra key of the row, and a required field whose enum holds
    the empty string stays empty after the refill. *)
Lemma C2_counterexample :
  value_of (generate_dummy_data undeclared_required 1 [] true w0)
    = Ok [[("sample_id", VStr "Ts0z8HgOnWv4CbKjRqZy");
           ("collector", VStr "7FeNmVt2BaIhQpYw5EdM")]] ∧
  ("collector" ∉ (properties undeclared_required).*1) ∧
  value_of (generate_dummy_data empty_enum_member 1 [] true w0)
    = Ok [[("note", VStr "")]] ∧
  "note" ∈ required empty_enum_member.
Proof.
  split; [vm_compute; reflexivity|]. split; [|split; [vm_compute; reflexivity|]].
  - simpl. rewrite list_elem_of_singleton. discriminate.
  - simpl. apply list_elem_of_singleton. reflexivity.
Qed.

(** C3 (the code departs from the claim). With [fasta_header_name]
    declared before [fasta_file_name], the cursor is advanced between the
    two fields of the same row: the row takes the header of the first
    entry and the file of the second, a pair that is no entry of the
    header list. *)
Theorem C3_header_first_mixes_entries (w : runtime) :
  value_of (generate_dummy_data header_first 1 two_entries true w)
    = Ok [[("fasta_header_name", VStr "h1"); ("fasta_file_name", VStr "b.fasta")]] ∧
  ("b.fasta", "h1") ∉ two_entries.
Proof.
  split; [vm_compute; reflexivity|].
  unfold two_entries. rewrite !not_elem_of_cons. repeat split; try discriminate.
  apply not_elem_of_nil.
Qed.
End claims_generate.

Section fasta_facts.
Local Open Scope py_scope.

Lemma foldM_app_Ok {A B} (f : A → B → M A) a xs ys w a' w' :
  foldM f a (xs ++ ys) w = Ok (a', w') ↔
  ∃ a1 w1, foldM f a xs w = Ok (a1, w1) ∧ foldM f a1 ys w1 = Ok (a', w').
Proof.
  revert a w. induction xs as [|x xs IH]; intros a w.
  - simpl. split.
    + intros H. exists a, w. by split.
    + by intros (? & ? & [= <- <-] & ?).
  - rewrite <- app_comm_cons, foldM_cons_Ok. split.
    + intros (a1 & w1 & Hx & (a2 & w2 & H1 & H2)%IH).
      exists a2, w2. split; [|done]. apply foldM_cons_Ok. eauto.
    + intros (a2 & w2 & (a1 & w1 & Hx & H1)%foldM_cons_Ok & H2).
      exists a1, w1. split; [done|]. apply IH. eauto.
Qed.


Lemma randomize_line_Ok line w modified w' :
  randomize_line line w = Ok (modified, w') → randomized_line line modified.
Proof.
  unfold randomize_line, randomized_line. destruct (startswith_gt line).
  - intros (s & w1 & Hs%generate_random_string_Ok & [<- _]%ret_Ok)%bind_Ok. eauto.
  - by intros [<- _]%ret_Ok.
Qed.

Lemma mapM_Ok {A B} (f : A → M B) (R : A → B → Prop) xs w ys w' :
  (∀ x w y w', f x w = Ok (y, w') → R x y) →
  mapM f xs w = Ok (ys, w') → Forall2 R xs ys.
Proof.
  intros Hf. revert w ys w'. induction xs as [|x xs IH]; intros w ys w'; simpl.
  - intros [<- _]%ret_Ok. constructor.
  - intros (y & w1 & Hy & (ys' & w2 & Hys & [<- _]%ret_Ok)%bind_Ok)%bind_Ok.
    constructor; eauto.
Qed.

Lemma mapM_total {A B} (f : A → M B) xs w :
  (∀ x w, ∃ y w', f x w = Ok (y, w')) → ∃ ys w', mapM f xs w = Ok (ys, w').
Proof.
  intros Hf. revert w. induction xs as [|x xs IH]; intros w; simpl.
  - unfold ret. eauto.
  - destruct (Hf x w) as (y & w1 & Hy). rewrite (bind_run _ _ _ _ _ Hy).
    destruct (IH w1) as (ys & w2 & Hys). rewrite (bind_run _ _ _ _ _ Hys).
    unfold ret. eauto.
Qed.

Lemma string_app_length (s t : string) :
  String.length (s +:+ t) = String.length s + String.length t.
Proof. induction s as [|c s IH]; simpl; [done|by rewrite IH]. Qed.

Lemma generate_random_filename_Ok w name w' :
  generate_random_filename w = Ok (name, w') → String.length name = 18.
Proof.
  unfold generate_random_filename.
  intros (s & w1 & Hs%generate_random_string_Ok & [<- _]%ret_Ok)%bind_Ok.
  rewrite string_app_length, Hs. done.
Qed.

Lemma process_fasta_file_Ok temp_dir file_mapping f w temp_dir' file_mapping' w' :
  process_fasta_file (temp_dir, file_mapping) f w = Ok ((temp_dir', file_mapping'), w') →
  ∃ new_name, String.length new_name = 18 ∧
    file_mapping' = file_mapping ++ [(sf_name f, new_name)] ∧
    match sf_lines f with
    | Some lines =>
        ∃ modified, Forall2 randomized_line lines modified ∧
          temp_dir' = <[new_name := modified]> temp_dir
    | None => temp_dir' = temp_dir
    end.
Proof.
  unfold process_fasta_file.
  intros (new_name & w1 & Hname%generate_random_filename_Ok & Hrest)%bind_Ok.
  exists new_name. split; [done|].
  destruct (sf_lines f) as [lines|].
  - apply bind_Ok in Hrest as (modified & w2 & Hmod & [[= <- <-] _]%ret_Ok).
    split; [done|]. exists modified. split; [|done].
    eapply mapM_Ok; [|exact Hmod]. intros ????. apply randomize_line_Ok.
  - by apply ret_Ok in Hrest as [[= <- <-] _].
Qed.

(** After all files are processed: every recorded name has 18 characters,
    every file of the scratch directory is recorded, and, when the random
    names are pairwise distinct, every readable source file has its
    randomized copy in the scratch directory under its recorded name. *)
Lemma process_all_Ok files w temp_dir file_mapping w' :
  foldM process_fasta_file (∅, []) files w = Ok ((temp_dir, file_mapping), w') →
  Forall (λ m, String.length m.2 = 18) file_mapping ∧
  (NoDup (file_mapping.*2) →
   ∀ f lines, f ∈ files → sf_lines f = Some lines →
     ∃ new_name modified,
       (sf_name f, new_name) ∈ file_mapping ∧
       temp_dir !! new_name = Some modified ∧
       Forall2 randomized_line lines modified).
Proof.
  revert w temp_dir file_mapping w'.
  induction files as [|f files IH] using rev_ind; intros w td fm w'.
  - intros [[= <- <-] _]%ret_Ok. split; [constructor|].
    intros _ f lines Hf. by apply elem_of_nil in Hf.
  - intros ([td1 fm1] & w1 & Hfiles & Hlast)%foldM_app_Ok.
    apply foldM_cons_Ok in Hlast as ([td2 fm2] & w2 & Hstep & [[= -> ->] _]%ret_Ok).
    apply process_fasta_file_Ok in Hstep as (new_name & Hlen & -> & Htd).
    apply IH in Hfiles as [Hnames Hcopies]. split.
    { apply Forall_app. split; [done|]. by constructor. }
    rewrite fmap_app. simpl. intros Hnd f0 lines Hf0 Hlines.
    apply NoDup_app in Hnd as (Hnd1 & Hfresh & _).
    apply elem_of_app in Hf0 as [Hf0|Hf0];
      [|apply list_elem_of_singleton in Hf0; subst f0].
    + destruct (Hcopies Hnd1 f0 lines Hf0 Hlines) as (new0 & modified & Hin & Hget & Hrel).
      exists new0, modified. split; [apply elem_of_app; by left|]. split; [|done].
      assert (new0 ≠ new_name) as Hne.
      { intros ->. eapply Hfresh; [|by left].
        apply list_elem_of_fmap. by exists (sf_name f0, new_name). }
      destruct (sf_lines f) as [lines'|].
      * destruct Htd as (modified' & _ & ->). by rewrite lookup_insert_ne.
      * by subst td.
    + rewrite Hlines in Htd. destruct Htd as (modified & Hrel & ->).
      exists new_name, modified. split; [apply elem_of_app; right; by left|].
      split; [apply lookup_insert_eq|done].
Qed.

Lemma create_randomized_fasta_files_Ok files w temp_dir file_mapping w' :
  create_randomized_fasta_files files w = Ok ((Some temp_dir, file_mapping), w') →
  foldM process_fasta_file (∅, []) (merge_sort sf_le files) w
    = Ok ((temp_dir, file_mapping), w').
Proof.
  unfold create_randomized_fasta_files.
  destruct (merge_sort sf_le files) as [|f0 fs]; [by intros [[=] _]%ret_Ok|].
  intros ([td fm] & w1 & Hfold & [[= <- <-] <-]%ret_Ok)%bind_Ok. done.
Qed.

Lemma extract_headers_intro temp_dir file_mapping original new_name lines line :
  (original, new_name) ∈ file_mapping →
  temp_dir !! new_name = Some lines →
  line ∈ lines → startswith_gt (strip line) = true →
  (new_name, drop_first (strip line))
    ∈ extract_headers_from_temp_dir temp_dir file_mapping.
Proof.
  intros Hin Hget Hline Hgt. unfold extract_headers_from_temp_dir.
  apply list_elem_of_bind. exists (original, new_name). split; [|done].
  simpl. rewrite Hget. unfold headers_of_lines.
  apply list_elem_of_bind. exists line. split; [|done].
  simpl. rewrite Hgt. by left.
Qed.

Lemma extract_headers_elim temp_dir file_mapping e :
  e ∈ extract_headers_from_temp_dir temp_dir file_mapping →
  (∃ original, (original, e.1) ∈ file_mapping) ∧ is_Some (temp_dir !! e.1).
Proof.
  unfold extract_headers_from_temp_dir.
  intros ([original new_name] & He & Hin)%list_elem_of_bind. simpl in He.
  destruct (temp_dir !! new_name) as [lines|] eqn:Hget; [|by apply elem_of_nil in He].
  unfold headers_of_lines in He.
  apply list_elem_of_bind in He as (line & He & _). simpl in He.
  destruct (startswith_gt (strip line)); [|by apply elem_of_nil in He].
  apply list_elem_of_singleton in He as ->. simpl. split; [eauto|]. by rewrite Hget.
Qed.


Lemma lstrip_unfold s :
  lstrip s = match skip_space s with Some rest => lstrip rest | None => s end.
Proof.
  destruct s as [|c1 [|c2 [|c3 s3]]]; simpl; try done.
  - by destruct (isspace c1).
  - destruct (isspace c1); [done|]. by destruct (isspace2 c1 c2).
  - destruct (isspace c1); [done|]. destruct (isspace2 c1 c2); [done|].
    by destruct (isspace3 c1 c2 c3).
Qed.

Lemma skip_space_length s rest :
  skip_space s = Some rest → String.length rest < String.length s.
Proof.
  destruct s as [|c1 [|c2 [|c3 s3]]]; simpl; try done.
  - destruct (isspace c1); [|done]. intros [= <-]. simpl. lia.
  - destruct (isspace c1); [intros [= <-]; simpl; lia|].
    destruct (isspace2 c1 c2); [|done]. intros [= <-]. simpl. lia.
  - destruct (isspace c1); [intros [= <-]; simpl; lia|].
    destruct (isspace2 c1 c2); [intros [= <-]; simpl; lia|].
    destruct (isspace3 c1 c2 c3); [|done]. intros [= <-]. simpl. lia.
Qed.

Lemma skip_space_app s rest t :
  skip_space s = Some rest → skip_space (s +:+ t) = Some (rest +:+ t).
Proof.
  destruct s as [|c1 [|c2 [|c3 s3]]]; simpl; try done.
  - destruct (isspace c1); [|done]. by intros [= <-].
  - destruct (isspace c1); [by intros [= <-]|].
    destruct (isspace2 c1 c2); [|done]. by intros [= <-].
  - destruct (isspace c1); [by intros [= <-]|].
    destruct (isspace2 c1 c2); [by intros [= <-]|].
    destruct (isspace3 c1 c2 c3); [|done]. by intros [= <-].
Qed.

Lemma plain_skip c s : plain c = true → skip_space (String c s) = None.
Proof.
  unfold plain. intros [Hc Hlead]%andb_true_iff.
  apply negb_true_iff in Hc. apply bool_decide_eq_true in Hlead.
  rewrite !not_elem_of_cons in Hlead. destruct Hlead as (H1 & H2 & H3 & H4 & _).
  simpl. rewrite Hc. destruct s as [|c2 [|c3 s3]]; [done| |].
  - unfold isspace2. by rewrite (bool_decide_eq_false_2 _ H1).
  - unfold isspace2, isspace3. rewrite (bool_decide_eq_false_2 _ H1). cbn [andb].
    rewrite !bool_decide_eq_false_2; [done|tauto..].
Qed.

Lemma skip_space_not_plain c s rest :
  skip_space (String c s) = Some rest → plain c = false.
Proof.
  intros Hskip. destruct (plain c) eqn:Hc; [|done].
  by rewrite plain_skip in Hskip.
Qed.

Lemma lstrip_plain c s : plain c = true → lstrip (String c s) = String c s.
Proof. intros Hc. by rewrite lstrip_unfold, plain_skip. Qed.

Lemma all_space_plain c s : plain c = true → all_space (String c s) = false.
Proof.
  intros Hc. unfold all_space. by rewrite lstrip_plain, bool_decide_eq_false_2.
Qed.

Lemma rstrip_cons_plain c s :
  plain c = true → rstrip (String c s) = String c (rstrip s).
Proof. intros Hc. cbn [rstrip]. by rewrite all_space_plain. Qed.

Lemma all_space_skip s :
  s ≠ "" → all_space s = true →
  ∃ rest, skip_space s = Some rest ∧ all_space rest = true.
Proof.
  unfold all_space. intros Hne H%bool_decide_eq_true. rewrite lstrip_unfold in H.
  destruct (skip_space s) as [rest|]; [|done].
  exists rest. split; [done|]. by apply bool_decide_eq_true.
Qed.

Lemma startswith_gt_indented indent s :
  indent ≠ "" → all_space indent = true → startswith_gt (indent +:+ s) = false.
Proof.
  intros Hne Hall. destruct (all_space_skip _ Hne Hall) as (rest & Hskip & _).
  destruct indent as [|c indent]; [done|]. simpl.
  apply bool_decide_eq_false. intros ->.
  by apply skip_space_not_plain in Hskip.
Qed.

Lemma lstrip_indented indent s :
  all_space indent = true → lstrip (indent +:+ s) = lstrip s.
Proof.
  remember (String.length indent) as n eqn:Hn. revert indent Hn.
  induction (lt_wf n) as [n _ IH]. intros indent -> Hall.
  destruct (decide (indent = "")) as [->|Hne]; [done|].
  destruct (all_space_skip _ Hne Hall) as (rest & Hskip & Hrest).
  rewrite (lstrip_unfold (indent +:+ s)), (skip_space_app _ _ _ Hskip).
  eapply IH; [|done|done]. by apply skip_space_length.
Qed.

Lemma strip_indented_header indent rest :
  all_space indent = true →
  strip (indent +:+ ">" +:+ rest) = String ">"%char (rstrip rest).
Proof.
  intros Hindent. unfold strip. rewrite lstrip_indented by done.
  change (">" +:+ rest) with (String ">"%char rest).
  rewrite lstrip_plain by done. by apply rstrip_cons_plain.
Qed.

Lemma randomized_keeps lines modified line :
  Forall2 randomized_line lines modified →
  line ∈ lines → startswith_gt line = false → line ∈ modified.
Proof.
  intros Hrel Hin Hgt. induction Hrel as [|l m ls ms Hlm _ IH]; [done|].
  apply elem_of_cons in Hin as [<-|Hin].
  - unfold randomized_line in Hlm. rewrite Hgt in Hlm. subst m. by left.
  - right. by apply IH.
Qed.

Lemma randomize_lines_total lines w :
  ∃ modified w', mapM randomize_line lines w = Ok (modified, w').
Proof.
  apply mapM_total. intros line w0. unfold randomize_line.
  destruct (startswith_gt line); [|unfold ret; eauto].
  destruct (generate_random_string_total 20 w0) as (s & w1 & Hs).
  rewrite (bind_run _ _ _ _ _ Hs). unfold ret. eauto.
Qed.

Lemma headers_of_lines_intro new_name lines line :
  line ∈ lines → startswith_gt (strip line) = true →
  (new_name, drop_first (strip line)) ∈ headers_of_lines new_name lines.
Proof.
  intros Hline Hgt. unfold headers_of_lines.
  apply list_elem_of_bind. exists line. split; [|done].
  simpl. rewrite Hgt. by left.
Qed.
End fasta_facts.



Section claims_fasta.
Import Examples.

(** C9 (amended). A source line with whitespace (any Unicode whitespace
    that [str.strip] removes) before the record marker is copied to the
    randomized file as it is (the randomizer looks at the first
    character only), and the extractor, which strips the line first,
    emits it from the lines of that copy as a header entry whose text is
    the original header text without its trailing whitespace: not every
    extracted header is a freshly generated random string.  For the
    whole run this holds of every readable source file when the random
    file names are pairwise distinct; two files given the same random
    name share one copy, the later one's, and the line of the earlier
    file is then not extracted. *)
Theorem C9_indented_header_survives (indent rest : string) :
  indent ≠ "" → all_space indent = true →
  (∀ (lines : list string) (w : runtime) (new_name : string),
     indent +:+ ">" +:+ rest ∈ lines →
     ∃ modified_lines,
       value_of (mapM randomize_line lines w) = Ok modified_lines ∧
       indent +:+ ">" +:+ rest ∈ modified_lines ∧
       (new_name, rstrip rest) ∈ headers_of_lines new_name modified_lines) ∧
  (∀ (fasta_files : list source_file) (w : runtime)
     (temp_dir : gmap string (list string))
     (file_mapping : list (string * string))
     (f : source_file) (lines : list string),
     value_of (create_randomized_fasta_files fasta_files w)
       = Ok (Some temp_dir, file_mapping) →
     NoDup (file_mapping.*2) →
     f ∈ fasta_files → sf_lines f = Some lines →
     indent +:+ ">" +:+ rest ∈ lines →
     ∃ new_name modified_lines,
       (sf_name f, new_name) ∈ file_mapping ∧
       temp_dir !! new_name = Some modified_lines ∧
       indent +:+ ">" +:+ rest ∈ modified_lines ∧
       (new_name, rstrip rest)
         ∈ extract_headers_from_temp_dir temp_dir file_mapping).
Proof.
  intros Hne Hspace.
  pose proof (startswith_gt_indented indent (">" +:+ rest) Hne Hspace) as Hkeep.
  pose proof (strip_indented_header indent rest Hspace) as Hstrip.
  split.
  - intros lines w new_name Hline.
    destruct (randomize_lines_total lines w) as (modified & w' & Hrun).
    exists modified. rewrite Hrun. split; [done|].
    assert (indent +:+ ">" +:+ rest ∈ modified) as Hkept.
    { eapply randomized_keeps; [|done..].
      eapply mapM_Ok; [|exact Hrun]. intros ????. apply randomize_line_Ok. }
    split; [done|].
    pose proof (headers_of_lines_intro new_name _ _ Hkept) as Hex.
    rewrite Hstrip in Hex. by apply Hex.
  - intros fasta_files w temp_dir file_mapping f lines
      [w' Hrun]%value_of_Ok Hnd Hf Hlines Hline.
    apply create_randomized_fasta_files_Ok, process_all_Ok in Hrun as [_ Hcopies].
    destruct (Hcopies Hnd f lines) as (new_name & modified & Hin & Hget & Hrel);
      [by rewrite merge_sort_Permutation|done|].
    exists new_name, modified. split; [done|]. split; [done|].
    assert (indent +:+ ">" +:+ rest ∈ modified) as Hkept
      by (by eapply randomized_keeps).
    split; [done|].
    pose proof (extract_headers_intro temp_dir file_mapping _ _ _ _ Hin Hget Hkept)
      as Hex.
    rewrite Hstrip in Hex. by apply Hex.
Qed.

Lemma C9_witness :
  ∃ new_name modified_lines,
    ("virus.fasta", new_name) ∈ indented_mapping ∧
    indented_temp_dir !! new_name = Some modified_lines ∧
    "  " +:+ ">" +:+ ("seq2 sample" +:+ newline) ∈ modified_lines ∧
    (new_name, rstrip ("seq2 sample" +:+ newline))
      ∈ extract_headers_from_temp_dir indented_temp_dir indented_mapping.
Proof.
  apply (proj2 (C9_indented_header_survives "  " ("seq2 sample" +:+ newline)
                  ltac:(discriminate) eq_refl)
           indented_source w0 indented_temp_dir indented_mapping
           indented_file indented_lines).
  - vm_compute. reflexivity.
  - vm_compute. apply NoDup_singleton.
  - left.
  - reflexivity.
  - right. right. left.
Defined.

(** C9 as stated fails for a source file whose randomized copy is
    overwritten: when the generator gives the two source files the same
    random name, the scratch file holds the lines of the second, and the
    indented header line of the first is extracted from nowhere. *)
Lemma C9_counterexample :
  value_of (create_randomized_fasta_files overwriting_source w_same)
    = Ok (Some overwritten_temp_dir, overwritten_mapping) ∧
  indented_file ∈ overwriting_source ∧
  sf_lines indented_file = Some indented_lines ∧
  "  " +:+ ">" +:+ ("seq2 sample" +:+ newline) ∈ indented_lines ∧
  overwritten_mapping
    = [("virus.fasta", "aaaaaaaaaaaa.fasta"); ("z.fasta", "aaaaaaaaaaaa.fasta")] ∧
  overwritten_temp_dir !! "aaaaaaaaaaaa.fasta" = Some ["TTAA" +:+ newline] ∧
  extract_headers_from_temp_dir overwritten_temp_dir overwritten_mapping = [].
Proof.
  split; [vm_compute; reflexivity|].
  split; [left|].
  split; [reflexivity|].
  split; [right; right; left|].
  split; [vm_compute; reflexivity|].
  split; vm_compute; reflexivity.
Qed.

End claims_fasta.

Section cursor_facts.
Local Open Scope py_scope.
Implicit Types (fl : list entry) (row : Row).

(** Properties other than the two header fields leave the cursor and the
    two header fields alone. *)
Lemma fill_plain_properties fl props row i w row' i' w' :
  "fasta_file_name" ∉ props.*1 → "fasta_header_name" ∉ props.*1 →
  foldM (fill_property fl) (row, i) props w = Ok ((row', i'), w') →
  i' = i ∧
  dict_get row' "fasta_file_name" = dict_get row "fasta_file_name" ∧
  dict_get row' "fasta_header_name" = dict_get row "fasta_header_name".
Proof.
  revert row i w. induction props as [|[k pd] props IH]; intros row i w Hf Hh.
  - by intros [[= <- <-] _]%ret_Ok.
  - rewrite fmap_cons in Hf, Hh. simpl in Hf, Hh.
    apply not_elem_of_cons in Hf as [Hkf Hf], Hh as [Hkh Hh].
    intros ([row1 i1] & w1 & Hstep & Hrest)%foldM_cons_Ok.
    apply IH in Hrest as (-> & -> & ->); [|done..].
    unfold fill_property in Hstep.
    rewrite decide_False in Hstep by done. rewrite decide_False in Hstep by done.
    apply bind_Ok in Hstep as (v & w2 & _ & [[= <- <-] _]%ret_Ok).
    by rewrite !dict_get_set_ne.
Qed.

Lemma fill_required_others props reqs row w row' w' k :
  k ∉ reqs →
  foldM (fill_required props) row reqs w = Ok (row', w') →
  dict_get row' k = dict_get row k.
Proof.
  revert row w. induction reqs as [|r reqs IH]; intros row w Hk.
  - by intros [<- _]%ret_Ok.
  - apply not_elem_of_cons in Hk as [Hkr Hk].
    intros (row1 & w1 & Hstep & Hrest)%foldM_cons_Ok.
    rewrite (IH _ _ Hk Hrest).
    apply fill_required_Ok in Hstep as [[-> _]|(v & w0 & w0' & _ & -> & _)]; [done|].
    by rewrite dict_get_set_ne.
Qed.

Lemma fill_property_file fl row i d w e :
  fl !! (i `mod` length fl) = Some e →
  fill_property fl (row, i) ("fasta_file_name", d) w
    = Ok ((dict_set row "fasta_file_name" (VStr e.1), i), w).
Proof. intros He. unfold fill_property. by rewrite decide_True, He. Qed.

Lemma fill_property_header fl row i d w e :
  fl !! (i `mod` length fl) = Some e →
  fill_property fl (row, i) ("fasta_header_name", d) w
    = Ok ((dict_set row "fasta_header_name" (VStr e.2), S i), w).
Proof.
  intros He. unfold fill_property.
  rewrite decide_False by done. by rewrite decide_True, He.
Qed.

(** With the file field declared before the header field (and neither
    refilled as a required field), a row takes both from the entry under
    the cursor, taken modulo the length of the list, and the cursor
    advances by one. *)
Lemma file_first_same_entry s fl i w row i' w' props1 d1 props2 d2 props3 :
  properties s =
    props1 ++ ("fasta_file_name", d1) :: props2 ++
    ("fasta_header_name", d2) :: props3 →
  "fasta_file_name" ∉ (props1 ++ props2 ++ props3).*1 →
  "fasta_header_name" ∉ (props1 ++ props2 ++ props3).*1 →
  "fasta_file_name" ∉ required s → "fasta_header_name" ∉ required s →
  fl ≠ [] →
  generate_row s fl i w = Ok ((row, i'), w') →
  ∃ e, fl !! (i `mod` length fl) = Some e ∧
    dict_get row "fasta_file_name" = Some (VStr e.1) ∧
    dict_get row "fasta_header_name" = Some (VStr e.2) ∧
    i' = S i.
Proof.
  intros Hprops Hf Hh Hrf Hrh Hfl. unfold generate_row. rewrite Hprops.
  rewrite !fmap_app, !not_elem_of_app in Hf, Hh.
  destruct Hf as (Hf1 & Hf2 & Hf3), Hh as (Hh1 & Hh2 & Hh3).
  intros ([row5 i5] & w5 & Hfold & (row6 & w6 & Hreqs & [[= <- <-] _]%ret_Ok)%bind_Ok)%bind_Ok.
  simpl in Hreqs.
  rewrite (fill_required_others _ _ _ _ _ _ _ Hrf Hreqs).
  rewrite (fill_required_others _ _ _ _ _ _ _ Hrh Hreqs). clear Hreqs.
  apply foldM_app_Ok in Hfold as ([row1 i1] & w1 & H1 & Hfold).
  apply fill_plain_properties in H1 as (-> & _ & _); [|done..].
  apply foldM_cons_Ok in Hfold as ([row2 i2] & w2 & Hfile & Hfold).
  apply foldM_app_Ok in Hfold as ([row3 i3] & w3 & H2 & Hfold).
  apply fill_plain_properties in H2 as (-> & Hfile2 & _); [|done..].
  apply foldM_cons_Ok in Hfold as ([row4 i4] & w4 & Hheader & H3).
  apply fill_plain_properties in H3 as (-> & -> & ->); [|done..].
  assert (i `mod` length fl < length fl) as Hlt.
  { apply Nat.mod_upper_bound. intros Hlen. by apply Hfl, nil_length_inv. }
  destruct (lookup_lt_is_Some_2 fl _ Hlt) as [e He].
  rewrite (fill_property_file _ _ _ _ _ _ He) in Hfile.
  injection Hfile as <- <- <-.
  rewrite (fill_property_header _ _ _ _ _ _ He) in Hheader.
  injection Hheader as <- <- <-.
  exists e. split; [done|].
  rewrite dict_get_set_ne by done. rewrite Hfile2.
  by rewrite !dict_get_set_eq.
Qed.
End cursor_facts.

Section main_facts.
Local Open Scope py_scope.


Lemma slice_to_subseteq {A} (l : list A) stop x : x ∈ slice_to l stop → x ∈ l.
Proof.
  unfold slice_to. case_decide; intros Hx;
    (eapply subseteq_take; exact Hx).
Qed.

Lemma selected_files_available a full f :
  f ∈ selected_files_of a full → f ∈ full.*1.
Proof.
  unfold selected_files_of, all_unique_files_of.
  intros Hf%slice_to_subseteq.
  by rewrite elem_of_sorted, elem_of_elements, elem_of_list_to_set in Hf.
Qed.

Lemma zip_members_names a table selected (temp_dir : gmap string (list string)) :
  Forall (λ f, is_Some (temp_dir !! f)) selected →
  fasta_member_names (zip_members a table selected temp_dir) = selected ∧
  member_rows (zip_members a table selected temp_dir) = tsv_rows table.
Proof.
  intros Hsel. unfold zip_members, fasta_member_names, member_rows.
  rewrite !bind_cons. cbn [snd fst app].
  induction Hsel as [|f selected [lines Hf] _ [IH1 IH2]]; [by rewrite app_nil_r|].
  rewrite bind_cons, Hf, !bind_app, !bind_singleton. cbn [snd fst app].
  rewrite IH1. split; [done|]. exact IH2.
Qed.

(** A run that ends with an archive went through every step of [main]. *)
Lemma main_archive a s fasta_files faults w o fs members :
  main a s fasta_files faults w = (o, fs) → o = Returned →
  archive fs = Some members →
  ∃ temp_dir file_mapping w1 row0 data,
    create_randomized_fasta_files fasta_files w
      = Ok ((Some temp_dir, file_mapping), w1) ∧
    let full := extract_headers_from_temp_dir temp_dir file_mapping in
    let selected := selected_files_of a full in
    value_of (generate_dummy_data s (num_rows a)
                (filter (λ e : entry, e.1 ∈ selected) full) true w1)
      = Ok (row0 :: data) ∧
    members = zip_members a (TsvTable (row0.*1) (row0 :: data)) selected temp_dir ∧
    temp_tsv fs = None ∧ scratch fs = None.
Proof.
  unfold main.
  destruct (create_randomized_fasta_files fasta_files w)
    as [[[[temp_dir|] file_mapping] w1]|e]; [|by intros [= <- <-]..].
  unfold main_try.
  destruct (extract_headers_from_temp_dir temp_dir file_mapping) as [|e0 full'] eqn:Hfull;
    [by intros [= <- <-]|].
  rewrite <- Hfull. clear Hfull.
  destruct (generate_dummy_data _ _ _ _ _) as [[[|row0 data] w2]|e] eqn:Hdata;
    [by intros [= <- <-]| |by intros [= <- <-]].
  destruct (tsv_write_fails faults); [by intros [= <- <-]|].
  destruct (zip_open_fails faults); [by intros [= <- <-]|].
  destruct (zip_write_fails faults); [by intros [= <- <-]|].
  intros [= <- <-] _ [= <-]. exists temp_dir, file_mapping, w1, row0, data.
  split; [done|]. simpl. by rewrite Hdata.
Qed.

Lemma main_removes_scratch a s fasta_files faults w :
  scratch (main a s fasta_files faults w).2 = None.
Proof.
  unfold main.
  destruct (create_randomized_fasta_files fasta_files w)
    as [[[[temp_dir|] file_mapping] w1]|e]; try done.
  by destruct (main_try _ _ _ _ _ _).
Qed.

(** A run that would have produced an archive ends, when opening the
    archive fails, with the exception and with the temporary table left
    behind. *)
Lemma zip_failure_keeps_temp_tsv a s fasta_files w faults fs members :
  main a s fasta_files no_faults w = (Returned, fs) →
  archive fs = Some members →
  tsv_write_fails faults = false → zip_open_fails faults = true →
  (main a s fasta_files faults w).1 = Raised OSError ∧
  is_Some (temp_tsv (main a s fasta_files faults w).2).
Proof.
  unfold main.
  destruct (create_randomized_fasta_files fasta_files w)
    as [[[[temp_dir|] file_mapping] w1]|e]; [|by intros [= <-]..].
  unfold main_try.
  destruct (extract_headers_from_temp_dir temp_dir file_mapping) as [|e0 full'] eqn:Hfull;
    [by intros [= <-]|].
  rewrite <- Hfull. clear Hfull.
  destruct (generate_dummy_data _ _ _ _ _) as [[[|row0 data] w2]|e] eqn:Hdata;
    [by intros [= <-]| |by intros [= <-]].
  intros _ _ -> ->. simpl. split; [done|]. by eexists.
Qed.
End main_facts.

Section claims_main.
Import Examples.

Lemma generate_dummy_data_file_names s N fl w rows :
  fl ≠ [] → (∀ e, e ∈ fl → e.1 ≠ "") →
  "fasta_file_name" ∈ (properties s).*1 →
  value_of (generate_dummy_data s N fl true w) = Ok rows →
  Forall (λ row, ∃ e, e ∈ fl ∧ dict_get row "fasta_file_name" = Some (VStr e.1)) rows.
Proof.
  intros Hfl Hnames Hdecl [w' Hrows]%value_of_Ok. unfold generate_dummy_data in Hrows.
  rewrite bool_decide_eq_true_2 in Hrows by done. simpl in Hrows.
  eapply generate_rows_Ok in Hrows as [_ Hall]; [exact Hall|].
  intros i w1 row i' w1' Hrow.
  apply generate_row_file_name in Hrow as (e & He & Hget); [| | |done].
  - exists e. split; [|done]. by rewrite interleave_Permutation in He.
  - intros Hnil. apply Hfl. apply Permutation_nil_r.
    by rewrite <- Hnil, interleave_Permutation.
  - intros e He. apply Hnames. by rewrite interleave_Permutation in He.
Qed.

(** C1 (amended). In every run of Pipeline A that produces an archive,
    the sequence files written into the archive are exactly the selected
    files: all available randomized files (those with at least one
    extracted header), sorted by name and cut to the spread count
    ([all_unique_files[:min(spread, count)]], all of them without
    [--spread]), whether or not a row references them.  When the schema
    declares [fasta_file_name] and at least one file is selected, every
    row's [fasta_file_name] names one of the archived files. *)
Theorem C1_archive_holds_selected_files (a : args) (s : schema)
    (fasta_files : list source_file) (faults : io_faults) (w : runtime)
    (fs : filesystem) (members : list (string * zip_member)) :
  main a s fasta_files faults w = (Returned, fs) →
  archive fs = Some members →
  ∃ temp_dir file_mapping,
    value_of (create_randomized_fasta_files fasta_files w)
      = Ok (Some temp_dir, file_mapping) ∧
    fasta_member_names members
      = selected_files_of a (extract_headers_from_temp_dir temp_dir file_mapping) ∧
    ("fasta_file_name" ∈ (properties s).*1 →
     fasta_member_names members ≠ [] →
     Forall (λ row, ∃ f, f ∈ fasta_member_names members ∧
               dict_get row "fasta_file_name" = Some (VStr f))
            (member_rows members)).
Proof.
  intros Hmain Harchive.
  destruct (main_archive _ _ _ _ _ _ _ _ Hmain eq_refl Harchive)
    as (temp_dir & file_mapping & w1 & row0 & data & Hcreate & Hdata & -> & _).
  simpl in Hdata.
  set (full := extract_headers_from_temp_dir temp_dir file_mapping) in *.
  set (selected := selected_files_of a full) in *.
  exists temp_dir, file_mapping. split; [by rewrite Hcreate|].
  destruct (zip_members_names a (TsvTable (row0.*1) (row0 :: data)) selected temp_dir)
    as [-> ->].
  { apply Forall_forall. intros f Hf%selected_files_available.
    apply list_elem_of_fmap in Hf as (e & -> & He).
    by apply extract_headers_elim in He as [_ ?]. }
  split; [done|]. intros Hdecl Hsel. simpl.
  apply create_randomized_fasta_files_Ok, process_all_Ok in Hcreate as [Hnames _].
  eapply Forall_impl.
  - eapply generate_dummy_data_file_names; [| |exact Hdecl|exact Hdata].
    + destruct selected as [|f0 selected'] eqn:Hs; [done|].
      assert (f0 ∈ selected) as Hf0 by (rewrite Hs; by left).
      pose proof Hf0 as Hav. apply selected_files_available in Hav.
      apply list_elem_of_fmap in Hav as (e & Hef & He).
      intros Hnil. apply (not_elem_of_nil e).
      assert (e ∈ filter (λ e0 : entry, e0.1 ∈ f0 :: selected') full) as Hin;
        [|by rewrite Hnil in Hin].
      apply list_elem_of_filter. split; [|done]. rewrite <- Hef. by left.
    + intros e [_ He]%list_elem_of_filter.
      apply extract_headers_elim in He as [[original Hin] _].
      rewrite Forall_forall in Hnames. specialize (Hnames _ Hin). simpl in Hnames.
      intros Heq. rewrite Heq in Hnames. discriminate Hnames.
  - intros row (e & [He _]%list_elem_of_filter & Hget). simpl in He. eauto.
Qed.
End claims_main.

Section upload_facts.
Import Upload.
Context (post : request → attempt) (a : args).

Lemma upload_file_true file_path folio_url project submission tok :
  upload_file post file_path folio_url project submission tok = true ↔
  ∃ status text,
    post (Request (folio_url +:+ "/projects/" +:+ project +:+ "/submissions/"
                     +:+ submission +:+ "/upload2")
                  ("Bearer " +:+ tok) file_path)
      = Response status text ∧
    (status = 200 ∨ status = 201)%Z.
Proof.
  unfold upload_file. destruct (post _) as [status text|message].
  - case_decide as Hs; split; try done.
    + intros _. exists status, text. split; [done|].
      apply elem_of_cons in Hs as [->|Hs]; [by left|].
      apply list_elem_of_singleton in Hs as ->. by right.
    + intros (status' & text' & [= <- _] & Hst). exfalso. apply Hs.
      destruct Hst as [->| ->]; [by left|right; by left].
  - split; [done|]. by intros (? & ? & ? & _).
Qed.

Lemma upload_file_exception file_path folio_url project submission tok message :
  post (Request (folio_url +:+ "/projects/" +:+ project +:+ "/submissions/"
                   +:+ submission +:+ "/upload2")
                ("Bearer " +:+ tok) file_path)
    = Exception message →
  upload_file post file_path folio_url project submission tok = false.
Proof. unfold upload_file. by intros ->. Qed.

Lemma upload_loop_counts (files : list dir_entry) success_count fail_count :
  foldl (λ '(success_count, fail_count) file_path,
           if upload_file post (de_name file_path) (folio a) (project_id a)
                (submission_id a) (token a)
           then (S success_count, fail_count)
           else (success_count, S fail_count))
        (success_count, fail_count) files
  = (success_count + length (filter (succeeded post a) files),
     fail_count + length (filter (λ f, ¬ succeeded post a f) files)).
Proof.
  revert success_count fail_count.
  induction files as [|f files IH]; intros sc fc; simpl.
  - f_equal; lia.
  - destruct (upload_file post (de_name f) _ _ _ _) eqn:Hf.
    + rewrite IH, filter_cons_True, filter_cons_False by (unfold succeeded; congruence).
      simpl. f_equal; lia.
    + rewrite IH, filter_cons_False, filter_cons_True by (unfold succeeded; congruence).
      simpl. f_equal; lia.
Qed.

Lemma upload_all_counts (files : list dir_entry) :
  upload_all post a files =
    (length (filter (succeeded post a) files),
     length (filter (λ f, ¬ succeeded post a f) files)).
Proof.
  unfold upload_all. rewrite upload_loop_counts. simpl.
  by rewrite !merge_sort_Permutation.
Qed.

Lemma filter_length_pos {A} (P : A → Prop) `{∀ x, Decision (P x)} (l : list A) :
  0 < length (filter P l) ↔ ∃ x, x ∈ l ∧ P x.
Proof.
  split.
  - destruct (filter P l) as [|x l'] eqn:Hl; [simpl; lia|]. intros _.
    assert (x ∈ filter P l) as Hx by (rewrite Hl; by left).
    apply list_elem_of_filter in Hx as [? ?]. eauto.
  - intros (x & Hx & HP).
    assert (x ∈ filter P l) as Hin by (by apply list_elem_of_filter).
    destruct (filter P l); [by apply elem_of_nil in Hin|simpl; lia].
Qed.

Lemma main_directory matched :
  main post a (Directory matched) =
    let files := filter (λ f, de_is_file f = true) matched in
    Report (if decide (0 < length (filter (λ f, ¬ succeeded post a f) files))
            then 1 else 0)
           (length (filter (succeeded post a) files))
           (length (filter (λ f, ¬ succeeded post a f) files)).
Proof.
  unfold main. simpl.
  destruct (filter _ matched) as [|f0 files'] eqn:Hfiles; [done|].
  rewrite upload_all_counts. by case_decide.
Qed.
End upload_facts.

Section claims_upload.
Import Upload Examples.

(** C6 (amended). The upload of a file counts as a success exactly when
    the response status is 200 or 201, and as a failure otherwise, also
    when the request raises an exception.  The process exits with code 1
    exactly when the folder argument is invalid, [glob] rejects the
    pattern, or at least one matched file failed, and with code 0
    otherwise (all files succeeded, or no file matched); the two counters
    are the numbers of succeeded and of failed files. *)
Theorem C6_upload_exit_status (post : request → attempt) (a : args) :
  (∀ f, succeeded post a f ↔
        ∃ status text,
          post (Request (folio a +:+ "/projects/" +:+ project_id a
                           +:+ "/submissions/" +:+ submission_id a +:+ "/upload2")
                        ("Bearer " +:+ token a) (de_name f))
            = Response status text ∧
          (status = 200 ∨ status = 201)%Z) ∧
  (∀ fd, exit_code (main post a fd) = 1%Z ↔
         fd = Missing ∨ fd = NotADirectory ∨ fd = BadPattern ∨
         ∃ matched f, fd = Directory matched ∧ f ∈ matched ∧
           de_is_file f = true ∧ ¬ succeeded post a f) ∧
  (∀ fd, exit_code (main post a fd) = 0%Z ∨ exit_code (main post a fd) = 1%Z) ∧
  (∀ matched,
     uploaded (main post a (Directory matched))
       = length (filter (succeeded post a)
                   (filter (λ f, de_is_file f = true) matched)) ∧
     failed (main post a (Directory matched))
       = length (filter (λ f, ¬ succeeded post a f)
                   (filter (λ f, de_is_file f = true) matched))).
Proof.
  split; [intros f; apply upload_file_true|]. split; [|split].
  - intros [| | |matched].
    + split; [auto|done].
    + split; [auto|done].
    + split; [auto|done].
    + rewrite main_directory. simpl. case_decide as Hfail; simpl.
      * split; [intros _|done]. right. right. right.
        apply filter_length_pos in Hfail as (f & [Hfile Hin]%list_elem_of_filter & Hf).
        by exists matched, f.
      * split; [done|].
        intros [?|[?|[?|(m & f & [= <-] & Hin & Hfile & Hf)]]]; try done.
        exfalso. apply Hfail, filter_length_pos. exists f. split; [|done].
        by apply list_elem_of_filter.
  - intros [| | |matched]; [by right..|].
    rewrite main_directory. simpl. case_decide; [by right|by left].
  - intros matched. by rewrite main_directory.
Qed.

Lemma C6_witness :
  exit_code (main one_rejected upload_args (Directory three_files)) = 1%Z ∧
  uploaded (main one_rejected upload_args (Directory three_files)) = 2 ∧
  failed (main one_rejected upload_args (Directory three_files)) = 1.
Proof.
  destruct (C6_upload_exit_status one_rejected upload_args)
    as (_ & Hexit & _ & Hcounts).
  split.
  - apply Hexit. right. right. right.
    exists three_files, (DirEntry "b.fasta" true).
    split; [reflexivity|]. split; [right; left|]. split; [reflexivity|].
    unfold succeeded. vm_compute. discriminate.
  - destruct (Hcounts three_files) as [-> ->].
    split; reflexivity.
Defined.

(** C6 as stated fails: when [glob] rejects the pattern (an empty or an
    absolute [--pattern]) the exception is not caught and the process
    exits with code 1, although the folder argument is valid and no file
    failed. *)
Lemma C6_counterexample :
  exit_code (main one_rejected upload_args BadPattern) = 1%Z ∧
  failed (main one_rejected upload_args BadPattern) = 0 ∧
  BadPattern ≠ Missing ∧ BadPattern ≠ NotADirectory.
Proof. by repeat split. Qed.
End claims_upload.

Section claims_runs.
Import Examples.

Lemma C1_witness :
  ∃ temp_dir file_mapping,
    value_of (create_randomized_fasta_files two_sources w0)
      = Ok (Some temp_dir, file_mapping) ∧
    fasta_member_names one_row_members
      = selected_files_of one_row
          (extract_headers_from_temp_dir temp_dir file_mapping) ∧
    ("fasta_file_name" ∈ (properties file_first).*1 →
     fasta_member_names one_row_members ≠ [] →
     Forall (λ row, ∃ f, f ∈ fasta_member_names one_row_members ∧
               dict_get row "fasta_file_name" = Some (VStr f))
            (member_rows one_row_members)).
Proof.
  apply (C1_archive_holds_selected_files one_row file_first two_sources
           no_faults w0 one_row_fs one_row_members).
  - vm_compute. reflexivity.
  - vm_compute. reflexivity.
Defined.

(** C1 as stated fails: with two source files, [--spread 2] and one row,
    both randomized files are written into the archive although the only
    row references one of them. *)
Lemma C1_counterexample :
  main one_row file_first two_sources no_faults w0 = (Returned, one_row_fs) ∧
  archive one_row_fs = Some one_row_members ∧
  fasta_member_names one_row_members
    = ["QpYw5EdMkTs1.fasta"; "Ts0z8HgOnWv4.fasta"] ∧
  (λ row, dict_get row "fasta_file_name") <$> member_rows one_row_members
    = [Some (VStr "QpYw5EdMkTs1.fasta")].
Proof.
  split; [vm_compute; reflexivity|]. split; [vm_compute; reflexivity|].
  split; vm_compute; reflexivity.
Qed.

(** C5 (the code departs from the claim). The scratch directory is
    removed at the end of every run, but the temporary table is removed
    only after the archive was written: when opening the archive fails,
    the run ends with the exception and the temporary table is still
    there. *)
Theorem C5_temp_tsv_survives_zip_failure :
  (∀ a s fasta_files faults w,
     scratch (main a s fasta_files faults w).2 = None) ∧
  (main one_row file_first two_sources zip_open_fault w0).1 = Raised OSError ∧
  temp_tsv (main one_row file_first two_sources zip_open_fault w0).2
    = Some (TsvTable ["sample_id"; "fasta_file_name"; "fasta_header_name"]
              [[("sample_id", VStr "NmVu2BaJhQpYx5EdMlTs");
                ("fasta_file_name", VStr "QpYw5EdMkTs1.fasta");
                ("fasta_header_name", VStr "z8HgPnWv4DbKjSqZy7Ge")]]).
Proof.
  split; [apply main_removes_scratch|].
  split; [vm_compute; reflexivity|vm_compute; reflexivity].
Qed.
End claims_runs.

(** * Further properties *)

Import GenMore.

Section string_more.
Local Open Scope py_scope.

Lemma alphabet_index (r : N) :
  (r < 2 ^ 53)%N →
  is_Some (alphabet !! N.to_nat (r * N.of_nat (length alphabet) / 2 ^ 53)%N).
Proof.
  intros Hr. apply lookup_lt_is_Some.
  assert (r * N.of_nat (length alphabet) / 2 ^ 53 < N.of_nat (length alphabet))%N.
  { apply N.Div0.div_lt_upper_bound.
    change (N.of_nat (length alphabet)) with 62%N.
    change (2 ^ 53)%N with 9007199254740992%N in *. lia. }
  lia.
Qed.

Lemma choices_alphabet k w cs w' :
  choices "a"%char alphabet k w = Ok (cs, w') →
  length cs = k ∧ Forall (λ c, c ∈ alphabet) cs.
Proof.
  unfold choices. apply replicateM_Ok. clear. intros w c w'.
  unfold random_bits, bind, draw, ret. intros [= <- _].
  set (r := (rand_tape w (rand_pos w) `mod` 2 ^ 53)%N).
  destruct (alphabet_index r) as [c Hc]; [by apply N.mod_lt|].
  change (length alphabet) with 62 in Hc. rewrite Hc. simpl.
  by eapply list_elem_of_lookup_2.
Qed.

Lemma generate_random_string_alnum n w s w' :
  generate_random_string n w = Ok (s, w') → String.length s = n ∧ alnum s.
Proof.
  unfold generate_random_string.
  intros (cs & w1 & [Hlen Hcs]%choices_alphabet & [<- _]%ret_Ok)%bind_Ok.
  split; [by rewrite string_of_list_ascii_length|].
  unfold alnum. by rewrite list_ascii_of_string_of_list_ascii.
Qed.
End string_more.

Section fasta_more.
Local Open Scope py_scope.

Lemma alphabet_plain : Forall (λ c, plain c = true) alphabet.
Proof. unfold alphabet. simpl. repeat constructor. Qed.

Lemma alnum_plain s :
  alnum s → Forall (λ c, plain c = true) (list_ascii_of_string s).
Proof.
  unfold alnum. intros Hs. eapply Forall_impl; [exact Hs|]. intros c Hc.
  pose proof alphabet_plain as Ha. rewrite Forall_forall in Ha. by apply Ha.
Qed.

Lemma rstrip_newline_after s :
  Forall (λ c, plain c = true) (list_ascii_of_string s) →
  rstrip (s +:+ newline) = s.
Proof.
  induction s as [|c s IH]; [done|]. intros [Hc Hs]%Forall_cons.
  change (String c s +:+ newline) with (String c (s +:+ newline)).
  by rewrite rstrip_cons_plain, (IH Hs).
Qed.

Lemma strip_random_header s :
  alnum s → strip (">" +:+ s +:+ newline) = ">" +:+ s.
Proof.
  intros Hs%alnum_plain. unfold strip.
  change (">" +:+ s +:+ newline) with (String ">"%char (s +:+ newline)).
  rewrite lstrip_plain by done.
  rewrite rstrip_cons_plain by done. by rewrite rstrip_newline_after.
Qed.

Lemma startswith_gt_strip line :
  startswith_gt line = true → startswith_gt (strip line) = true.
Proof.
  destruct line as [|c rest]; [done|]. simpl.
  intros Hc%bool_decide_eq_true. subst c. unfold strip.
  rewrite lstrip_plain by done. by rewrite rstrip_cons_plain.
Qed.

Lemma randomize_line_anonymized line w modified w' :
  randomize_line line w = Ok (modified, w') → anonymized_line line modified.
Proof.
  unfold randomize_line, anonymized_line. destruct (startswith_gt line).
  - intros (s & w1 & [Hlen Hs]%generate_random_string_alnum & [<- _]%ret_Ok)%bind_Ok.
    eauto.
  - by intros [<- _]%ret_Ok.
Qed.

Lemma randomize_lines_anonymized lines w modified w' :
  mapM randomize_line lines w = Ok (modified, w') →
  Forall2 anonymized_line lines modified.
Proof.
  intros Hrun. eapply mapM_Ok; [|exact Hrun].
  intros ????. apply randomize_line_anonymized.
Qed.

Lemma generate_random_filename_name w name w' :
  generate_random_filename w = Ok (name, w') → random_name name.
Proof.
  unfold generate_random_filename.
  intros (s & w1 & [Hlen Hs]%generate_random_string_alnum & [<- _]%ret_Ok)%bind_Ok.
  by exists s.
Qed.

Lemma generate_random_filename_total w :
  ∃ name w', generate_random_filename w = Ok (name, w').
Proof.
  unfold generate_random_filename.
  destruct (generate_random_string_total 12 w) as (s & w1 & Hs).
  rewrite (bind_run _ _ _ _ _ Hs). unfold ret. eauto.
Qed.

(** The headers extracted from an anonymized copy, when no source line has
    whitespace before the marker. *)
Lemma headers_of_anonymized new_name lines modified :
  Forall2 anonymized_line lines modified →
  Forall (λ line, startswith_gt (strip line) = true → startswith_gt line = true)
    lines →
  Forall (λ e : entry, e.1 = new_name ∧ String.length e.2 = 20 ∧ alnum e.2)
    (headers_of_lines new_name modified) ∧
  length (headers_of_lines new_name modified)
    = length (filter (λ line, startswith_gt line = true) lines).
Proof.
  unfold headers_of_lines.
  induction 1 as [|line m lines modified Hm _ IH]; intros Hcol; [done|].
  apply Forall_cons in Hcol as [Hline Hcol]. destruct (IH Hcol) as [IH1 IH2].
  rewrite bind_cons. unfold anonymized_line in Hm.
  destruct (startswith_gt line) eqn:Hgt.
  - destruct Hm as (s & -> & Hlen & Hs). rewrite strip_random_header by done.
    rewrite filter_cons_True by done. simpl. split; [|by rewrite IH2].
    constructor; [|done]. done.
  - subst m. rewrite filter_cons_False by (by rewrite Hgt).
    destruct (startswith_gt (strip line)) eqn:Hs; [|done].
    specialize (Hline eq_refl). congruence.
Qed.
(** [str.strip] takes Unicode whitespace off both ends: a header line
    indented with a no-break space is kept by the randomizer and
    extracted with its text. *)
Lemma unicode_indent_extracted :
  startswith_gt Examples.unicode_indented_line = false ∧
  strip Examples.unicode_indented_line = ">h1" ∧
  headers_of_lines "x.fasta" [Examples.unicode_indented_line]
    = [("x.fasta", "h1")].
Proof. split; [|split]; vm_compute; reflexivity. Qed.

End fasta_more.

Section scratch_more.
Local Open Scope py_scope.

Lemma process_fasta_file_shape temp_dir file_mapping f w temp_dir' file_mapping' w' :
  process_fasta_file (temp_dir, file_mapping) f w = Ok ((temp_dir', file_mapping'), w') →
  ∃ new_name, random_name new_name ∧
    file_mapping' = file_mapping ++ [(sf_name f, new_name)] ∧
    match sf_lines f with
    | Some lines =>
        ∃ modified, Forall2 anonymized_line lines modified ∧
          temp_dir' = <[new_name := modified]> temp_dir
    | None => temp_dir' = temp_dir
    end.
Proof.
  unfold process_fasta_file.
  intros (new_name & w1 & Hname%generate_random_filename_name & Hrest)%bind_Ok.
  exists new_name. split; [done|].
  destruct (sf_lines f) as [lines|].
  - apply bind_Ok in Hrest as (modified & w2 & Hmod & [[= <- <-] _]%ret_Ok).
    split; [done|]. exists modified. split; [|done].
    by eapply randomize_lines_anonymized.
  - by apply ret_Ok in Hrest as [[= <- <-] _].
Qed.

Lemma process_fasta_file_total st f w :
  ∃ st' w', process_fasta_file st f w = Ok (st', w').
Proof.
  destruct st as [temp_dir file_mapping]. unfold process_fasta_file.
  destruct (generate_random_filename_total w) as (name & w1 & Hname).
  rewrite (bind_run _ _ _ _ _ Hname).
  destruct (sf_lines f) as [lines|]; [|unfold ret; eauto].
  destruct (randomize_lines_total lines w1) as (modified & w2 & Hmod).
  rewrite (bind_run _ _ _ _ _ Hmod). unfold ret. eauto.
Qed.

Lemma process_all_shape files w temp_dir file_mapping w' :
  foldM process_fasta_file (∅, []) files w = Ok ((temp_dir, file_mapping), w') →
  file_mapping.*1 = sf_name <$> files ∧
  Forall random_name (file_mapping.*2) ∧
  (∀ new_name modified, temp_dir !! new_name = Some modified →
     new_name ∈ file_mapping.*2 ∧
     ∃ f lines, f ∈ files ∧ sf_lines f = Some lines ∧
       Forall2 anonymized_line lines modified).
Proof.
  revert w temp_dir file_mapping w'.
  induction files as [|f files IH] using rev_ind; intros w td fm w'.
  - intros [[= <- <-] _]%ret_Ok. split; [done|]. split; [constructor|].
    intros new_name modified Hget. by rewrite lookup_empty in Hget.
  - intros ([td1 fm1] & w1 & Hfiles & Hlast)%foldM_app_Ok.
    apply foldM_cons_Ok in Hlast as ([td2 fm2] & w2 & Hstep & [[= -> ->] _]%ret_Ok).
    apply process_fasta_file_shape in Hstep as (new_name & Hname & -> & Htd).
    apply IH in Hfiles as (Horig & Hnames & Hcontent).
    rewrite !fmap_app, Horig. simpl. split; [done|]. split.
    { apply Forall_app. split; [done|]. by constructor. }
    intros new0 modified Hget.
    assert (td1 !! new0 = Some modified →
            new0 ∈ fm1.*2 ++ [new_name] ∧
            ∃ f0 lines, f0 ∈ files ++ [f] ∧ sf_lines f0 = Some lines ∧
              Forall2 anonymized_line lines modified) as Hold.
    { intros (Hin & f0 & lines & Hf0 & Hlines & Hrel)%Hcontent.
      split; [apply elem_of_app; by left|].
      exists f0, lines. split; [apply elem_of_app; by left|done]. }
    destruct (sf_lines f) as [lines|] eqn:Hlines; [|subst td; by apply Hold].
    destruct Htd as (modified' & Hrel & ->).
    destruct (decide (new0 = new_name)) as [->|Hne].
    + rewrite lookup_insert_eq in Hget. injection Hget as <-.
      split; [apply elem_of_app; right; by left|].
      exists f, lines. split; [apply elem_of_app; right; by left|done].
    + rewrite lookup_insert_ne in Hget by done. by apply Hold.
Qed.

Lemma process_all_total files st w :
  ∃ st' w', foldM process_fasta_file st files w = Ok (st', w').
Proof.
  apply foldM_total. intros st0 f w0 _. apply process_fasta_file_total.
Qed.

Lemma merge_sort_nil_iff {A} (R : relation A) `{∀ x y, Decision (R x y)} (l : list A) :
  merge_sort R l = [] ↔ l = [].
Proof.
  split; [|by intros ->]. intros Hnil.
  apply Permutation_nil_r. by rewrite <- Hnil, merge_sort_Permutation.
Qed.
End scratch_more.

Section extras_fasta.
Import Examples ExamplesMore.
Local Open Scope py_scope.

Lemma anonymized_sequence_lines lines modified :
  Forall2 anonymized_line lines modified →
  filter (λ line, startswith_gt line = false) modified
    = filter (λ line, startswith_gt line = false) lines.
Proof.
  induction 1 as [|line m lines modified Hm _ IH]; [done|].
  unfold anonymized_line in Hm. destruct (startswith_gt line) eqn:Hgt.
  - destruct Hm as (s & -> & _ & _).
    rewrite !filter_cons_False; [done|by rewrite Hgt|done].
  - subst m. rewrite !filter_cons_True by done. by rewrite IH.
Qed.

Lemma extract_headers_source temp_dir file_mapping e :
  e ∈ extract_headers_from_temp_dir temp_dir file_mapping →
  ∃ lines, temp_dir !! e.1 = Some lines ∧ e ∈ headers_of_lines e.1 lines ∧
    e.1 ∈ file_mapping.*2.
Proof.
  unfold extract_headers_from_temp_dir.
  intros ([original new_name] & He & Hin)%list_elem_of_bind. simpl in He.
  destruct (temp_dir !! new_name) as [lines|] eqn:Hget; [|by apply elem_of_nil in He].
  assert (e.1 = new_name) as Hname.
  { unfold headers_of_lines in He.
    apply list_elem_of_bind in He as (line & He & _). simpl in He.
    destruct (startswith_gt (strip line)); [|by apply elem_of_nil in He].
    by apply list_elem_of_singleton in He as ->. }
  rewrite Hname. exists lines. split; [done|]. split; [done|].
  apply list_elem_of_fmap. by exists (original, new_name).
Qed.

(** X1. [generate_random_string(length)] never raises and returns exactly
    [length] characters, each an ASCII letter or digit;
    [generate_random_filename] returns 12 such characters followed by
    [.fasta]. *)
Theorem X1_random_strings_are_alphanumeric (n : nat) (w : runtime) :
  (∃ s, value_of (generate_random_string n w) = Ok s ∧
        String.length s = n ∧ alnum s) ∧
  (∃ name, value_of (generate_random_filename w) = Ok name ∧
           random_name name ∧ String.length name = 18).
Proof.
  split.
  - destruct (generate_random_string_total n w) as (s & w' & Hs).
    exists s. rewrite Hs. split; [done|]. by eapply generate_random_string_alnum.
  - destruct (generate_random_filename_total w) as (name & w' & Hname).
    exists name. rewrite Hname. split; [done|].
    split; [by eapply generate_random_filename_name|].
    by eapply generate_random_filename_Ok.
Qed.

(** X2. The randomizer's loop over the lines of a file never raises, keeps
    the number of lines, replaces every line that starts with the marker by
    the marker, 20 fresh letters or digits and a newline, and copies every
    other line unchanged: the sequence lines of the copy are those of the
    source, in order. *)
Theorem X2_randomizer_keeps_sequence_lines (lines : list string) (w : runtime) :
  ∃ modified_lines,
    value_of (mapM randomize_line lines w) = Ok modified_lines ∧
    length modified_lines = length lines ∧
    Forall2 anonymized_line lines modified_lines ∧
    filter (λ line, startswith_gt line = false) modified_lines
      = filter (λ line, startswith_gt line = false) lines.
Proof.
  destruct (randomize_lines_total lines w) as (modified & w' & Hrun).
  exists modified. rewrite Hrun. split; [done|].
  pose proof (randomize_lines_anonymized _ _ _ _ Hrun) as Hrel.
  split; [symmetry; by eapply Forall2_length|]. split; [done|].
  by apply anonymized_sequence_lines.
Qed.

(** X3. [create_randomized_fasta_files] never raises, whatever files can be
    read.  Without source files it returns [(None, [])] and draws nothing;
    otherwise it returns a scratch directory and a mapping that lists every
    source file, readable or not, once and in sorted order, each with a
    random name; every file of the scratch directory is recorded in the
    mapping and is the anonymized copy of a readable source file. *)
Theorem X3_randomized_files_shape (fasta_files : list source_file) (w : runtime) :
  (fasta_files = [] →
   create_randomized_fasta_files fasta_files w = Ok ((None, []), w)) ∧
  (fasta_files ≠ [] →
   ∃ temp_dir file_mapping,
     value_of (create_randomized_fasta_files fasta_files w)
       = Ok (Some temp_dir, file_mapping) ∧
     file_mapping.*1 = sf_name <$> merge_sort sf_le fasta_files ∧
     Forall random_name (file_mapping.*2) ∧
     (∀ new_name modified_lines,
        temp_dir !! new_name = Some modified_lines →
        new_name ∈ file_mapping.*2 ∧
        ∃ f lines, f ∈ fasta_files ∧ sf_lines f = Some lines ∧
          Forall2 anonymized_line lines modified_lines)).
Proof.
  unfold create_randomized_fasta_files. split.
  - by intros ->.
  - intros Hne.
    destruct (merge_sort sf_le fasta_files) as [|f0 sorted_files] eqn:Hsort;
      [by apply merge_sort_nil_iff in Hsort|].
    rewrite <- Hsort.
    destruct (process_all_total (merge_sort sf_le fasta_files) (∅, []) w)
      as ([temp_dir file_mapping] & w' & Hrun).
    rewrite (bind_run _ _ _ _ _ Hrun). simpl.
    exists temp_dir, file_mapping. split; [done|].
    apply process_all_shape in Hrun as (Horig & Hnames & Hcontent).
    split; [done|]. split; [done|].
    intros new_name modified Hget.
    destruct (Hcontent _ _ Hget) as (Hin & f & lines & Hf & Hlines & Hrel).
    split; [done|]. exists f, lines.
    by rewrite merge_sort_Permutation in Hf.
Qed.

Lemma X3_witness :
  ∃ temp_dir file_mapping,
    value_of (create_randomized_fasta_files two_sources w0)
      = Ok (Some temp_dir, file_mapping) ∧
    file_mapping.*1 = sf_name <$> merge_sort sf_le two_sources ∧
    Forall random_name (file_mapping.*2) ∧
    (∀ new_name modified_lines,
       temp_dir !! new_name = Some modified_lines →
       new_name ∈ file_mapping.*2 ∧
       ∃ f lines, f ∈ two_sources ∧ sf_lines f = Some lines ∧
         Forall2 anonymized_line lines modified_lines).
Proof.
  apply (proj2 (X3_randomized_files_shape two_sources w0)). discriminate.
Defined.

(** X4. When no line of a readable source file has whitespace before the
    marker, every header entry extracted from the scratch directory names a
    recorded randomized file and carries a fresh header of 20 letters or
    digits: no original header text reaches the entries. *)
Theorem X4_extracted_headers_are_fresh (fasta_files : list source_file)
    (w : runtime) (temp_dir : gmap string (list string))
    (file_mapping : list (string * string)) :
  value_of (create_randomized_fasta_files fasta_files w)
    = Ok (Some temp_dir, file_mapping) →
  (∀ f lines line, f ∈ fasta_files → sf_lines f = Some lines → line ∈ lines →
     startswith_gt (strip line) = true → startswith_gt line = true) →
  Forall (λ e : entry,
            e.1 ∈ file_mapping.*2 ∧ String.length e.2 = 20 ∧ alnum e.2)
    (extract_headers_from_temp_dir temp_dir file_mapping).
Proof.
  intros [w' Hrun]%value_of_Ok Hcol.
  apply create_randomized_fasta_files_Ok, process_all_shape in Hrun
    as (_ & _ & Hcontent).
  apply Forall_forall. intros e (modified & Hget & He & Hin)%extract_headers_source.
  destruct (Hcontent _ _ Hget) as (_ & f & lines & Hf & Hlines & Hrel).
  rewrite merge_sort_Permutation in Hf.
  destruct (headers_of_anonymized e.1 lines modified Hrel) as [Hall _].
  { apply Forall_forall. intros line Hline. by eapply Hcol. }
  rewrite Forall_forall in Hall. destruct (Hall e He) as (_ & Hlen & Halnum).
  done.
Qed.

Lemma X4_witness :
  Forall (λ e : entry,
            e.1 ∈ two_sources_mapping.*2 ∧ String.length e.2 = 20 ∧ alnum e.2)
    (extract_headers_from_temp_dir two_sources_temp_dir two_sources_mapping).
Proof.
  apply (X4_extracted_headers_are_fresh two_sources w0).
  - vm_compute. reflexivity.
  - intros f lines line Hf Hlines Hline.
    unfold two_sources in Hf.
    apply elem_of_cons in Hf as [->|Hf].
    { injection Hlines as <-.
      apply elem_of_cons in Hline as [->|Hline]; [done|].
      apply list_elem_of_singleton in Hline as ->. discriminate. }
    apply list_elem_of_singleton in Hf as ->. injection Hlines as <-.
    apply elem_of_cons in Hline as [->|Hline]; [done|].
    apply list_elem_of_singleton in Hline as ->. discriminate.
Defined.
End extras_fasta.

Section interleave_more.
Implicit Types (l : list entry) (f : string).

Lemma filter_bind {A B} (P : B → Prop) `{∀ x, Decision (P x)}
    (g : A → list B) (xs : list A) :
  filter P (xs ≫= g) = xs ≫= (λ x, filter P (g x)).
Proof.
  induction xs as [|x xs IH]; [done|].
  by rewrite !bind_cons, filter_app, IH.
Qed.

Lemma filter_all {A} (P : A → Prop) `{∀ x, Decision (P x)} (xs : list A) :
  Forall P xs → filter P xs = xs.
Proof.
  induction 1 as [|x xs Hx _ IH]; [done|]. by rewrite filter_cons_True, IH.
Qed.

Lemma filter_none {A} (P : A → Prop) `{∀ x, Decision (P x)} (xs : list A) :
  Forall (λ x, ¬ P x) xs → filter P xs = [].
Proof.
  induction 1 as [|x xs Hx _ IH]; [done|]. by rewrite filter_cons_False.
Qed.

(** Picking the entries of one file in a round over distinct files. *)
Lemma round_of_file l (files : list string) f i :
  NoDup files →
  files ≫= (λ f', filter (λ e : entry, e.1 = f) (option_list (group_of f' l !! i)))
    = if decide (f ∈ files) then option_list (group_of f l !! i) else [].
Proof.
  induction 1 as [|f0 files Hf0 Hnd IH]; [done|].
  rewrite bind_cons, IH. destruct (decide (f0 = f)) as [->|Hne].
  - rewrite (decide_True (P := f ∈ f :: files)) by (by left).
    rewrite (decide_False (P := f ∈ files)) by done.
    rewrite app_nil_r. apply filter_all.
    destruct (group_of f l !! i) as [e|] eqn:He; [|constructor].
    constructor; [|constructor]. eapply group_of_file.
    by eapply list_elem_of_lookup_2.
  - rewrite filter_none.
    + simpl. apply decide_ext. rewrite elem_of_cons. split; [by right|].
      intros [?|?]; [congruence|done].
    + destruct (group_of f0 l !! i) as [e|] eqn:He; [|constructor].
      constructor; [|constructor]. intros Hef. apply Hne. rewrite <- Hef.
      symmetry. eapply group_of_file. by eapply list_elem_of_lookup_2.
Qed.

Lemma interleave_group_of l f : group_of f (interleave l) = group_of f l.
Proof.
  rewrite interleave_rounds. unfold rounds, group_of at 1.
  rewrite filter_bind.
  set (n := max_list _).
  assert (NoDup (sorted (remove_dups (l.*1)))) as Hnd.
  { unfold sorted. rewrite merge_sort_Permutation. apply NoDup_remove_dups. }
  erewrite list_bind_ext; [|intros i|done].
  2:{ rewrite list_fmap_bind, filter_bind. simpl.
      rewrite (round_of_file l _ f i Hnd). reflexivity. }
  destruct (decide (f ∈ sorted (remove_dups (l.*1)))) as [Hin|Hout].
  - apply positions_all. apply group_length_le_max.
  - rewrite group_of_absent.
    + clear. induction (seq 0 n) as [|i s IH]; [done|]. by rewrite bind_cons.
    + by rewrite elem_of_sorted, elem_of_remove_dups in Hout.
Qed.

Lemma sorted_same_elements (ks1 ks2 : list string) :
  (∀ k, k ∈ ks1 ↔ k ∈ ks2) → sorted (remove_dups ks1) = sorted (remove_dups ks2).
Proof.
  intros Hks. unfold sorted. apply (Sorted_unique String.le).
  - apply (Sorted_merge_sort String.le).
  - apply (Sorted_merge_sort String.le).
  - rewrite !merge_sort_Permutation. apply NoDup_Permutation.
    + apply NoDup_remove_dups.
    + apply NoDup_remove_dups.
    + intros k. by rewrite !elem_of_remove_dups.
Qed.

Lemma interleave_files l :
  sorted (remove_dups ((interleave l).*1)) = sorted (remove_dups (l.*1)).
Proof. apply sorted_same_elements. intros k. by rewrite interleave_Permutation. Qed.

Lemma interleave_idempotent l : interleave (interleave l) = interleave l.
Proof.
  transitivity (spec_interleave (interleave l)); [apply interleave_refines_spec|].
  transitivity (spec_interleave l); [|symmetry; apply interleave_refines_spec].
  unfold spec_interleave. cbv zeta. rewrite interleave_files.
  assert ((λ filename, group_of filename (interleave l)) <$> sorted (remove_dups (l.*1))
          = (λ filename, group_of filename l) <$> sorted (remove_dups (l.*1))) as ->; [|done].
  apply list_fmap_ext. intros _ f _. apply interleave_group_of.
Qed.

Lemma interleave_single_file l f :
  Forall (λ e : entry, e.1 = f) l → interleave l = l.
Proof.
  intros Hl.
  assert (Forall (λ e : entry, e.1 = f) (interleave l)) as Hi
    by (by rewrite interleave_Permutation).
  rewrite <- (filter_all (λ e : entry, e.1 = f) (interleave l) Hi).
  rewrite <- (filter_all (λ e : entry, e.1 = f) l Hl) at 2.
  apply interleave_group_of.
Qed.

(** The first [k] rounds over groups that all hold at least [k] entries
    take one entry of every group in turn. *)
Lemma round_robin_full_rounds (files : list string) k :
  ∀ n (groups : list (list entry)),
    Forall2 (λ f g, Forall (λ e : entry, e.1 = f) g) files groups →
    Forall (λ g, k ≤ length g) groups → k ≤ n →
    take (k * length files) ((round_robin n groups).*1)
      = mjoin (replicate k files).
Proof.
  induction k as [|k IH]; intros n groups Hlab Hlen Hn; [done|].
  destruct n as [|n]; [lia|].
  change (round_robin (S n) groups)
    with ((groups ≫= (λ group, option_list (head group)))
            ++ round_robin n (tail <$> groups)).
  assert (fmap (M := list) (A := entry) fst
            (groups ≫= (λ group, option_list (head group))) = files) as Hheads.
  { clear IH Hn. induction Hlab as [|f g files groups Hg _ IHl]; [done|].
    apply Forall_cons in Hlen as [Hglen Hlen]. rewrite bind_cons, fmap_app, IHl by done.
    destruct g as [|e g]; [simpl in Hglen; lia|]. simpl.
    apply Forall_cons in Hg as [-> _]. done. }
  rewrite fmap_app.
  match goal with
  | |- take _ (?X ++ _) = _ => replace X with files by (symmetry; exact Hheads)
  end.
  change (mjoin (replicate (S k) files))
    with (files ++ mjoin (replicate k files)).
  replace (S k * length files) with (length files + k * length files) by lia.
  rewrite take_app_add. f_equal.
  assert (length (tail <$> groups) = length groups) as Htl by apply length_fmap.
  apply IH; [| |lia].
  - clear -Hlab. induction Hlab as [|f g files groups Hg _ IHl]; [constructor|].
    rewrite fmap_cons. constructor; [|done].
    destruct g; [constructor|]. by apply Forall_cons in Hg as [_ ?].
  - apply Forall_fmap. eapply Forall_impl; [exact Hlen|].
    intros g Hg. simpl. destruct g; simpl in *; lia.
Qed.

Lemma interleave_full_rounds l k :
  Forall (λ f, k ≤ length (group_of f l)) (sorted (remove_dups (l.*1))) →
  take (k * length (sorted (remove_dups (l.*1)))) ((interleave l).*1)
    = mjoin (replicate k (sorted (remove_dups (l.*1)))).
Proof.
  intros Hk. rewrite interleave_refines_spec. unfold spec_interleave.
  set (files := sorted (remove_dups (l.*1))) in *.
  destruct (decide (files = [])) as [Hnil|Hne].
  { rewrite Hnil. simpl. rewrite Nat.mul_0_r. simpl.
    clear. induction k; [done|]. simpl. done. }
  apply round_robin_full_rounds.
  - apply Forall2_fmap_r, Forall_Forall2_diag, Forall_forall. intros f _.
    apply Forall_forall. intros e He. by eapply group_of_file.
  - by apply Forall_fmap.
  - destruct files as [|f0 files'] eqn:Hfiles; [done|].
    apply Forall_cons in Hk as [Hk0 _].
    etrans; [exact Hk0|]. simpl. lia.
Qed.
End interleave_more.

Section date_more.
Local Open Scope Z_scope.

Lemma civil_from_days_ranges day :
  (1 ≤ (civil_from_days day).1.2 ≤ 12) ∧ (1 ≤ (civil_from_days day).2 ≤ 31).
Proof.
  unfold civil_from_days.
  set (z := day + 719468).
  set (era := z / 146097).
  set (doe := z - era * 146097).
  assert (0 ≤ doe ≤ 146096) as Hdoe.
  { unfold doe, era. pose proof (Z.div_mod z 146097 ltac:(lia)).
    pose proof (Z.mod_pos_bound z 146097 ltac:(lia)). lia. }
  clearbody doe.
  set (yoe := (doe - doe / 1460 + doe / 36524 - doe / 146096) / 365).
  set (doy := doe - (365 * yoe + yoe / 4 - yoe / 100)).
  assert (0 ≤ doy ≤ 365) as Hdoy.
  { unfold doy, yoe. Z.to_euclidean_division_equations. lia. }
  clearbody doy.
  set (mp := (5 * doy + 2) / 153).
  assert (0 ≤ mp ≤ 11) as Hmp.
  { unfold mp. Z.to_euclidean_division_equations. lia. }
  assert (1 ≤ doy - (153 * mp + 2) / 5 + 1 ≤ 31) as Hd.
  { unfold mp. Z.to_euclidean_division_equations. lia. }
  clearbody mp. simpl. split; [|done].
  case_decide; lia.
Qed.
End date_more.

Section value_more.
Import Examples.
Local Open Scope py_scope.

Lemma uniform_Ok a b w u w' : uniform a b w = Ok (u, w') → uniform_ok a b.
Proof.
  intros Hu. destruct (uniform_ok_dec a b) as [Hok|Hbad]; [done|].
  by rewrite (uniform_raises a b w Hbad) in Hu.
Qed.

Lemma generate_dummy_value_Ok_details pd w v w' :
  generate_dummy_value pd w = Ok (v, w') → details_ok pd.
Proof.
  unfold generate_dummy_value, details_ok.
  destruct (p_enum pd) as [enum|].
  { intros Hv%choice_Ok Hnil. rewrite Hnil in Hv. by apply elem_of_nil in Hv. }
  cbv zeta. set (t := default "string" (p_type pd)).
  destruct (decide (t = "array")) as [_|Harr].
  { destruct (p_enum (default no_details (p_items pd))) as [enum|]; [|done].
    intros (k & w1 & Hk%randint_Ok & _)%bind_Ok Hnil.
    rewrite Hnil in Hk. simpl in Hk. lia. }
  destruct (decide (t = "number")) as [Hnum|Hnum].
  { rewrite (decide_False (P := t = "string")) by (by rewrite Hnum).
    rewrite (decide_True (P := t = "number" ∨ t = "integer")) by auto.
    by intros (u & w1 & Hu%uniform_Ok & _)%bind_Ok. }
  destruct (decide (t = "integer")) as [Hint|Hint]; [|done].
  rewrite (decide_False (P := t = "string")) by (by rewrite Hint).
  rewrite (decide_True (P := t = "number" ∨ t = "integer")) by auto.
  by intros (n & w1 & [Hn _]%randint_number_Ok & _)%bind_Ok.
Qed.

Lemma generate_dummy_value_raises pd :
  ¬ details_ok pd → ∃ e, ∀ w, generate_dummy_value pd w = Raise e.
Proof.
  unfold generate_dummy_value, details_ok.
  destruct (p_enum pd) as [enum|].
  { intros Hnil. exists IndexError. intros w. destruct enum; [done|]. by destruct Hnil. }
  cbv zeta. set (t := default "string" (p_type pd)).
  destruct (decide (t = "array")) as [_|Harr].
  { destruct (p_enum (default no_details (p_items pd))) as [enum|]; [|by intros []].
    intros Hnil. exists ValueError. intros w. destruct enum; [|by destruct Hnil].
    apply bind_Raise. by apply randint_empty. }
  destruct (decide (t = "number")) as [Hnum|Hnum].
  { rewrite (decide_False (P := t = "string")) by (by rewrite Hnum).
    rewrite (decide_True (P := t = "number" ∨ t = "integer")) by auto.
    intros Hbad. exists OverflowError. intros w.
    by apply bind_Raise, uniform_raises. }
  destruct (decide (t = "integer")) as [Hint|Hint]; [|by intros []].
  rewrite (decide_False (P := t = "string")) by (by rewrite Hint).
  rewrite (decide_True (P := t = "number" ∨ t = "integer")) by auto.
  intros Hbad. destruct (randint_number_raises _ _ Hbad) as (e & He).
  exists e. intros w. by apply bind_Raise.
Qed.

Lemma details_ok_dec pd : details_ok pd ∨ ¬ details_ok pd.
Proof.
  unfold details_ok.
  destruct (p_enum pd) as [enum|]; [destruct enum; [by right; intros []|by left]|].
  cbv zeta. case_decide.
  { destruct (p_enum (default no_details (p_items pd))) as [enum|]; [|by left].
    destruct enum; [by right; intros []|by left]. }
  case_decide; [apply uniform_ok_dec|].
  case_decide; [apply randint_ok_dec|by left].
Qed.

Lemma pad2_length n : String.length (pad2 n) = 2.
Proof. done. Qed.

Lemma strftime_ymd_civil day :
  ∃ y m d, civil_from_days day = (y, m, d) ∧
    strftime_ymd day = pad4 y +:+ "-" +:+ pad2 m +:+ "-" +:+ pad2 d ∧
    (1 ≤ m ≤ 12)%Z ∧ (1 ≤ d ≤ 31)%Z ∧ String.length (strftime_ymd day) = 10.
Proof.
  pose proof (civil_from_days_ranges day) as [Hm Hd].
  unfold strftime_ymd. destruct (civil_from_days day) as [[y m] d].
  simpl in Hm, Hd. exists y, m, d.
  split; [done|]. split; [done|]. split; [done|]. split; [done|].
  reflexivity.
Qed.

(** X5. An own [enum] decides the value whatever the declared type: the
    value is a member of the enum, and an empty enum makes
    [random.choice] raise [IndexError]. *)
Theorem X5_enum_value_is_member (pd : prop_details) (enum : list value) (w : runtime) :
  p_enum pd = Some enum →
  (enum ≠ [] → ∃ v, value_of (generate_dummy_value pd w) = Ok v ∧ v ∈ enum) ∧
  (enum = [] → value_of (generate_dummy_value pd w) = Raise IndexError).
Proof.
  intros Henum. unfold generate_dummy_value. rewrite Henum. split.
  - intros Hne. destruct (choice_total enum w Hne) as (v & w' & Hv).
    exists v. rewrite Hv. split; [done|]. by eapply choice_Ok.
  - by intros ->.
Qed.

Lemma X5_witness :
  ∃ v, value_of (generate_dummy_value
                   (enum_of "integer" [VStr "low"; VStr "high"]) w0) = Ok v ∧
       v ∈ [VStr "low"; VStr "high"].
Proof.
  by apply (X5_enum_value_is_member
              (enum_of "integer" [VStr "low"; VStr "high"])
              [VStr "low"; VStr "high"] w0 eq_refl).
Defined.

(** X6. Without an enum, a property whose type is absent, ["string"]
    without the date format, or any name other than ["array"],
    ["number"] and ["integer"], gets a string of exactly 20 characters,
    all of them ASCII letters or digits. *)
Theorem X6_string_and_fallback_values (pd : prop_details) (w : runtime) :
  p_enum pd = None →
  default "string" (p_type pd) ≠ "array" →
  default "string" (p_type pd) ≠ "number" →
  default "string" (p_type pd) ≠ "integer" →
  (default "string" (p_type pd) = "string" → p_format pd ≠ Some "date") →
  ∃ s, value_of (generate_dummy_value pd w) = Ok (VStr s) ∧
       String.length s = 20 ∧ alnum s.
Proof.
  intros Henum Harr Hnum Hint Hformat. unfold generate_dummy_value. rewrite Henum.
  destruct (generate_random_string_total 20 w) as (s & w' & Hs).
  assert (value_of ((s <- generate_random_string 20 ;; ret (VStr s)) w) = Ok (VStr s)) as Hrun.
  { by rewrite (bind_run _ _ _ _ _ Hs). }
  exists s. split; [|by eapply generate_random_string_alnum].
  rewrite (decide_False (P := default "string" (p_type pd) = "array")) by done.
  destruct (decide (default "string" (p_type pd) = "string")) as [Hstr|Hstr].
  { by rewrite (decide_False (P := p_format pd = Some "date")) by auto. }
  by rewrite (decide_False (P := default "string" (p_type pd) = "number" ∨
                                 default "string" (p_type pd) = "integer")) by tauto.
Qed.

Lemma X6_witness :
  ∃ s, value_of (generate_dummy_value (details "boolean") w0) = Ok (VStr s) ∧
       String.length s = 20 ∧ alnum s.
Proof.
  by apply (X6_string_and_fallback_values (details "boolean") w0 eq_refl).
Defined.

(** X7. A string property with the date format (the type may be left
    out) gets the [%Y-%m-%d] rendering of a day between 365 days before
    the clock's day and that day: ten characters, a month between 1 and
    12 and a day of the month between 1 and 31. *)
Theorem X7_date_values (pd : prop_details) (w : runtime) :
  p_enum pd = None →
  default "string" (p_type pd) = "string" →
  p_format pd = Some "date" →
  ∃ day y m d,
    value_of (generate_dummy_value pd w)
      = Ok (VStr (pad4 y +:+ "-" +:+ pad2 m +:+ "-" +:+ pad2 d)) ∧
    (clock_day w - 365 ≤ day ≤ clock_day w)%Z ∧
    civil_from_days day = (y, m, d) ∧
    (1 ≤ m ≤ 12)%Z ∧ (1 ≤ d ≤ 31)%Z ∧
    String.length (pad4 y +:+ "-" +:+ pad2 m +:+ "-" +:+ pad2 d) = 10.
Proof.
  intros Henum Htype Hformat. unfold generate_dummy_value.
  rewrite Henum, Htype, Hformat.
  rewrite (decide_False (P := "string" = "array")) by done.
  rewrite (decide_True (P := "string" = "string")) by done.
  rewrite (decide_True (P := Some "date" = Some "date")) by done.
  destruct (generate_random_date_total w) as (s & w' & Hs).
  rewrite (bind_run _ _ _ _ _ Hs).
  apply generate_random_date_Ok in Hs as (k & Hk & ->).
  destruct (strftime_ymd_civil (clock_day w - k)) as (y & m & d & Hc & -> & Hm & Hd & Hlen).
  exists (clock_day w - k)%Z, y, m, d. repeat split; try done; lia.
Qed.

Lemma X7_witness :
  ∃ day y m d,
    value_of (generate_dummy_value
                (PropDetails None None None (Some "date") None None) w0)
      = Ok (VStr (pad4 y +:+ "-" +:+ pad2 m +:+ "-" +:+ pad2 d)) ∧
    (clock_day w0 - 365 ≤ day ≤ clock_day w0)%Z ∧
    civil_from_days day = (y, m, d) ∧
    (1 ≤ m ≤ 12)%Z ∧ (1 ≤ d ≤ 31)%Z ∧
    String.length (pad4 y +:+ "-" +:+ pad2 m +:+ "-" +:+ pad2 d) = 10.
Proof.
  by apply (X7_date_values (PropDetails None None None (Some "date") None None) w0).
Defined.

(** X8. Whether the synthesizer raises is decided by the descriptor
    alone, never by the random draws or the clock: on a descriptor that
    is [details_ok] every run returns a value, on any other descriptor
    every run raises one and the same exception. *)
Theorem X8_raising_depends_on_descriptor_only (pd : prop_details) :
  (details_ok pd ∧ ∀ w, ∃ v, value_of (generate_dummy_value pd w) = Ok v) ∨
  (¬ details_ok pd ∧ ∃ e, ∀ w, value_of (generate_dummy_value pd w) = Raise e).
Proof.
  destruct (details_ok_dec pd) as [Hok|Hbad].
  - left. split; [done|]. intros w.
    destruct (generate_dummy_value_total pd w Hok) as (v & w' & Hv).
    exists v. by rewrite Hv.
  - right. split; [done|].
    destruct (generate_dummy_value_raises pd Hbad) as (e & He).
    exists e. intros w. by rewrite He.
Qed.

(** X9. [generate_random_number] returns an integer between its two
    bounds, both included, and raises [ValueError] when the upper bound
    is below the lower one. *)
Theorem X9_random_number_bounds (min_val max_val : Z) (w : runtime) :
  ((min_val ≤ max_val)%Z →
   ∃ n, value_of (generate_random_number min_val max_val w) = Ok n ∧
        (min_val ≤ n ≤ max_val)%Z) ∧
  ((max_val < min_val)%Z →
   value_of (generate_random_number min_val max_val w) = Raise ValueError).
Proof.
  unfold generate_random_number. split.
  - intros Hle. destruct (randint_total min_val max_val w Hle) as (n & w' & Hn).
    exists n. rewrite Hn. split; [done|]. by eapply randint_Ok.
  - intros Hlt. by rewrite randint_empty.
Qed.

Lemma X9_witness :
  ∃ n, value_of (generate_random_number 1 100 w0) = Ok n ∧ (1 ≤ n ≤ 100)%Z.
Proof. apply (X9_random_number_bounds 1 100 w0). lia. Defined.

(** The integer branch takes float bounds that are integral, and raises
    [ValueError] on one that is not. *)
Lemma integer_branch_float_bounds :
  value_of (generate_dummy_value
              (bounded "integer" (Some (NFloat (Finite 1))) (Some (NFloat (Finite 3))))
              w0) = Ok (VInt 2) ∧
  value_of (generate_dummy_value
              (bounded "integer" (Some (NFloat (Finite (3 # 2))))
                 (Some (NFloat (Finite 3)))) w0) = Raise ValueError.
Proof. split; vm_compute; reflexivity. Qed.

End value_more.

Section extras_interleave.
Import Examples.

(** X10. Interleaving never reorders the entries of one file: the
    entries of every file appear in the interleaved list in the order
    they had in the input.  A list whose entries all name one file (the
    empty list included) is returned as it is. *)
Theorem X10_interleave_keeps_order_within_file (fasta_list : list entry) :
  (∀ filename, group_of filename (interleave fasta_list) = group_of filename fasta_list) ∧
  (∀ filename, Forall (λ e : entry, e.1 = filename) fasta_list →
     interleave fasta_list = fasta_list).
Proof.
  split.
  - intros f. apply interleave_group_of.
  - intros f. apply interleave_single_file.
Qed.

Lemma X10_witness :
  interleave [("a.fasta", "h2"); ("a.fasta", "h1")]
    = [("a.fasta", "h2"); ("a.fasta", "h1")].
Proof.
  apply (proj2 (X10_interleave_keeps_order_within_file
                  [("a.fasta", "h2"); ("a.fasta", "h1")]) "a.fasta").
  by repeat constructor.
Defined.

(** X11. Interleaving is idempotent: an interleaved list is a fixed
    point of the interleaving, and it has the same sorted files as the
    input. *)
Theorem X11_interleave_idempotent (fasta_list : list entry) :
  interleave (interleave fasta_list) = interleave fasta_list ∧
  sorted (remove_dups ((interleave fasta_list).*1))
    = sorted (remove_dups (fasta_list.*1)).
Proof. split; [apply interleave_idempotent|apply interleave_files]. Qed.

(** X12. When every file has at least [k] entries, the first
    [k * number of files] entries of the interleaved list are [k] full
    rounds over the files in sorted order: up to there every file is
    used equally often. *)
Theorem X12_interleave_full_rounds (fasta_list : list entry) (k : nat) :
  let files := sorted (remove_dups (fasta_list.*1)) in
  Forall (λ filename, k ≤ length (group_of filename fasta_list)) files →
  take (k * length files) ((interleave fasta_list).*1)
    = mjoin (replicate k files).
Proof. intros files. apply interleave_full_rounds. Qed.

Lemma X12_witness :
  take (1 * length (sorted (remove_dups (two_entries.*1))))
       ((interleave two_entries).*1)
    = mjoin (replicate 1 (sorted (remove_dups (two_entries.*1)))).
Proof.
  apply (X12_interleave_full_rounds two_entries 1).
  vm_compute. repeat constructor.
Defined.

End extras_interleave.

Section cursor_more.
Local Open Scope py_scope.
Implicit Types (fl : list entry) (row : Row).

Lemma fill_required_kept props reqs row w row' w' k v :
  dict_get row k = Some v → (k ∈ reqs → truthy v = true) →
  foldM (fill_required props) row reqs w = Ok (row', w') →
  dict_get row' k = Some v.
Proof.
  revert row w. induction reqs as [|r reqs IH]; intros row w Hget Htr.
  - by intros [<- _]%ret_Ok.
  - intros (row1 & w1 & Hstep & Hrest)%foldM_cons_Ok.
    eapply IH; [| |exact Hrest].
    + apply fill_required_Ok in Hstep as [[-> _]|(v1 & w0 & w0' & _ & -> & Hfalse)]; [done|].
      destruct (decide (r = k)) as [->|Hne].
      * specialize (Hfalse _ Hget). rewrite Htr in Hfalse; [done|].
        apply elem_of_cons. by left.
      * by rewrite dict_get_set_ne.
    + intros Hin. apply Htr, elem_of_cons. by right.
Qed.

Lemma lookup_mod_is_Some {A} (l : list A) i :
  l ≠ [] → ∃ x, l !! (i `mod` length l) = Some x.
Proof.
  intros Hl. apply lookup_lt_is_Some_2, Nat.mod_upper_bound.
  intros Hlen. by apply Hl, nil_length_inv.
Qed.

Lemma fill_properties_other fl props row i w row' i' w' k :
  k ∉ props.*1 →
  foldM (fill_property fl) (row, i) props w = Ok ((row', i'), w') →
  dict_get row' k = dict_get row k.
Proof.
  revert row i w. induction props as [|[k0 pd] props IH]; intros row i w Hk.
  - by intros [[= <- <-] _]%ret_Ok.
  - rewrite fmap_cons in Hk. simpl in Hk. apply not_elem_of_cons in Hk as [Hne Hk].
    intros ([row1 i1] & w1 & Hstep & Hrest)%foldM_cons_Ok.
    rewrite (IH _ _ _ Hk Hrest).
    apply fill_property_Ok in Hstep as (v & -> & _).
    by rewrite dict_get_set_ne.
Qed.

Lemma fill_properties_cursor_stays fl props row i w row' i' w' :
  "fasta_header_name" ∉ props.*1 →
  foldM (fill_property fl) (row, i) props w = Ok ((row', i'), w') → i' = i.
Proof.
  revert row i w. induction props as [|[k0 pd] props IH]; intros row i w Hk.
  - by intros [[= <- <-] _]%ret_Ok.
  - rewrite fmap_cons in Hk. simpl in Hk. apply not_elem_of_cons in Hk as [Hne Hk].
    intros ([row1 i1] & w1 & Hstep & Hrest)%foldM_cons_Ok.
    rewrite (IH _ _ _ Hk Hrest). clear IH Hrest.
    unfold fill_property in Hstep.
    destruct (decide (k0 = "fasta_file_name")) as [_|_].
    { destruct (fl !! (i `mod` length fl)).
      - by apply ret_Ok in Hstep as [[= <- <-] _].
      - by apply bind_Ok in Hstep as (v & w2 & _ & [[= <- <-] _]%ret_Ok). }
    rewrite decide_False in Hstep by done.
    by apply bind_Ok in Hstep as (v & w2 & _ & [[= <- <-] _]%ret_Ok).
Qed.

Lemma elem_of_keys_split {V} (props : list (string * V)) k :
  k ∈ props.*1 → NoDup (props.*1) →
  ∃ p1 d p2, props = p1 ++ (k, d) :: p2 ∧ (k ∉ p1.*1) ∧ (k ∉ p2.*1).
Proof.
  intros ([k' d] & -> & (p1 & p2 & ->)%list_elem_of_split)%list_elem_of_fmap Hnd.
  exists p1, d, p2. split; [done|].
  rewrite fmap_app, fmap_cons in Hnd. simpl in *.
  apply NoDup_app in Hnd as (_ & Hdisj & [Hk _]%NoDup_cons).
  split; [|done]. intros Hin. apply (Hdisj _ Hin), elem_of_cons. by left.
Qed.

Lemma fill_properties_cursor_moves fl props row i w row' i' w' e :
  fl !! (i `mod` length fl) = Some e →
  NoDup (props.*1) → "fasta_header_name" ∈ props.*1 →
  foldM (fill_property fl) (row, i) props w = Ok ((row', i'), w') →
  i' = S i ∧ dict_get row' "fasta_header_name" = Some (VStr e.2).
Proof.
  intros He Hnd Hin.
  destruct (elem_of_keys_split _ _ Hin Hnd) as (q1 & d & q2 & -> & Hq1 & Hq2).
  intros ([row1 i1] & w1 & H1 & Hfold)%foldM_app_Ok.
  apply foldM_cons_Ok in Hfold as ([row2 i2] & w2 & Hheader & H2).
  apply fill_properties_cursor_stays in H1 as ->; [|done].
  rewrite (fill_property_header _ _ _ _ _ _ He) in Hheader.
  injection Hheader as <- <- <-.
  rewrite (fill_properties_other _ _ _ _ _ _ _ _ _ Hq2 H2).
  apply fill_properties_cursor_stays in H2 as ->; [|done].
  by rewrite dict_get_set_eq.
Qed.

(** By how much the loop over the properties moves the cursor. *)
Lemma fill_properties_cursor fl props row i w row' i' w' :
  fl ≠ [] → NoDup (props.*1) →
  foldM (fill_property fl) (row, i) props w = Ok ((row', i'), w') →
  i' = i + (if decide ("fasta_header_name" ∈ props.*1) then 1 else 0).
Proof.
  intros Hfl Hnd Hfold. destruct (lookup_mod_is_Some fl i Hfl) as [e He].
  destruct (decide _) as [Hin|Hin].
  - destruct (fill_properties_cursor_moves _ _ _ _ _ _ _ _ _ He Hnd Hin Hfold) as [-> _]. lia.
  - rewrite (fill_properties_cursor_stays _ _ _ _ _ _ _ _ Hin Hfold). lia.
Qed.

(** The file field takes the file of the entry under the cursor at the
    moment the field is reached: one further when the header field was
    declared before it. *)
Lemma fill_properties_file fl p1 d p2 row i w row' i' w' :
  fl ≠ [] → NoDup ((p1 ++ ("fasta_file_name", d) :: p2).*1) →
  foldM (fill_property fl) (row, i) (p1 ++ ("fasta_file_name", d) :: p2) w
    = Ok ((row', i'), w') →
  ∃ e, fl !! ((i + (if decide ("fasta_header_name" ∈ p1.*1) then 1 else 0))
                `mod` length fl) = Some e ∧
       dict_get row' "fasta_file_name" = Some (VStr e.1).
Proof.
  intros Hfl Hnd.
  intros ([row1 i1] & w1 & H1 & Hfold)%foldM_app_Ok.
  apply foldM_cons_Ok in Hfold as ([row2 i2] & w2 & Hfile & H2).
  rewrite fmap_app, fmap_cons in Hnd. simpl in Hnd.
  apply NoDup_app in Hnd as (Hnd1 & _ & [Hk _]%NoDup_cons).
  apply fill_properties_cursor in H1 as ->; [|done..].
  destruct (lookup_mod_is_Some fl
              (i + (if decide ("fasta_header_name" ∈ p1.*1) then 1 else 0)) Hfl)
    as [e He].
  exists e. split; [done|].
  rewrite (fill_property_file _ _ _ _ _ _ He) in Hfile.
  injection Hfile as <- <- <-.
  rewrite (fill_properties_other _ _ _ _ _ _ _ _ _ Hk H2).
  by rewrite dict_get_set_eq.
Qed.

Lemma truthy_VStr s : s ≠ "" → truthy (VStr s) = true.
Proof. intros Hs. simpl. by rewrite bool_decide_eq_false_2. Qed.

(** One row: where its two header fields come from, and where the cursor
    is left. *)
Lemma generate_row_cursor s fl i w row i' w' :
  fl ≠ [] → NoDup ((properties s).*1) →
  generate_row s fl i w = Ok ((row, i'), w') →
  i' = i + (if decide ("fasta_header_name" ∈ (properties s).*1) then 1 else 0) ∧
  ("fasta_header_name" ∈ (properties s).*1 →
   ("fasta_header_name" ∈ required s → ∀ e, e ∈ fl → e.2 ≠ "") →
   ∃ e, fl !! (i `mod` length fl) = Some e ∧
        dict_get row "fasta_header_name" = Some (VStr e.2)) ∧
  (∀ p1 d p2, properties s = p1 ++ ("fasta_file_name", d) :: p2 →
   ("fasta_file_name" ∈ required s → ∀ e, e ∈ fl → e.1 ≠ "") →
   ∃ e, fl !! ((i + (if decide ("fasta_header_name" ∈ p1.*1) then 1 else 0))
                 `mod` length fl) = Some e ∧
        dict_get row "fasta_file_name" = Some (VStr e.1)).
Proof.
  intros Hfl Hnd. unfold generate_row.
  intros ([row1 i1] & w1 & Hfold & (row2 & w2 & Hreqs & [[= <- <-] _]%ret_Ok)%bind_Ok)%bind_Ok.
  simpl in Hreqs. split; [by eapply fill_properties_cursor|]. split.
  - intros Hin Hrh. destruct (lookup_mod_is_Some fl i Hfl) as [e He].
    exists e. split; [done|].
    destruct (fill_properties_cursor_moves _ _ _ _ _ _ _ _ _ He Hnd Hin Hfold) as [_ Hget].
    eapply fill_required_kept; [exact Hget| |exact Hreqs].
    intros Hreq. apply truthy_VStr, (Hrh Hreq). by eapply list_elem_of_lookup_2.
  - intros p1 d p2 Hprops Hrf. rewrite Hprops in Hfold, Hnd.
    destruct (fill_properties_file _ _ _ _ _ _ _ _ _ _ Hfl Hnd Hfold) as (e & He & Hget).
    exists e. split; [done|].
    eapply fill_required_kept; [exact Hget| |exact Hreqs].
    intros Hreq. apply truthy_VStr, (Hrf Hreq). by eapply list_elem_of_lookup_2.
Qed.

Lemma generate_rows_cursor s fl n i w rows w' :
  fl ≠ [] → NoDup ((properties s).*1) →
  generate_rows s fl n i w = Ok (rows, w') →
  ∀ k row, rows !! k = Some row →
    let step := if decide ("fasta_header_name" ∈ (properties s).*1) then 1 else 0 in
    ("fasta_header_name" ∈ (properties s).*1 →
     ("fasta_header_name" ∈ required s → ∀ e, e ∈ fl → e.2 ≠ "") →
     ∃ e, fl !! ((i + k * step) `mod` length fl) = Some e ∧
          dict_get row "fasta_header_name" = Some (VStr e.2)) ∧
    (∀ p1 d p2, properties s = p1 ++ ("fasta_file_name", d) :: p2 →
     ("fasta_file_name" ∈ required s → ∀ e, e ∈ fl → e.1 ≠ "") →
     ∃ e, fl !! ((i + k * step
                    + (if decide ("fasta_header_name" ∈ p1.*1) then 1 else 0))
                   `mod` length fl) = Some e ∧
          dict_get row "fasta_file_name" = Some (VStr e.1)).
Proof.
  intros Hfl Hnd. revert i w rows.
  induction n as [|n IH]; intros i w rows.
  - intros [<- _]%ret_Ok k row Hk. by rewrite lookup_nil in Hk.
  - change (generate_rows s fl (S n) i) with
      (bind (generate_row s fl i) (λ r,
         bind (generate_rows s fl n r.2) (λ data, ret (r.1 :: data)))).
    intros ([row0 i0] & w0 & Hrow & (data & w1 & Hdata & [<- <-]%ret_Ok)%bind_Ok)%bind_Ok.
    simpl in Hdata.
    destruct (generate_row_cursor _ _ _ _ _ _ _ Hfl Hnd Hrow) as (-> & Hh & Hf).
    intros [|k] row Hk step.
    + injection Hk as <-. replace (i + 0 * step) with i by lia. split; [done|].
      intros p1 d p2 Hp. exact (Hf p1 d p2 Hp).
    + change ((row0 :: data) !! S k) with (data !! k) in Hk.
      destruct (IH _ _ _ Hdata k row Hk) as [Hh' Hf'].
      fold step in Hh', Hf'.
      replace (i + S k * step) with (i + step + k * step) by lia.
      split; [done|]. intros p1 d p2 Hp. exact (Hf' p1 d p2 Hp).
Qed.

Lemma cursor_list_members fl (spread_evenly : bool) e :
  e ∈ (if spread_evenly && bool_decide (fl ≠ []) then interleave fl else fl) ↔ e ∈ fl.
Proof.
  destruct (spread_evenly && bool_decide (fl ≠ [])); [|done].
  by rewrite interleave_Permutation.
Qed.

Lemma cursor_list_nonempty fl (spread_evenly : bool) :
  fl ≠ [] →
  (if spread_evenly && bool_decide (fl ≠ []) then interleave fl else fl) ≠ [].
Proof.
  intros Hfl Hnil. destruct fl as [|e fl]; [done|].
  assert (e ∈ (if spread_evenly && bool_decide (e :: fl ≠ [])
               then interleave (e :: fl) else e :: fl)) as Hin.
  { apply cursor_list_members, elem_of_cons. by left. }
  rewrite Hnil in Hin. by apply elem_of_nil in Hin.
Qed.

(** *** Key order *)

Lemma dict_set_key_order {V} (d : list (string * V)) k v :
  (dict_set d k v).*1 = if decide (k ∈ d.*1) then d.*1 else d.*1 ++ [k].
Proof.
  induction d as [|[k' v'] d IH]; [done|].
  cbn [dict_set]. destruct (decide (k' = k)) as [->|Hne].
  - rewrite !fmap_cons. cbn [fst].
    by rewrite decide_True by (apply elem_of_cons; by left).
  - rewrite !fmap_cons, IH. cbn [fst]. destruct (decide (k ∈ d.*1)) as [Hin|Hin].
    + by rewrite decide_True by (apply elem_of_cons; by right).
    + rewrite decide_False; [done|].
      intros [?|?]%elem_of_cons; [by apply Hne|done].
Qed.

Lemma fill_properties_key_order fl props row i w row' i' w' :
  NoDup (row.*1 ++ props.*1) →
  foldM (fill_property fl) (row, i) props w = Ok ((row', i'), w') →
  row'.*1 = row.*1 ++ props.*1.
Proof.
  revert row i w. induction props as [|[k pd] props IH]; intros row i w Hnd.
  - intros [[= <- <-] _]%ret_Ok. by rewrite app_nil_r.
  - intros ([row1 i1] & w1 & Hstep & Hrest)%foldM_cons_Ok.
    apply fill_property_Ok in Hstep as (v & -> & _).
    rewrite fmap_cons in Hnd. simpl in Hnd.
    assert (k ∉ row.*1) as Hk.
    { apply NoDup_app in Hnd as (_ & Hdisj & _). intros Hin.
      apply (Hdisj _ Hin), elem_of_cons. by left. }
    assert ((dict_set row k v).*1 = row.*1 ++ [k]) as Hkeys.
    { by rewrite dict_set_key_order, decide_False. }
    assert (NoDup ((dict_set row k v).*1 ++ props.*1)) as Hnd'.
    { rewrite Hkeys, <- app_assoc. exact Hnd. }
    rewrite (IH _ _ _ Hnd' Hrest), Hkeys, fmap_cons. by rewrite <- app_assoc.
Qed.

Lemma fill_required_key_order props reqs row w row' w' :
  (∀ req, req ∈ reqs → req ∈ row.*1) →
  foldM (fill_required props) row reqs w = Ok (row', w') →
  row'.*1 = row.*1.
Proof.
  revert row w. induction reqs as [|r reqs IH]; intros row w Hsub.
  - by intros [<- _]%ret_Ok.
  - intros (row1 & w1 & Hstep & Hrest)%foldM_cons_Ok.
    assert (row1.*1 = row.*1) as Hkeys.
    { apply fill_required_Ok in Hstep as [[-> _]|(v1 & w0 & w0' & _ & -> & _)]; [done|].
      rewrite dict_set_key_order, decide_True; [done|].
      apply Hsub, elem_of_cons. by left. }
    rewrite <- Hkeys. apply (IH _ _) in Hrest; [done|].
    intros req Hin. rewrite Hkeys. apply Hsub, elem_of_cons. by right.
Qed.

Lemma generate_row_key_order s fl i w row i' w' :
  NoDup ((properties s).*1) →
  (∀ req, req ∈ required s → req ∈ (properties s).*1) →
  generate_row s fl i w = Ok ((row, i'), w') →
  row.*1 = (properties s).*1.
Proof.
  intros Hnd Hsub. unfold generate_row.
  intros ([row1 i1] & w1 & Hfold & (row2 & w2 & Hreqs & [[= <- <-] _]%ret_Ok)%bind_Ok)%bind_Ok.
  simpl in Hreqs.
  apply fill_properties_key_order in Hfold; [|done]. simpl in Hfold.
  apply fill_required_key_order in Hreqs as ->; [done|].
  intros req Hreq. rewrite Hfold. by apply Hsub.
Qed.

Lemma generate_dummy_data_cursor s N fl (spread_evenly : bool) w :
  NoDup ((properties s).*1) → schema_ok s → fl ≠ [] →
  let cursor_list := if spread_evenly then interleave fl else fl in
  let step := if decide ("fasta_header_name" ∈ (properties s).*1) then 1 else 0 in
  ∃ rows,
    value_of (generate_dummy_data s N fl spread_evenly w) = Ok rows ∧
    length rows = Z.to_nat N ∧
    ∀ k row, rows !! k = Some row →
      ("fasta_header_name" ∈ (properties s).*1 →
       ("fasta_header_name" ∈ required s → ∀ e, e ∈ fl → e.2 ≠ "") →
       ∃ e, cursor_list !! ((k * step) `mod` length cursor_list) = Some e ∧
            e ∈ fl ∧ dict_get row "fasta_header_name" = Some (VStr e.2)) ∧
      (∀ p1 d p2, properties s = p1 ++ ("fasta_file_name", d) :: p2 →
       ("fasta_file_name" ∈ required s → ∀ e, e ∈ fl → e.1 ≠ "") →
       ∃ e, cursor_list !! ((k * step
                               + (if decide ("fasta_header_name" ∈ p1.*1) then 1 else 0))
                              `mod` length cursor_list) = Some e ∧
            e ∈ fl ∧ dict_get row "fasta_file_name" = Some (VStr e.1)).
Proof.
  intros Hnd Hok Hfl cursor_list step. unfold generate_dummy_data.
  rewrite (bool_decide_eq_true_2 _ Hfl), andb_true_r. fold cursor_list.
  assert (∀ e, e ∈ cursor_list ↔ e ∈ fl) as Hmem.
  { intros e. unfold cursor_list. destruct spread_evenly; [|done].
    by rewrite interleave_Permutation. }
  assert (cursor_list ≠ []) as Hne.
  { intros Hnil. destruct fl as [|e fl]; [done|].
    assert (e ∈ cursor_list) as Hin by (apply Hmem, elem_of_cons; by left).
    rewrite Hnil in Hin. by apply elem_of_nil in Hin. }
  destruct (generate_rows_total s cursor_list (Z.to_nat N) 0 w Hok) as (rows & w' & Hrun).
  exists rows. rewrite Hrun. split; [done|]. split.
  { by apply (generate_rows_Ok _ _ _ _ _ _ _ (λ _, True)) in Hrun as [? _]. }
  intros k row Hk.
  destruct (generate_rows_cursor s cursor_list _ _ _ _ _ Hne Hnd Hrun k row Hk)
    as [Hh Hf].
  fold step in Hh, Hf. split.
  - intros Hin Hrh.
    destruct (Hh Hin (λ Hreq e He, Hrh Hreq e (proj1 (Hmem e) He))) as (e & He & Hget).
    exists e. split; [done|]. split; [|done].
    apply Hmem. by eapply list_elem_of_lookup_2.
  - intros p1 d p2 Hp Hrf.
    destruct (Hf p1 d p2 Hp (λ Hreq e He, Hrf Hreq e (proj1 (Hmem e) He)))
      as (e & He & Hget).
    exists e. split; [done|]. split; [|done].
    apply Hmem. by eapply list_elem_of_lookup_2.
Qed.

Lemma elem_of_keys_middle {V} (p1 p2 : list (string * V)) k d :
  k ∈ (p1 ++ (k, d) :: p2).*1.
Proof. rewrite fmap_app, fmap_cons. apply elem_of_app. right. apply elem_of_cons. by left. Qed.

Lemma generate_dummy_data_file_first (s : schema) (N : Z)
    (fasta_list : list entry) (spread_evenly : bool) (w : runtime)
    (p1 p2 p3 : list (string * prop_details)) (d1 d2 : prop_details) :
  properties s =
    p1 ++ ("fasta_file_name", d1) :: p2 ++ ("fasta_header_name", d2) :: p3 →
  NoDup ((properties s).*1) → schema_ok s → fasta_list ≠ [] →
  ("fasta_file_name" ∈ required s → ∀ e, e ∈ fasta_list → e.1 ≠ "") →
  ("fasta_header_name" ∈ required s → ∀ e, e ∈ fasta_list → e.2 ≠ "") →
  let cursor_list := if spread_evenly then interleave fasta_list else fasta_list in
  ∃ rows,
    value_of (generate_dummy_data s N fasta_list spread_evenly w) = Ok rows ∧
    length rows = Z.to_nat N ∧
    ∀ k row, rows !! k = Some row →
      ∃ e, cursor_list !! (k `mod` length cursor_list) = Some e ∧
           e ∈ fasta_list ∧
           dict_get row "fasta_file_name" = Some (VStr e.1) ∧
           dict_get row "fasta_header_name" = Some (VStr e.2).
Proof.
  intros Hprops Hnd Hok Hfl Hrf Hrh cursor_list.
  destruct (generate_dummy_data_cursor s N fasta_list spread_evenly w
              Hnd Hok Hfl) as (rows & Hrun & Hlen & Hrows).
  exists rows. split; [done|]. split; [done|]. intros k row Hk.
  destruct (Hrows k row Hk) as [Hh Hf]. fold cursor_list in Hh, Hf.
  assert ("fasta_header_name" ∈ (properties s).*1) as Hin.
  { rewrite Hprops, app_comm_cons, app_assoc. apply elem_of_keys_middle. }
  rewrite decide_True in Hh, Hf by done.
  assert ("fasta_header_name" ∉ p1.*1) as Hnot.
  { rewrite Hprops, app_comm_cons, app_assoc, fmap_app, fmap_cons in Hnd.
    apply NoDup_app in Hnd as (_ & Hdisj & _). intros Hp1.
    apply (Hdisj "fasta_header_name"); [|apply elem_of_cons; by left].
    rewrite fmap_app. apply elem_of_app. by left. }
  destruct (Hh Hin Hrh) as (e & He & _ & Hheader).
  destruct (Hf _ _ _ Hprops Hrf) as (e' & He' & Hmem & Hfile).
  rewrite decide_False in He' by done.
  rewrite Nat.mul_1_r in He. rewrite Nat.mul_1_r, Nat.add_0_r in He'.
  assert (e' = e) as -> by congruence.
  by exists e.
Qed.

End cursor_more.

Section claims_spread.
Import Examples ExamplesMore.
Local Open Scope py_scope.

(** C4. With spreading enabled the header list is rebuilt exactly as the
    specification says: the entries are grouped by file name, the file
    names are sorted, and round after round the next entry of every group
    that still has one is taken ([interleave] equals [spec_interleave]).
    For three files with 3, 3 and 2 entries (in sorted file order) the
    eight interleaved entries visit the files in the order
    1 2 3, 1 2 3, 1 2: round-robin until the file with two entries is
    exhausted, then the remaining two files in turn.
    [generate_dummy_data] called with [spread_evenly] set generates its
    rows from that rebuilt list: on every schema, row count and run it
    is the row loop started at cursor 0 on [spec_interleave fasta_list],
    and on a schema that declares the file field before the header
    field, row [k] holds the file and the header of the entry at
    position [k] modulo the length of the rebuilt list. *)
Theorem C4_interleave_round_robin (fasta_list : list entry) :
  interleave fasta_list = spec_interleave fasta_list ∧
  (∀ f1 f2 f3,
     sorted (remove_dups (fasta_list.*1)) = [f1; f2; f3] →
     length (group_of f1 fasta_list) = 3 →
     length (group_of f2 fasta_list) = 3 →
     length (group_of f3 fasta_list) = 2 →
     (interleave fasta_list).*1 = [f1; f2; f3; f1; f2; f3; f1; f2]) ∧
  (∀ (s : schema) (N : Z) (w : runtime),
     generate_dummy_data s N fasta_list true w
       = generate_rows s (spec_interleave fasta_list) (Z.to_nat N) 0 w) ∧
  (∀ (s : schema) (N : Z) (w : runtime)
     (p1 p2 p3 : list (string * prop_details)) (d1 d2 : prop_details),
     properties s =
       p1 ++ ("fasta_file_name", d1) :: p2 ++ ("fasta_header_name", d2) :: p3 →
     NoDup ((properties s).*1) → schema_ok s → fasta_list ≠ [] →
     ("fasta_file_name" ∈ required s → ∀ e, e ∈ fasta_list → e.1 ≠ "") →
     ("fasta_header_name" ∈ required s → ∀ e, e ∈ fasta_list → e.2 ≠ "") →
     ∃ rows,
       value_of (generate_dummy_data s N fasta_list true w) = Ok rows ∧
       length rows = Z.to_nat N ∧
       ∀ k row, rows !! k = Some row →
         ∃ e, spec_interleave fasta_list !! (k `mod` length fasta_list) = Some e ∧
              dict_get row "fasta_file_name" = Some (VStr e.1) ∧
              dict_get row "fasta_header_name" = Some (VStr e.2)).
Proof.
  pose proof (interleave_refines_spec fasta_list) as Hspec.
  split; [exact Hspec|]. split.
  { intros f1 f2 f3. apply interleave_3_3_2. }
  split.
  { intros s N w. unfold generate_dummy_data. rewrite andb_true_l.
    destruct fasta_list as [|e fl].
    - rewrite bool_decide_eq_false_2 by (intros H; by apply H).
      rewrite <- Hspec. reflexivity.
    - rewrite bool_decide_eq_true_2 by done. by rewrite Hspec. }
  intros s N w p1 p2 p3 d1 d2 Hprops Hnd Hok Hfl Hrf Hrh.
  destruct (generate_dummy_data_file_first s N fasta_list true w
              p1 p2 p3 d1 d2 Hprops Hnd Hok Hfl Hrf Hrh)
    as (rows & Hrun & Hlen & Hrows).
  exists rows. split; [done|]. split; [done|]. intros k row Hk.
  destruct (Hrows k row Hk) as (e & He & _ & Hfile & Hheader).
  exists e. split; [|done].
  rewrite <- Hspec, <- (Permutation_length (interleave_Permutation fasta_list)).
  exact He.
Qed.

Lemma C4_witness :
  (interleave entries_3_3_2).*1 =
    ["a.fasta"; "b.fasta"; "c.fasta"; "a.fasta"; "b.fasta"; "c.fasta";
     "a.fasta"; "b.fasta"] ∧
  ∃ rows,
    value_of (generate_dummy_data file_first 8 entries_3_3_2 true w0) = Ok rows ∧
    length rows = Z.to_nat 8 ∧
    ∀ k row, rows !! k = Some row →
      ∃ e, spec_interleave entries_3_3_2 !! (k `mod` length entries_3_3_2) = Some e ∧
           dict_get row "fasta_file_name" = Some (VStr e.1) ∧
           dict_get row "fasta_header_name" = Some (VStr e.2).
Proof.
  split.
  - apply (proj1 (proj2 (C4_interleave_round_robin entries_3_3_2))
             "a.fasta" "b.fasta" "c.fasta"); vm_compute; reflexivity.
  - apply (proj2 (proj2 (proj2 (C4_interleave_round_robin entries_3_3_2)))
             file_first 8%Z w0
             [("sample_id", details "string")] [] [] (details "string") (details "string")).
    + reflexivity.
    + apply (bool_decide_unpack _). vm_compute. exact I.
    + by repeat constructor.
    + discriminate.
    + intros _. apply (proj1 (Forall_forall (λ e : entry, e.1 ≠ "") entries_3_3_2)).
      repeat (apply Forall_cons_2; [done|]). apply Forall_nil_2.
    + intros _. apply (proj1 (Forall_forall (λ e : entry, e.2 ≠ "") entries_3_3_2)).
      repeat (apply Forall_cons_2; [done|]). apply Forall_nil_2.
Defined.

End claims_spread.

Section extras_cursor.
Import Examples ExamplesMore.
Local Open Scope py_scope.

(** X13. With the file field declared before the header field, row [k]
    takes both from one entry: the entry at position [k] modulo the
    length of the list the cursor runs over (the interleaved list when
    spreading is enabled).  So the pair written to a row is always an
    entry of the header list, and the rows go through the list in order,
    wrapping around at its end. *)
Theorem X13_file_first_rows_follow_cursor (s : schema) (N : Z)
    (fasta_list : list entry) (spread_evenly : bool) (w : runtime)
    (p1 p2 p3 : list (string * prop_details)) (d1 d2 : prop_details) :
  properties s =
    p1 ++ ("fasta_file_name", d1) :: p2 ++ ("fasta_header_name", d2) :: p3 →
  NoDup ((properties s).*1) → schema_ok s → fasta_list ≠ [] →
  ("fasta_file_name" ∈ required s → ∀ e, e ∈ fasta_list → e.1 ≠ "") →
  ("fasta_header_name" ∈ required s → ∀ e, e ∈ fasta_list → e.2 ≠ "") →
  let cursor_list := if spread_evenly then interleave fasta_list else fasta_list in
  ∃ rows,
    value_of (generate_dummy_data s N fasta_list spread_evenly w) = Ok rows ∧
    length rows = Z.to_nat N ∧
    ∀ k row, rows !! k = Some row →
      ∃ e, cursor_list !! (k `mod` length cursor_list) = Some e ∧
           e ∈ fasta_list ∧
           dict_get row "fasta_file_name" = Some (VStr e.1) ∧
           dict_get row "fasta_header_name" = Some (VStr e.2).
Proof.
  intros Hprops Hnd Hok Hfl Hrf Hrh.
  exact (generate_dummy_data_file_first s N fasta_list spread_evenly w
           p1 p2 p3 d1 d2 Hprops Hnd Hok Hfl Hrf Hrh).
Qed.

Lemma X13_witness :
  ∃ rows,
    value_of (generate_dummy_data file_first 5 entries_3_3_2 true w0) = Ok rows ∧
    length rows = Z.to_nat 5 ∧
    ∀ k row, rows !! k = Some row →
      ∃ e, interleave entries_3_3_2 !! (k `mod` length (interleave entries_3_3_2))
             = Some e ∧
           e ∈ entries_3_3_2 ∧
           dict_get row "fasta_file_name" = Some (VStr e.1) ∧
           dict_get row "fasta_header_name" = Some (VStr e.2).
Proof.
  apply (X13_file_first_rows_follow_cursor file_first 5 entries_3_3_2 true w0
           [("sample_id", details "string")] [] [] (details "string") (details "string")).
  - reflexivity.
  - apply (bool_decide_unpack _). vm_compute. exact I.
  - by repeat constructor.
  - discriminate.
  - intros _. apply (proj1 (Forall_forall (λ e : entry, e.1 ≠ "") entries_3_3_2)).
    repeat (apply Forall_cons_2; [done|]). apply Forall_nil_2.
  - intros _. apply (proj1 (Forall_forall (λ e : entry, e.2 ≠ "") entries_3_3_2)).
    repeat (apply Forall_cons_2; [done|]). apply Forall_nil_2.
Defined.


(** X14. With the header field declared before the file field the two
    are read on either side of the cursor's advance: row [k] holds the
    header of entry [k] and the file of entry [k + 1] (both modulo the
    length of the cursor's list), which need not be the file of that
    header. *)
Theorem X14_header_first_rows_straddle_cursor (s : schema) (N : Z)
    (fasta_list : list entry) (spread_evenly : bool) (w : runtime)
    (p1 p2 p3 : list (string * prop_details)) (d1 d2 : prop_details) :
  properties s =
    p1 ++ ("fasta_header_name", d2) :: p2 ++ ("fasta_file_name", d1) :: p3 →
  NoDup ((properties s).*1) → schema_ok s → fasta_list ≠ [] →
  ("fasta_file_name" ∈ required s → ∀ e, e ∈ fasta_list → e.1 ≠ "") →
  ("fasta_header_name" ∈ required s → ∀ e, e ∈ fasta_list → e.2 ≠ "") →
  let cursor_list := if spread_evenly then interleave fasta_list else fasta_list in
  ∃ rows,
    value_of (generate_dummy_data s N fasta_list spread_evenly w) = Ok rows ∧
    length rows = Z.to_nat N ∧
    ∀ k row, rows !! k = Some row →
      ∃ e_header e_file,
        cursor_list !! (k `mod` length cursor_list) = Some e_header ∧
        cursor_list !! (S k `mod` length cursor_list) = Some e_file ∧
        dict_get row "fasta_header_name" = Some (VStr e_header.2) ∧
        dict_get row "fasta_file_name" = Some (VStr e_file.1).
Proof.
  intros Hprops Hnd Hok Hfl Hrf Hrh cursor_list.
  destruct (generate_dummy_data_cursor s N fasta_list spread_evenly w
              Hnd Hok Hfl) as (rows & Hrun & Hlen & Hrows).
  exists rows. split; [done|]. split; [done|]. intros k row Hk.
  destruct (Hrows k row Hk) as [Hh Hf]. fold cursor_list in Hh, Hf.
  assert ("fasta_header_name" ∈ (properties s).*1) as Hin.
  { rewrite Hprops. apply elem_of_keys_middle. }
  rewrite decide_True in Hh, Hf by done.
  destruct (Hh Hin Hrh) as (e & He & _ & Hheader).
  rewrite Hprops, app_comm_cons, app_assoc in Hf.
  destruct (Hf _ _ _ eq_refl Hrf) as (e' & He' & _ & Hfile).
  rewrite decide_True in He' by apply elem_of_keys_middle.
  rewrite Nat.mul_1_r in He. rewrite Nat.mul_1_r, Nat.add_1_r in He'.
  by exists e, e'.
Qed.

Lemma X14_witness :
  ∃ rows,
    value_of (generate_dummy_data header_first 3 two_entries false w0) = Ok rows ∧
    length rows = Z.to_nat 3 ∧
    ∀ k row, rows !! k = Some row →
      ∃ e_header e_file,
        two_entries !! (k `mod` length two_entries) = Some e_header ∧
        two_entries !! (S k `mod` length two_entries) = Some e_file ∧
        dict_get row "fasta_header_name" = Some (VStr e_header.2) ∧
        dict_get row "fasta_file_name" = Some (VStr e_file.1).
Proof.
  apply (X14_header_first_rows_straddle_cursor header_first 3 two_entries false w0
           [] [] [] (details "string") (details "string")).
  - reflexivity.
  - apply (bool_decide_unpack _). vm_compute. exact I.
  - by repeat constructor.
  - discriminate.
  - intros Hreq. by apply elem_of_nil in Hreq.
  - intros Hreq. by apply elem_of_nil in Hreq.
Defined.

(** X15. When the schema declares the file field but no header field,
    the cursor never advances: every row names the file of the first
    entry of the cursor's list, however many rows are generated and
    whether or not spreading is enabled.  (When the file field is also
    required the file names of the entries are taken to be non-empty:
    an empty one would be replaced by a generated value.) *)
Theorem X15_cursor_stuck_without_header_field (s : schema) (N : Z)
    (fasta_list : list entry) (spread_evenly : bool) (w : runtime) :
  "fasta_file_name" ∈ (properties s).*1 →
  "fasta_header_name" ∉ (properties s).*1 →
  NoDup ((properties s).*1) → schema_ok s → fasta_list ≠ [] →
  ("fasta_file_name" ∈ required s → ∀ e, e ∈ fasta_list → e.1 ≠ "") →
  let cursor_list := if spread_evenly then interleave fasta_list else fasta_list in
  ∃ rows e,
    value_of (generate_dummy_data s N fasta_list spread_evenly w) = Ok rows ∧
    length rows = Z.to_nat N ∧
    cursor_list !! 0 = Some e ∧
    Forall (λ row, dict_get row "fasta_file_name" = Some (VStr e.1)) rows.
Proof.
  intros Hfile Hheader Hnd Hok Hfl Hrf cursor_list.
  destruct (elem_of_keys_split _ _ Hfile Hnd) as (p1 & d & p2 & Hprops & _ & _).
  assert ("fasta_header_name" ∉ p1.*1) as Hp1.
  { intros Hin. apply Hheader. rewrite Hprops, fmap_app. apply elem_of_app. by left. }
  destruct (generate_dummy_data_cursor s N fasta_list spread_evenly w
              Hnd Hok Hfl) as (rows & Hrun & Hlen & Hrows).
  fold cursor_list in Hrows.
  assert (cursor_list ≠ []) as Hne.
  { unfold cursor_list. destruct spread_evenly; [|done].
    intros Hnil. apply Hfl, Permutation_nil_r. by rewrite <- Hnil, interleave_Permutation. }
  destruct cursor_list as [|e l] eqn:Hl; [done|].
  exists rows, e. split; [done|]. split; [done|]. split; [done|].
  apply Forall_lookup. intros k row Hk.
  destruct (Hrows k row Hk) as [_ Hf].
  destruct (Hf _ _ _ Hprops Hrf) as (e' & He' & _ & Hget).
  rewrite (decide_False (P := "fasta_header_name" ∈ (properties s).*1)) in He' by done.
  rewrite (decide_False (P := "fasta_header_name" ∈ p1.*1)) in He' by done.
  rewrite Nat.mul_0_r, Nat.add_0_r, Nat.Div0.mod_0_l in He'.
  by injection He' as <-.
Qed.

Lemma X15_witness :
  ∃ rows e,
    value_of (generate_dummy_data file_only 4 entries_3_3_2 true w0) = Ok rows ∧
    length rows = Z.to_nat 4 ∧
    interleave entries_3_3_2 !! 0 = Some e ∧
    Forall (λ row, dict_get row "fasta_file_name" = Some (VStr e.1)) rows.
Proof.
  apply (X15_cursor_stuck_without_header_field file_only 4 entries_3_3_2 true w0).
  - apply (bool_decide_unpack _). vm_compute. exact I.
  - apply (bool_decide_unpack _). vm_compute. exact I.
  - apply (bool_decide_unpack _). vm_compute. exact I.
  - by repeat constructor.
  - discriminate.
  - intros _. apply (proj1 (Forall_forall (λ e : entry, e.1 ≠ "") entries_3_3_2)).
    repeat (apply Forall_cons_2; [done|]). apply Forall_nil_2.
Defined.

(** X16. When the property names are distinct and every required name
    is a declared property, every generated row lists its keys in the
    order of the schema's properties: the required-field pass adds no
    key and moves none. *)
Theorem X16_rows_keep_schema_order (s : schema) (N : Z)
    (fasta_list : list entry) (spread_evenly : bool) (w : runtime)
    (rows : list Row) :
  NoDup ((properties s).*1) →
  (∀ req, req ∈ required s → req ∈ (properties s).*1) →
  value_of (generate_dummy_data s N fasta_list spread_evenly w) = Ok rows →
  Forall (λ row, row.*1 = (properties s).*1) rows.
Proof.
  intros Hnd Hsub [w' Hrun]%value_of_Ok. unfold generate_dummy_data in Hrun.
  eapply (generate_rows_Ok _ _ _ _ _ _ _ (λ row, row.*1 = (properties s).*1)); [|exact Hrun].
  intros i w1 row i' w1' Hrow. by eapply generate_row_key_order.
Qed.

Lemma X16_witness :
  Forall (λ row, row.*1 = (properties file_first).*1) file_first_rows.
Proof.
  apply (X16_rows_keep_schema_order file_first 2 two_entries true w0).
  - apply (bool_decide_unpack _). vm_compute. exact I.
  - intros req Hreq. exact Hreq.
  - vm_compute. reflexivity.
Defined.

End extras_cursor.

Section main_more.
Local Open Scope py_scope.

Lemma create_randomized_fasta_files_total files w :
  (files = [] ∧ create_randomized_fasta_files files w = Ok ((None, []), w)) ∨
  (files ≠ [] ∧ ∃ temp_dir file_mapping w',
     create_randomized_fasta_files files w = Ok ((Some temp_dir, file_mapping), w') ∧
     foldM process_fasta_file (∅, []) (merge_sort sf_le files) w
       = Ok ((temp_dir, file_mapping), w')).
Proof.
  destruct files as [|f files]; [by left|]. right. split; [done|].
  unfold create_randomized_fasta_files.
  destruct (merge_sort sf_le (f :: files)) as [|f0 sorted_files] eqn:Hsort.
  { by apply merge_sort_nil_iff in Hsort. }
  destruct (process_all_total (f0 :: sorted_files) (∅, []) w) as ([td fm] & w' & Hrun).
  exists td, fm, w'. split; [|done].
  by rewrite (bind_run _ _ _ _ _ Hrun).
Qed.

Lemma headers_of_lines_elim new_name lines e :
  e ∈ headers_of_lines new_name lines →
  ∃ line, line ∈ lines ∧ startswith_gt (strip line) = true ∧
    e = (new_name, drop_first (strip line)).
Proof.
  unfold headers_of_lines. intros (line & He & Hline)%list_elem_of_bind.
  exists line. split; [done|].
  destruct (startswith_gt (strip line)); [|by apply elem_of_nil in He].
  split; [done|]. by apply list_elem_of_singleton in He.
Qed.

Lemma anonymized_without_headers lines modified :
  Forall2 anonymized_line lines modified →
  Forall (λ line, startswith_gt line = false) lines → modified = lines.
Proof.
  induction 1 as [|line m lines modified Hm _ IH]; [done|].
  intros [Hline Hrest]%Forall_cons. unfold anonymized_line in Hm.
  rewrite Hline in Hm. subst m. by rewrite IH.
Qed.

Lemma startswith_gt_strip_false line :
  startswith_gt (strip line) = false → startswith_gt line = false.
Proof.
  intros Hs. destruct (startswith_gt line) eqn:Hgt; [|done].
  apply startswith_gt_strip in Hgt. congruence.
Qed.

(** Sources without any header line leave nothing to extract. *)
Lemma no_headers_extracted files w temp_dir file_mapping w' :
  foldM process_fasta_file (∅, []) files w = Ok ((temp_dir, file_mapping), w') →
  (∀ f lines line, f ∈ files → sf_lines f = Some lines → line ∈ lines →
     startswith_gt (strip line) = false) →
  extract_headers_from_temp_dir temp_dir file_mapping = [].
Proof.
  intros (_ & _ & Hcontent)%process_all_shape Hnone.
  destruct (extract_headers_from_temp_dir temp_dir file_mapping) as [|e l] eqn:Hfull;
    [done|].
  assert (e ∈ extract_headers_from_temp_dir temp_dir file_mapping) as He.
  { rewrite Hfull. apply elem_of_cons. by left. }
  apply extract_headers_source in He as (modified & Hget & He & _).
  destruct (Hcontent _ _ Hget) as (_ & f & lines & Hf & Hlines & Hrel).
  apply anonymized_without_headers in Hrel as ->.
  - apply headers_of_lines_elim in He as (line & Hline & Hgt & _).
    rewrite (Hnone f lines line Hf Hlines Hline) in Hgt. done.
  - apply Forall_forall. intros line Hline.
    apply startswith_gt_strip_false. by eapply Hnone.
Qed.

Lemma main_try_no_entries a s faults temp_dir file_mapping w :
  extract_headers_from_temp_dir temp_dir file_mapping = [] →
  main_try a s faults temp_dir file_mapping w
    = (Returned, FileSystem (Some temp_dir) None None).
Proof. intros Hfull. unfold main_try. by rewrite Hfull. Qed.

Lemma main_try_no_rows a s faults temp_dir file_mapping w :
  (num_rows a ≤ 0)%Z →
  main_try a s faults temp_dir file_mapping w
    = (Returned, FileSystem (Some temp_dir) None None).
Proof.
  intros Hrows. unfold main_try.
  destruct (extract_headers_from_temp_dir temp_dir file_mapping) as [|e l]; [done|].
  unfold generate_dummy_data.
  replace (Z.to_nat (num_rows a)) with 0 by lia. done.
Qed.

Lemma main_run a s files faults w temp_dir file_mapping w' :
  create_randomized_fasta_files files w = Ok ((Some temp_dir, file_mapping), w') →
  main a s files faults w =
    ((main_try a s faults temp_dir file_mapping w').1,
     rmtree_scratch (main_try a s faults temp_dir file_mapping w').2).
Proof.
  intros Hrun. unfold main. rewrite Hrun.
  by destruct (main_try a s faults temp_dir file_mapping w').
Qed.

End main_more.

Section extras_main.
Import Examples ExamplesMore.
Local Open Scope py_scope.

(** X17. The runs that end early: with no source file, with a row count
    of zero or less, or with sources that hold no header line, [main]
    returns normally, whatever the schema and the I/O faults, and leaves
    neither an archive nor a temporary table nor the scratch directory
    behind. *)
Theorem X17_main_early_exits (a : args) (s : schema)
    (fasta_files : list source_file) (faults : io_faults) (w : runtime) :
  fasta_files = [] ∨
  (num_rows a ≤ 0)%Z ∨
  (∀ f lines line, f ∈ fasta_files → sf_lines f = Some lines → line ∈ lines →
     startswith_gt (strip line) = false) →
  main a s fasta_files faults w = (Returned, FileSystem None None None).
Proof.
  intros Hcase.
  destruct (create_randomized_fasta_files_total fasta_files w)
    as [[-> Hrun]|(Hne & td & fm & w' & Hrun & Hfold)].
  { unfold main. by rewrite Hrun. }
  rewrite (main_run _ _ _ _ _ _ _ _ Hrun).
  destruct Hcase as [->|[Hrows|Hnone]]; [done| |].
  - by rewrite main_try_no_rows.
  - rewrite main_try_no_entries; [done|].
    eapply no_headers_extracted; [exact Hfold|].
    intros f lines line Hf. apply Hnone.
    by rewrite merge_sort_Permutation in Hf.
Qed.

Lemma X17_witness :
  main (Args 0 None "generated_data.tsv") file_first two_sources zip_open_fault w0
    = (Returned, FileSystem None None None).
Proof.
  apply (X17_main_early_exits (Args 0 None "generated_data.tsv") file_first
           two_sources zip_open_fault w0).
  right. left. simpl. lia.
Defined.

End extras_main.

Section archive_more.
Local Open Scope py_scope.

Lemma headers_of_anonymized_line new_name lines modified e :
  Forall2 anonymized_line lines modified →
  Forall (λ line, startswith_gt (strip line) = true → startswith_gt line = true)
    lines →
  e ∈ headers_of_lines new_name modified →
  ">" +:+ e.2 +:+ newline ∈ modified ∧ String.length e.2 = 20.
Proof.
  intros Hrel Hcol (m & Hm & Hgt & ->)%headers_of_lines_elim.
  apply list_elem_of_lookup_1 in Hm as [i Hi].
  destruct (Forall2_lookup_r _ _ _ _ _ Hrel Hi) as (line & Hline & Hanon).
  unfold anonymized_line in Hanon.
  destruct (startswith_gt line) eqn:Hsrc.
  - destruct Hanon as (s & -> & Hlen & Hs).
    rewrite strip_random_header by done. simpl. split; [|done].
    by eapply list_elem_of_lookup_2.
  - subst m. rewrite Forall_forall in Hcol.
    rewrite (Hcol line) in Hsrc; [done| |done].
    by eapply list_elem_of_lookup_2.
Qed.

Lemma random_name_nonempty name : random_name name → name ≠ "".
Proof.
  intros (s & -> & Hlen & _) Hnil.
  apply (f_equal String.length) in Hnil.
  rewrite string_app_length, Hlen in Hnil. done.
Qed.

(** What an extracted entry says about the scratch directory, when no
    source line has whitespace before the marker. *)
Lemma extracted_entry_shape files w temp_dir file_mapping w' e :
  foldM process_fasta_file (∅, []) files w = Ok ((temp_dir, file_mapping), w') →
  (∀ f lines line, f ∈ files → sf_lines f = Some lines → line ∈ lines →
     startswith_gt (strip line) = true → startswith_gt line = true) →
  e ∈ extract_headers_from_temp_dir temp_dir file_mapping →
  ∃ modified, temp_dir !! e.1 = Some modified ∧
    ">" +:+ e.2 +:+ newline ∈ modified ∧
    String.length e.2 = 20 ∧ random_name e.1.
Proof.
  intros (_ & Hnames & Hcontent)%process_all_shape Hcol
         (modified & Hget & He & Hin)%extract_headers_source.
  destruct (Hcontent _ _ Hget) as (_ & f & lines & Hf & Hlines & Hrel).
  destruct (headers_of_anonymized_line e.1 lines modified e Hrel) as [Hline Hlen];
    [|done|].
  { apply Forall_forall. intros line Hline. by eapply Hcol. }
  exists modified. split; [done|]. split; [done|]. split; [done|].
  rewrite Forall_forall in Hnames. by apply Hnames.
Qed.

Lemma selected_in_scratch a temp_dir file_mapping :
  Forall (λ f, is_Some (temp_dir !! f))
    (selected_files_of a (extract_headers_from_temp_dir temp_dir file_mapping)).
Proof.
  apply Forall_forall. intros f Hf%selected_files_available.
  apply list_elem_of_fmap in Hf as (e & -> & He).
  by apply extract_headers_elim in He as [_ ?].
Qed.

Lemma zip_members_fasta a table selected (temp_dir : gmap string (list string)) f lines :
  f ∈ selected → temp_dir !! f = Some lines →
  (f, ZipFasta lines) ∈ zip_members a table selected temp_dir.
Proof.
  intros Hf Hget. unfold zip_members. apply elem_of_cons. right.
  apply list_elem_of_bind. exists f. split; [|done].
  rewrite Hget. apply elem_of_cons. by left.
Qed.

(** The sequence members of the archive: one per selected file, under
    its randomized name, with the lines of the scratch copy. *)
Lemma zip_members_tail (selected : list string) (temp_dir : gmap string (list string)) :
  Forall (λ f, is_Some (temp_dir !! f)) selected →
  let members :=
    selected ≫= (λ fasta_file,
      match temp_dir !! fasta_file with
      | Some lines => [(fasta_file, ZipFasta lines)]
      | None => []
      end) in
  members.*1 = selected ∧
  Forall (λ m, ∃ lines, temp_dir !! m.1 = Some lines ∧ m.2 = ZipFasta lines) members.
Proof.
  induction 1 as [|f selected [lines Hf] _ IH]; [by split|].
  cbv zeta in *. rewrite bind_cons, Hf. destruct IH as [IH1 IH2].
  change ([(f, ZipFasta lines)] ++ ?l) with ((f, ZipFasta lines) :: l).
  rewrite fmap_cons, IH1. split; [done|].
  apply Forall_cons_2; [|done]. by exists lines.
Qed.

(** Sources that are all readable and hold a header line each give at
    least one entry. *)
Lemma process_all_recorded files w temp_dir file_mapping w' :
  foldM process_fasta_file (∅, []) files w = Ok ((temp_dir, file_mapping), w') →
  Forall (λ f, is_Some (sf_lines f)) files →
  ∀ name, name ∈ file_mapping.*2 → is_Some (temp_dir !! name).
Proof.
  revert w temp_dir file_mapping w'.
  induction files as [|f files IH] using rev_ind; intros w td fm w'.
  - intros [[= <- <-] _]%ret_Ok _ name Hname. by apply elem_of_nil in Hname.
  - intros ([td1 fm1] & w1 & Hfiles & Hlast)%foldM_app_Ok [Hall Hf]%Forall_app.
    apply Forall_cons in Hf as [[lines Hlines] _].
    apply foldM_cons_Ok in Hlast as ([td2 fm2] & w2 & Hstep & [[= -> ->] _]%ret_Ok).
    apply process_fasta_file_shape in Hstep as (new_name & _ & -> & Htd).
    rewrite Hlines in Htd. destruct Htd as (modified & _ & ->).
    intros name. rewrite fmap_app, elem_of_app. intros [Hin|Hin].
    + destruct (decide (name = new_name)) as [->|Hne].
      * rewrite lookup_insert_eq. by eexists.
      * rewrite lookup_insert_ne by done. by eapply IH.
    + apply list_elem_of_singleton in Hin as ->.
      rewrite lookup_insert_eq. by eexists.
Qed.

Lemma headers_extracted files w temp_dir file_mapping w' :
  foldM process_fasta_file (∅, []) files w = Ok ((temp_dir, file_mapping), w') →
  files ≠ [] →
  Forall (λ f, ∃ lines line, sf_lines f = Some lines ∧ line ∈ lines ∧
                 startswith_gt line = true) files →
  extract_headers_from_temp_dir temp_dir file_mapping ≠ [].
Proof.
  intros Hfold Hne Hall.
  pose proof (process_all_shape _ _ _ _ _ Hfold) as (Horig & _ & Hcontent).
  destruct file_mapping as [|[orig new_name] fm].
  { destruct files; [done|discriminate]. }
  destruct (process_all_recorded _ _ _ _ _ Hfold) with (name := new_name)
    as [modified Hget].
  { eapply Forall_impl; [exact Hall|]. intros f (lines & _ & -> & _). by eexists. }
  { rewrite fmap_cons. apply elem_of_cons. by left. }
  destruct (Hcontent _ _ Hget) as (_ & f & lines & Hf & Hlines & Hrel).
  rewrite Forall_forall in Hall.
  destruct (Hall f Hf) as (lines' & line & Hlines' & Hline & Hgt).
  rewrite Hlines in Hlines'. injection Hlines' as <-.
  apply list_elem_of_lookup_1 in Hline as [i Hi].
  destruct (Forall2_lookup_l _ _ _ _ _ Hrel Hi) as (m & Hm & Hanon).
  unfold anonymized_line in Hanon. rewrite Hgt in Hanon.
  destruct Hanon as (s & -> & _ & Hs).
  intros Hnil.
  assert ((new_name, drop_first (strip (">" +:+ s +:+ newline)))
            ∈ extract_headers_from_temp_dir temp_dir ((orig, new_name) :: fm)) as Hin.
  { eapply (extract_headers_intro _ _ orig); [apply elem_of_cons; by left|exact Hget| |].
    - by eapply list_elem_of_lookup_2.
    - by rewrite strip_random_header. }
  rewrite Hnil in Hin. by apply elem_of_nil in Hin.
Qed.

Lemma main_try_success a s temp_dir file_mapping w row0 data w' :
  extract_headers_from_temp_dir temp_dir file_mapping ≠ [] →
  generate_dummy_data s (num_rows a)
    (filter (λ e : entry,
               e.1 ∈ selected_files_of a
                       (extract_headers_from_temp_dir temp_dir file_mapping))
            (extract_headers_from_temp_dir temp_dir file_mapping)) true w
    = Ok (row0 :: data, w') →
  main_try a s no_faults temp_dir file_mapping w
    = (Returned,
       FileSystem (Some temp_dir) None
         (Some (zip_members a (TsvTable (row0.*1) (row0 :: data))
                  (selected_files_of a
                     (extract_headers_from_temp_dir temp_dir file_mapping))
                  temp_dir))).
Proof.
  intros Hne Hdata. unfold main_try.
  destruct (extract_headers_from_temp_dir temp_dir file_mapping) as [|e0 full] eqn:Hext;
    [done|].
  cbv zeta. by rewrite Hdata.
Qed.

(** The run that goes through, in terms of its intermediate results. *)
Lemma main_success a s fasta_files w :
  schema_ok s → (0 < num_rows a)%Z → fasta_files ≠ [] →
  Forall (λ f, ∃ lines line, sf_lines f = Some lines ∧ line ∈ lines ∧
                 startswith_gt line = true) fasta_files →
  ∃ temp_dir file_mapping w' row0 data w'',
    create_randomized_fasta_files fasta_files w
      = Ok ((Some temp_dir, file_mapping), w') ∧
    generate_dummy_data s (num_rows a)
      (filter (λ e : entry,
                 e.1 ∈ selected_files_of a
                         (extract_headers_from_temp_dir temp_dir file_mapping))
              (extract_headers_from_temp_dir temp_dir file_mapping)) true w'
      = Ok (row0 :: data, w'') ∧
    main a s fasta_files no_faults w
      = (Returned,
         FileSystem None None
           (Some (zip_members a (TsvTable (row0.*1) (row0 :: data))
                    (selected_files_of a
                       (extract_headers_from_temp_dir temp_dir file_mapping))
                    temp_dir))).
Proof.
  intros Hok Hrows Hne Hall.
  destruct (create_randomized_fasta_files_total fasta_files w)
    as [[-> _]|(_ & td & fm & w' & Hrun & Hfold)]; [done|].
  assert (extract_headers_from_temp_dir td fm ≠ []) as Hfull.
  { eapply headers_extracted; [exact Hfold| |].
    - intros Hnil. by apply merge_sort_nil_iff in Hnil.
    - by rewrite merge_sort_Permutation. }
  pose (selected := selected_files_of a (extract_headers_from_temp_dir td fm)).
  pose (fl := filter (λ e : entry, e.1 ∈ selected) (extract_headers_from_temp_dir td fm)).
  destruct (generate_rows_total s
              (if true && bool_decide (fl ≠ []) then interleave fl else fl)
              (Z.to_nat (num_rows a)) 0 w' Hok) as (rows & w'' & Hgen).
  pose proof (generate_rows_Ok _ _ _ _ _ _ _ (λ _, True)
                (λ _ _ _ _ _ _, I) Hgen) as [Hlen _].
  destruct rows as [|row0 data]; [simpl in Hlen; lia|].
  exists td, fm, w', row0, data, w''. split; [done|]. split; [done|].
  rewrite (main_run _ _ _ _ _ _ _ _ Hrun).
  by rewrite (main_try_success a s td fm w' row0 data w'' Hfull Hgen).
Qed.

Lemma first_row_key_order s fl n i w row0 data w' :
  NoDup ((properties s).*1) →
  (∀ req, req ∈ required s → req ∈ (properties s).*1) →
  generate_rows s fl n i w = Ok (row0 :: data, w') →
  row0.*1 = (properties s).*1.
Proof.
  intros Hnd Hsub Hgen.
  eapply (generate_rows_Ok _ _ _ _ _ _ _ (λ row, row.*1 = (properties s).*1)) in Hgen
    as [_ [Hrow _]%Forall_cons]; [done|].
  intros i1 w1 row i' w1' Hrow. by eapply generate_row_key_order.
Qed.

End archive_more.

Section extras_archive.
Import Examples ExamplesMore.
Local Open Scope py_scope.

(** X18. A run that goes through: with a schema on which the
    synthesizer cannot raise, a positive row count, no I/O fault, and
    source files that are all readable and hold a header line each,
    [main] returns normally and leaves the archive and nothing else.
    The archive holds the table first, under the name given by
    [--tsv-name], with as many rows as were asked for, every row
    satisfying [row_ok], and a header row in the order of the schema's
    properties when these are distinct and cover the required names;
    then one member per selected file, under its randomized name, with
    the lines of its scratch copy. *)
Theorem X18_main_builds_archive (a : args) (s : schema)
    (fasta_files : list source_file) (w : runtime) :
  schema_ok s → (0 < num_rows a)%Z → fasta_files ≠ [] →
  Forall (λ f, ∃ lines line, sf_lines f = Some lines ∧ line ∈ lines ∧
                 startswith_gt line = true) fasta_files →
  ∃ temp_dir file_mapping table members,
    value_of (create_randomized_fasta_files fasta_files w)
      = Ok (Some temp_dir, file_mapping) ∧
    main a s fasta_files no_faults w
      = (Returned,
         FileSystem None None (Some ((tsv_name a, ZipTsv table) :: members))) ∧
    length (tsv_rows table) = Z.to_nat (num_rows a) ∧
    Forall (row_ok s) (tsv_rows table) ∧
    (NoDup ((properties s).*1) →
     (∀ req, req ∈ required s → req ∈ (properties s).*1) →
     fieldnames table = (properties s).*1) ∧
    members.*1
      = selected_files_of a (extract_headers_from_temp_dir temp_dir file_mapping) ∧
    Forall (λ m, ∃ lines, temp_dir !! m.1 = Some lines ∧ m.2 = ZipFasta lines)
      members.
Proof.
  intros Hok Hrows Hne Hall.
  destruct (main_success a s fasta_files w Hok Hrows Hne Hall)
    as (td & fm & w' & row0 & data & w'' & Hrun & Hgen & Hmain).
  destruct (zip_members_tail _ td (selected_in_scratch a td fm))
    as [Hnames Hmembers].
  unfold generate_dummy_data in Hgen.
  pose proof (generate_rows_Ok _ _ _ _ _ _ _ (row_ok s)
                (λ i w row i' w', generate_row_Ok s _ i w row i' w') Hgen)
    as [Hlen Hrok].
  eexists td, fm, (TsvTable (row0.*1) (row0 :: data)), _.
  split; [by rewrite Hrun|]. split; [exact Hmain|].
  split; [done|]. split; [done|]. split; [|done].
  intros Hnd Hsub. by eapply first_row_key_order.
Qed.

Lemma X18_witness :
  ∃ temp_dir file_mapping table members,
    value_of (create_randomized_fasta_files two_sources w0)
      = Ok (Some temp_dir, file_mapping) ∧
    main one_row file_first two_sources no_faults w0
      = (Returned,
         FileSystem None None (Some ((tsv_name one_row, ZipTsv table) :: members))) ∧
    length (tsv_rows table) = Z.to_nat (num_rows one_row) ∧
    Forall (row_ok file_first) (tsv_rows table) ∧
    (NoDup ((properties file_first).*1) →
     (∀ req, req ∈ required file_first → req ∈ (properties file_first).*1) →
     fieldnames table = (properties file_first).*1) ∧
    members.*1
      = selected_files_of one_row
          (extract_headers_from_temp_dir temp_dir file_mapping) ∧
    Forall (λ m, ∃ lines, temp_dir !! m.1 = Some lines ∧ m.2 = ZipFasta lines)
      members.
Proof.
  apply (X18_main_builds_archive one_row file_first two_sources w0).
  - by repeat constructor.
  - simpl. lia.
  - discriminate.
  - apply Forall_cons_2; [|apply Forall_cons_2; [|apply Forall_nil_2]].
    + eexists _, _. split; [reflexivity|]. split; [apply elem_of_cons; by left|done].
    + eexists _, _. split; [reflexivity|]. split; [apply elem_of_cons; by left|done].
Defined.

End extras_archive.

Section extras_pairs.
Import Examples ExamplesMore.
Local Open Scope py_scope.

(** X19. The rows of an archive reference what the archive holds: with
    the file field declared before the header field, and no source line
    with whitespace before the marker, every row of the table names a
    sequence member of the archive and a header whose line
    [">" + header + newline] stands in that member. *)
Theorem X19_rows_reference_archived_headers (a : args) (s : schema)
    (fasta_files : list source_file) (faults : io_faults) (w : runtime)
    (fs : filesystem) (members : list (string * zip_member))
    (p1 p2 p3 : list (string * prop_details)) (d1 d2 : prop_details) :
  main a s fasta_files faults w = (Returned, fs) →
  archive fs = Some members →
  properties s =
    p1 ++ ("fasta_file_name", d1) :: p2 ++ ("fasta_header_name", d2) :: p3 →
  NoDup ((properties s).*1) →
  (∀ f lines line, f ∈ fasta_files → sf_lines f = Some lines → line ∈ lines →
     startswith_gt (strip line) = true → startswith_gt line = true) →
  fasta_member_names members ≠ [] →
  Forall (λ row, ∃ filename header lines,
            dict_get row "fasta_file_name" = Some (VStr filename) ∧
            dict_get row "fasta_header_name" = Some (VStr header) ∧
            (filename, ZipFasta lines) ∈ members ∧
            ">" +:+ header +:+ newline ∈ lines)
    (member_rows members).
Proof.
  intros Hmain Harchive Hprops Hnd Hcol Hsome.
  destruct (main_archive _ _ _ _ _ _ _ _ Hmain eq_refl Harchive)
    as (td & fm & w1 & row0 & data & Hrun & [w2 Hdata]%value_of_Ok & -> & _).
  apply create_randomized_fasta_files_Ok in Hrun.
  pose proof (selected_in_scratch a td fm) as Hsel.
  destruct (zip_members_names a (TsvTable (row0.*1) (row0 :: data)) _ td Hsel)
    as [Hnames Hrows].
  rewrite Hrows. rewrite Hnames in Hsome. cbn [tsv_rows].
  set (full := extract_headers_from_temp_dir td fm) in *.
  set (selected := selected_files_of a full) in *.
  set (fl := filter (λ e : entry, e.1 ∈ selected) full) in *.
  assert (∀ e, e ∈ fl → ∃ modified, td !! e.1 = Some modified ∧
            ">" +:+ e.2 +:+ newline ∈ modified ∧
            String.length e.2 = 20 ∧ random_name e.1 ∧ e.1 ∈ selected) as Hshape.
  { intros e [Hin He]%list_elem_of_filter.
    destruct (extracted_entry_shape _ _ _ _ _ e Hrun) as (m & ? & ? & ? & ?); [|done|].
    - intros f lines line Hf. apply Hcol. by rewrite merge_sort_Permutation in Hf.
    - by exists m. }
  assert (fl ≠ []) as Hfl.
  { destruct selected as [|f sel] eqn:Hs; [done|].
    assert (f ∈ full.*1) as (e & -> & He)%list_elem_of_fmap.
    { apply (selected_files_available a). fold selected. rewrite Hs.
      apply elem_of_cons. by left. }
    intros Hnil. assert (e ∈ fl) as Hin.
    { apply list_elem_of_filter. split; [|done]. apply elem_of_cons. by left. }
    rewrite Hnil in Hin. by apply elem_of_nil in Hin. }
  unfold generate_dummy_data in Hdata.
  rewrite (bool_decide_eq_true_2 _ Hfl) in Hdata. cbn [andb] in Hdata.
  assert (interleave fl ≠ []) as Hne.
  { intros Hnil. apply Hfl, Permutation_nil_r.
    by rewrite <- Hnil, interleave_Permutation. }
  apply Forall_lookup. intros k row Hk.
  destruct (generate_rows_cursor s _ _ _ _ _ _ Hne Hnd Hdata k row Hk) as [Hh Hf].
  assert ("fasta_header_name" ∈ (properties s).*1) as Hin.
  { rewrite Hprops, app_comm_cons, app_assoc. apply elem_of_keys_middle. }
  assert ("fasta_header_name" ∉ p1.*1) as Hnot.
  { rewrite Hprops, app_comm_cons, app_assoc, fmap_app, fmap_cons in Hnd.
    apply NoDup_app in Hnd as (_ & Hdisj & _). intros Hp1.
    apply (Hdisj "fasta_header_name"); [|apply elem_of_cons; by left].
    rewrite fmap_app. apply elem_of_app. by left. }
  rewrite decide_True in Hh, Hf by done.
  destruct Hh as (e & He & Hheader); [done| |].
  { intros _ e He. rewrite interleave_Permutation in He.
    destruct (Hshape e He) as (_ & _ & _ & Hlen & _).
    by eapply nonempty_string_of_length; [exact Hlen|lia]. }
  destruct (Hf _ _ _ Hprops) as (e' & He' & Hfile).
  { intros _ e0 He0. rewrite interleave_Permutation in He0.
    destruct (Hshape e0 He0) as (_ & _ & _ & _ & Hname & _).
    by apply random_name_nonempty. }
  rewrite decide_False in He' by done.
  rewrite Nat.add_0_l, Nat.mul_1_r in He. 
  rewrite Nat.add_0_l, Nat.mul_1_r, Nat.add_0_r in He'.
  assert (e' = e) as -> by congruence.
  assert (e ∈ fl) as Hmem.
  { rewrite <- interleave_Permutation. by eapply list_elem_of_lookup_2. }
  destruct (Hshape e Hmem) as (modified & Hget & Hline & _ & _ & Hselected).
  exists e.1, e.2, modified. split; [done|]. split; [done|]. split; [|done].
  by apply zip_members_fasta.
Qed.

Lemma X19_witness :
  Forall (λ row, ∃ filename header lines,
            dict_get row "fasta_file_name" = Some (VStr filename) ∧
            dict_get row "fasta_header_name" = Some (VStr header) ∧
            (filename, ZipFasta lines) ∈ one_row_members ∧
            ">" +:+ header +:+ newline ∈ lines)
    (member_rows one_row_members).
Proof.
  apply (X19_rows_reference_archived_headers one_row file_first two_sources
           no_faults w0 one_row_fs one_row_members
           [("sample_id", details "string")] [] [] (details "string") (details "string")).
  - vm_compute. reflexivity.
  - vm_compute. reflexivity.
  - reflexivity.
  - apply (bool_decide_unpack _). vm_compute. exact I.
  - intros f lines line Hf Hlines Hline.
    unfold two_sources in Hf.
    apply elem_of_cons in Hf as [->|Hf].
    { injection Hlines as <-.
      apply elem_of_cons in Hline as [->|Hline]; [done|].
      apply list_elem_of_singleton in Hline as ->. discriminate. }
    apply list_elem_of_singleton in Hf as ->. injection Hlines as <-.
    apply elem_of_cons in Hline as [->|Hline]; [done|].
    apply list_elem_of_singleton in Hline as ->. discriminate.
  - vm_compute. discriminate.
Defined.

End extras_pairs.

Section spread_more.
Local Open Scope py_scope.

Lemma all_unique_files_NoDup full : NoDup (all_unique_files_of full).
Proof.
  unfold all_unique_files_of, sorted.
  rewrite merge_sort_Permutation. apply NoDup_elements.
Qed.

Lemma all_unique_files_sorted full : StronglySorted String.le (all_unique_files_of full).
Proof. unfold all_unique_files_of, sorted. apply StronglySorted_merge_sort; apply _. Qed.

Lemma selected_files_prefix a full :
  ∃ rest, all_unique_files_of full = selected_files_of a full ++ rest.
Proof.
  unfold selected_files_of, slice_to.
  case_decide; eexists; symmetry; apply take_drop.
Qed.

Lemma selected_files_zero a full :
  spread a = Some 0%Z → selected_files_of a full = [].
Proof.
  intros Hspread. unfold selected_files_of, slice_to. rewrite Hspread.
  cbv zeta. cbn [from_option id]. rewrite Z.min_l by lia. done.
Qed.

Lemma fill_property_no_entries row i k pd w row' i' w' :
  k = "fasta_file_name" ∨ k = "fasta_header_name" →
  fill_property [] (row, i) (k, pd) w = Ok ((row', i'), w') →
  ∃ str, row' = dict_set row k (VStr str) ∧ String.length str = 20 ∧ alnum str.
Proof.
  intros Hk. unfold fill_property.
  assert (∀ m : M (Row * nat),
    m = (s <- generate_random_string 20 ;; ret (dict_set row k (VStr s), i)) →
    m w = Ok ((row', i'), w') →
    ∃ str, row' = dict_set row k (VStr str) ∧ String.length str = 20 ∧ alnum str)
    as Hrandom.
  { intros m -> (str & w1 & Hs & [[= <- <-] _]%ret_Ok)%bind_Ok.
    exists str. split; [done|]. by eapply generate_random_string_alnum. }
  destruct (decide (k = "fasta_file_name")) as [->|Hne].
  { by apply Hrandom. }
  destruct Hk as [-> | ->]; [done|].
  rewrite decide_True by done. by apply Hrandom.
Qed.

Lemma fill_properties_no_entries props row i w row' i' w' k :
  k = "fasta_file_name" ∨ k = "fasta_header_name" →
  NoDup (props.*1) → k ∈ props.*1 →
  foldM (fill_property []) (row, i) props w = Ok ((row', i'), w') →
  ∃ str, dict_get row' k = Some (VStr str) ∧ String.length str = 20 ∧ alnum str.
Proof.
  intros Hk Hnd Hin.
  destruct (elem_of_keys_split _ _ Hin Hnd) as (q1 & d & q2 & -> & Hq1 & Hq2).
  intros ([row1 i1] & w1 & H1 & Hfold)%foldM_app_Ok.
  apply foldM_cons_Ok in Hfold as ([row2 i2] & w2 & Hstep & H2).
  apply fill_property_no_entries in Hstep as (str & -> & Hlen & Hs); [|done].
  exists str. split; [|done].
  rewrite (fill_properties_other _ _ _ _ _ _ _ _ _ Hq2 H2).
  by rewrite dict_get_set_eq.
Qed.

Lemma generate_row_no_entries s i w row i' w' k :
  k = "fasta_file_name" ∨ k = "fasta_header_name" →
  NoDup ((properties s).*1) → k ∈ (properties s).*1 →
  generate_row s [] i w = Ok ((row, i'), w') →
  ∃ str, dict_get row k = Some (VStr str) ∧ String.length str = 20 ∧ alnum str.
Proof.
  intros Hk Hnd Hin. unfold generate_row.
  intros ([row1 i1] & w1 & Hfold & (row2 & w2 & Hreqs & [[= <- <-] _]%ret_Ok)%bind_Ok)%bind_Ok.
  simpl in Hreqs.
  apply (fill_properties_no_entries _ _ _ _ _ _ _ k) in Hfold as (str & Hget & Hlen & Hs);
    [|done..].
  exists str. split; [|done].
  eapply fill_required_kept; [exact Hget| |exact Hreqs].
  intros _. apply truthy_VStr. by eapply nonempty_string_of_length; [exact Hlen|lia].
Qed.

End spread_more.

Section extras_spread.
Import Examples ExamplesMore.
Local Open Scope py_scope.

(** X20. The files a run selects are a prefix of the sorted, duplicate
    free list of the files that have entries: all of them without
    [--spread] or when it is at least their number, the first [k] for
    [0 ≤ k], and for a negative [k] all but the last [-k] (none when
    there are no more than that). *)
Theorem X20_selected_files_slice (a : args) (full_fasta_list : list entry) :
  let files := all_unique_files_of full_fasta_list in
  selected_files_of a full_fasta_list =
    match spread a with
    | None => files
    | Some k =>
        if decide (0 ≤ k)%Z then take (Z.to_nat k) files
        else take (length files - Z.to_nat (- k)) files
    end ∧
  (∃ rest, files = selected_files_of a full_fasta_list ++ rest) ∧
  NoDup (selected_files_of a full_fasta_list) ∧
  StronglySorted String.le (selected_files_of a full_fasta_list) ∧
  (∀ f, f ∈ files ↔ f ∈ full_fasta_list.*1).
Proof.
  intros files.
  destruct (selected_files_prefix a full_fasta_list) as [rest Hrest].
  fold files in Hrest.
  pose proof (all_unique_files_NoDup full_fasta_list) as Hnd.
  pose proof (all_unique_files_sorted full_fasta_list) as Hsorted.
  fold files in Hnd, Hsorted. rewrite Hrest in Hnd, Hsorted.
  split; [|split; [by exists rest|split; [by apply NoDup_app in Hnd as (? & _)|split]]].
  - unfold selected_files_of, slice_to. fold files. cbv zeta.
    destruct (spread a) as [k|]; cbn [from_option id].
    + destruct (decide (0 ≤ k)%Z) as [Hk|Hk].
      * rewrite decide_True by lia.
        destruct (decide (k ≤ Z.of_nat (length files))%Z).
        -- by rewrite Z.min_l by lia.
        -- rewrite Z.min_r by lia. rewrite Nat2Z.id.
           by rewrite !take_ge by lia.
      * rewrite Z.min_l by lia. rewrite decide_False by lia.
        f_equal. lia.
    + rewrite Z.min_id, decide_True by lia. by rewrite Nat2Z.id, take_ge by lia.
  - by eapply StronglySorted_app_1_l.
  - intros f. unfold files, all_unique_files_of.
    by rewrite elem_of_sorted, elem_of_elements, elem_of_list_to_set.
Qed.

(** X21. With [--spread 0] no file is selected, and the run still goes
    through: the archive holds the table and no sequence file, and the
    two header fields of every row are fresh random strings of 20
    letters or digits, which name no file of the archive. *)
Theorem X21_spread_zero_archives_table_only (a : args) (s : schema)
    (fasta_files : list source_file) (w : runtime) :
  spread a = Some 0%Z →
  schema_ok s → (0 < num_rows a)%Z → fasta_files ≠ [] →
  Forall (λ f, ∃ lines line, sf_lines f = Some lines ∧ line ∈ lines ∧
                 startswith_gt line = true) fasta_files →
  ∃ table,
    main a s fasta_files no_faults w
      = (Returned, FileSystem None None (Some [(tsv_name a, ZipTsv table)])) ∧
    length (tsv_rows table) = Z.to_nat (num_rows a) ∧
    (NoDup ((properties s).*1) →
     ∀ k, k = "fasta_file_name" ∨ k = "fasta_header_name" →
       k ∈ (properties s).*1 →
       Forall (λ row, ∃ str, dict_get row k = Some (VStr str) ∧
                 String.length str = 20 ∧ alnum str)
         (tsv_rows table)).
Proof.
  intros Hspread Hok Hrows Hne Hall.
  destruct (main_success a s fasta_files w Hok Hrows Hne Hall)
    as (td & fm & w' & row0 & data & w'' & Hrun & Hgen & Hmain).
  rewrite (selected_files_zero a _ Hspread) in Hgen, Hmain.
  assert (filter (λ e : entry, e.1 ∈ @nil string) (extract_headers_from_temp_dir td fm)
          = []) as Hnone.
  { apply filter_none, Forall_forall. intros e _ Hin. by apply elem_of_nil in Hin. }
  rewrite Hnone in Hgen. unfold generate_dummy_data in Hgen.
  rewrite (bool_decide_eq_false_2 ([] ≠ [])) in Hgen by (by intros H; apply H).
  cbn [andb] in Hgen.
  exists (TsvTable (row0.*1) (row0 :: data)). split; [exact Hmain|]. split.
  { by apply (generate_rows_Ok _ _ _ _ _ _ _ (λ _, True)) in Hgen as [? _]. }
  intros Hnd k Hk Hin.
  eapply generate_rows_Ok in Hgen as [_ Hrows']; [exact Hrows'|].
  intros i w1 row i' w1' Hrow. by eapply generate_row_no_entries.
Qed.

Lemma X21_witness :
  ∃ table,
    main (Args 2 (Some 0%Z) "generated_data.tsv") file_first two_sources no_faults w0
      = (Returned,
         FileSystem None None
           (Some [(tsv_name (Args 2 (Some 0%Z) "generated_data.tsv"), ZipTsv table)])) ∧
    length (tsv_rows table)
      = Z.to_nat (num_rows (Args 2 (Some 0%Z) "generated_data.tsv")) ∧
    (NoDup ((properties file_first).*1) →
     ∀ k, k = "fasta_file_name" ∨ k = "fasta_header_name" →
       k ∈ (properties file_first).*1 →
       Forall (λ row, ∃ str, dict_get row k = Some (VStr str) ∧
                 String.length str = 20 ∧ alnum str)
         (tsv_rows table)).
Proof.
  apply (X21_spread_zero_archives_table_only
           (Args 2 (Some 0%Z) "generated_data.tsv") file_first two_sources w0).
  - reflexivity.
  - by repeat constructor.
  - simpl. lia.
  - discriminate.
  - apply Forall_cons_2; [|apply Forall_cons_2; [|apply Forall_nil_2]].
    + eexists _, _. split; [reflexivity|]. split; [apply elem_of_cons; by left|done].
    + eexists _, _. split; [reflexivity|]. split; [apply elem_of_cons; by left|done].
Defined.

End extras_spread.

Section upload_more.
Import Upload.

Lemma filter_complement_length {A} (P : A → Prop) `{∀ x, Decision (P x)} (l : list A) :
  length (filter P l) + length (filter (λ x, ¬ P x) l) = length l.
Proof.
  induction l as [|x l IH]; [done|].
  destruct (decide (P x)) as [HP|HP].
  - rewrite (filter_cons_True P) by done.
    rewrite (filter_cons_False (λ x, ¬ P x)) by auto. simpl. lia.
  - rewrite (filter_cons_False P) by done.
    rewrite (filter_cons_True (λ x, ¬ P x)) by done. simpl. lia.
Qed.

Lemma succeeded_ext (post post' : request → attempt) (a : args) f :
  post (Request (folio a +:+ "/projects/" +:+ project_id a +:+ "/submissions/"
                   +:+ submission_id a +:+ "/upload2")
                ("Bearer " +:+ token a) (de_name f))
    = post' (Request (folio a +:+ "/projects/" +:+ project_id a +:+ "/submissions/"
                        +:+ submission_id a +:+ "/upload2")
                     ("Bearer " +:+ token a) (de_name f)) →
  succeeded post a f ↔ succeeded post' a f.
Proof. intros Heq. unfold succeeded, upload_file. by rewrite Heq. Qed.

Lemma filter_length_ext {A} (P Q : A → Prop) `{∀ x, Decision (P x)}
    `{∀ x, Decision (Q x)} (l : list A) :
  (∀ x, x ∈ l → P x ↔ Q x) → length (filter P l) = length (filter Q l).
Proof.
  induction l as [|x l IH]; [done|]. intros Hext.
  assert (length (filter P l) = length (filter Q l)) as Hl.
  { apply IH. intros y Hy. apply Hext, elem_of_cons. by right. }
  destruct (decide (P x)) as [HP|HP].
  - rewrite (filter_cons_True P) by done.
    rewrite (filter_cons_True Q) by (apply Hext; [apply elem_of_cons; by left|done]).
    simpl. by rewrite Hl.
  - rewrite (filter_cons_False P) by done.
    rewrite (filter_cons_False Q); [done|].
    intros HQ. apply HP, Hext; [apply elem_of_cons; by left|done].
Qed.

End upload_more.

Section extras_upload.
Import Upload Examples.

(** X22. Every regular file matched in the directory is counted exactly
    once, as uploaded or as failed, and entries that are not regular
    files are not counted at all; nothing is counted when the folder is
    missing or not a directory, or when the pattern is rejected.  The
    exit code is 0 exactly when the folder is a directory, its entries
    were matched against the pattern and no upload failed. *)
Theorem X22_upload_counts_every_file (post : request → attempt) (a : args)
    (fd : folder) :
  uploaded (main post a fd) + failed (main post a fd)
    = match fd with
      | Directory matched => length (filter (λ f, de_is_file f = true) matched)
      | _ => 0
      end ∧
  (exit_code (main post a fd) = 0%Z ↔
   ∃ matched, fd = Directory matched ∧ failed (main post a fd) = 0).
Proof.
  destruct fd as [| | |matched].
  1-3: split; [done|]; split; [done|]; by intros (matched & [=] & _).
  rewrite main_directory. cbv zeta. cbn [uploaded failed exit_code]. split.
  - apply filter_complement_length.
  - case_decide; split.
    + done.
    + intros (matched' & _ & Hfail). lia.
    + intros _. exists matched. split; [done|lia].
    + done.
Qed.

(** X23. The report of a run depends on the directory only through the
    regular files matched and what their requests are answered with:
    the order in which the entries were matched, the entries that are
    not regular files, and the answers to any other request make no
    difference. *)
Theorem X23_upload_report_frame (post post' : request → attempt) (a : args)
    (matched matched' : list dir_entry) :
  filter (λ f, de_is_file f = true) matched
    ≡ₚ filter (λ f, de_is_file f = true) matched' →
  (∀ f, f ∈ matched → de_is_file f = true →
     post (Request (folio a +:+ "/projects/" +:+ project_id a +:+ "/submissions/"
                      +:+ submission_id a +:+ "/upload2")
                   ("Bearer " +:+ token a) (de_name f))
       = post' (Request (folio a +:+ "/projects/" +:+ project_id a
                           +:+ "/submissions/" +:+ submission_id a +:+ "/upload2")
                        ("Bearer " +:+ token a) (de_name f))) →
  main post a (Directory matched) = main post' a (Directory matched').
Proof.
  intros Hperm Hsame. rewrite !main_directory. cbv zeta.
  assert (length (filter (succeeded post a) (filter (λ f, de_is_file f = true) matched))
          = length (filter (succeeded post' a)
                      (filter (λ f, de_is_file f = true) matched'))) as Hup.
  { rewrite <- Hperm. apply filter_length_ext.
    intros f [Hfile Hf]%list_elem_of_filter. by apply succeeded_ext, Hsame. }
  assert (length (filter (λ f, ¬ succeeded post a f)
                    (filter (λ f, de_is_file f = true) matched))
          = length (filter (λ f, ¬ succeeded post' a f)
                      (filter (λ f, de_is_file f = true) matched'))) as Hfail.
  { rewrite <- Hperm. apply filter_length_ext.
    intros f [Hfile Hf]%list_elem_of_filter.
    by rewrite (succeeded_ext post post' a f (Hsame f Hf Hfile)). }
  by rewrite Hup, Hfail.
Qed.

Lemma X23_witness :
  main one_rejected upload_args (Directory three_files)
    = main one_rejected upload_args
        (Directory [DirEntry "c.fasta" true; DirEntry "notes" false;
                    DirEntry "a.fasta" true; DirEntry "b.fasta" true]).
Proof.
  apply (X23_upload_report_frame one_rejected one_rejected upload_args three_files
           [DirEntry "c.fasta" true; DirEntry "notes" false;
            DirEntry "a.fasta" true; DirEntry "b.fasta" true]).
  - change ([DirEntry "a.fasta" true; DirEntry "b.fasta" true; DirEntry "c.fasta" true]
              ≡ₚ [DirEntry "c.fasta" true; DirEntry "a.fasta" true;
                  DirEntry "b.fasta" true]).
    symmetry.
    exact (Permutation_cons_append
             [DirEntry "a.fasta" true; DirEntry "b.fasta" true]
             (DirEntry "c.fasta" true)).
  - done.
Defined.

End extras_upload.

Section abort_more.
Local Open Scope py_scope.

Lemma foldM_app_Raise {A B} (f : A → B → M A) a xs x ys w a1 w1 e :
  foldM f a xs w = Ok (a1, w1) → f a1 x w1 = Raise e →
  foldM f a (xs ++ x :: ys) w = Raise e.
Proof.
  revert a w. induction xs as [|x0 xs IH]; intros a w.
  - intros [-> ->]%ret_Ok Hx. simpl. by apply bind_Raise.
  - intros (a2 & w2 & Hstep & Hrest)%foldM_cons_Ok Hx.
    change (foldM f a ((x0 :: xs) ++ x :: ys)) with
      (bind (f a x0) (λ a', foldM f a' (xs ++ x :: ys))).
    rewrite (bind_run _ _ _ _ _ Hstep). by apply IH.
Qed.

Lemma fill_property_raises fl row i k pd w e :
  k ≠ "fasta_file_name" → k ≠ "fasta_header_name" →
  generate_dummy_value pd w = Raise e →
  fill_property fl (row, i) (k, pd) w = Raise e.
Proof.
  intros Hf Hh Hv. unfold fill_property.
  rewrite !decide_False by done. by apply bind_Raise.
Qed.

Lemma generate_rows_raises s fl n i w e :
  generate_row s fl i w = Raise e → generate_rows s fl (S n) i w = Raise e.
Proof. intros Hrow. simpl. by apply bind_Raise. Qed.

(** The first property whose descriptor is not [details_ok] makes the
    generation of the first row raise. *)
Lemma generate_row_raises s fl i w p1 k pd p2 e :
  properties s = p1 ++ (k, pd) :: p2 →
  Forall (λ p, details_ok p.2) p1 →
  k ≠ "fasta_file_name" → k ≠ "fasta_header_name" →
  (∀ w1, generate_dummy_value pd w1 = Raise e) →
  generate_row s fl i w = Raise e.
Proof.
  intros Hprops Hp1 Hf Hh He. unfold generate_row. rewrite Hprops.
  apply bind_Raise.
  destruct (foldM_total (fill_property fl) p1 ([], i) w) as ([row1 i1] & w1 & H1).
  { intros [row0 i0] [k0 pd0] w0 Hin. apply fill_property_total.
    rewrite Forall_forall in Hp1. by apply (Hp1 _ Hin). }
  eapply foldM_app_Raise; [exact H1|]. by apply fill_property_raises.
Qed.

Lemma main_try_raises a s faults temp_dir file_mapping w e :
  extract_headers_from_temp_dir temp_dir file_mapping ≠ [] →
  (∀ fl, generate_dummy_data s (num_rows a) fl true w = Raise e) →
  main_try a s faults temp_dir file_mapping w
    = (Raised e, FileSystem (Some temp_dir) None None).
Proof.
  intros Hne Hdata. unfold main_try.
  destruct (extract_headers_from_temp_dir temp_dir file_mapping) as [|e0 full] eqn:Hext;
    [done|].
  cbv zeta. by rewrite Hdata.
Qed.

End abort_more.

Section extras_abort.
Import Examples ExamplesMore.
Local Open Scope py_scope.

(** X24. A descriptor on which the synthesizer raises aborts the run:
    when the properties before it are fine, at least one row is asked
    for and the sources hold headers, [main] raises the exception of
    that descriptor, whatever the draws and the I/O faults, and leaves
    neither an archive nor a temporary table nor the scratch directory
    behind. *)
Theorem X24_bad_descriptor_aborts_run (a : args) (s : schema)
    (fasta_files : list source_file) (faults : io_faults) (w : runtime)
    (p1 p2 : list (string * prop_details)) (k : string) (pd : prop_details) :
  properties s = p1 ++ (k, pd) :: p2 →
  Forall (λ p, details_ok p.2) p1 →
  k ≠ "fasta_file_name" → k ≠ "fasta_header_name" →
  ¬ details_ok pd →
  (0 < num_rows a)%Z → fasta_files ≠ [] →
  Forall (λ f, ∃ lines line, sf_lines f = Some lines ∧ line ∈ lines ∧
                 startswith_gt line = true) fasta_files →
  ∃ e, (∀ w1, value_of (generate_dummy_value pd w1) = Raise e) ∧
       main a s fasta_files faults w = (Raised e, FileSystem None None None).
Proof.
  intros Hprops Hp1 Hf Hh Hbad Hrows Hne Hall.
  destruct (generate_dummy_value_raises pd Hbad) as (e & He).
  exists e. split; [intros w1; by rewrite He|].
  destruct (create_randomized_fasta_files_total fasta_files w)
    as [[-> _]|(_ & td & fm & w' & Hrun & Hfold)]; [done|].
  assert (extract_headers_from_temp_dir td fm ≠ []) as Hfull.
  { eapply headers_extracted; [exact Hfold| |].
    - intros Hnil. by apply merge_sort_nil_iff in Hnil.
    - by rewrite merge_sort_Permutation. }
  rewrite (main_run _ _ _ _ _ _ _ _ Hrun).
  rewrite (main_try_raises a s faults td fm w' e Hfull); [done|].
  intros fl. unfold generate_dummy_data.
  destruct (Z.to_nat (num_rows a)) as [|n] eqn:Hn; [lia|].
  apply generate_rows_raises. by eapply generate_row_raises.
Qed.

Lemma X24_witness :
  ∃ e, (∀ w1, value_of (generate_dummy_value (enum_of "string" []) w1) = Raise e) ∧
       main one_row no_choice two_sources zip_open_fault w0
         = (Raised e, FileSystem None None None).
Proof.
  apply (X24_bad_descriptor_aborts_run one_row no_choice two_sources zip_open_fault w0
           [("sample_id", details "string")] [] "host" (enum_of "string" [])).
  - reflexivity.
  - by repeat constructor.
  - discriminate.
  - discriminate.
  - intros Hok. by apply Hok.
  - simpl. lia.
  - discriminate.
  - apply Forall_cons_2; [|apply Forall_cons_2; [|apply Forall_nil_2]].
    + eexists _, _. split; [reflexivity|]. split; [apply elem_of_cons; by left|done].
    + eexists _, _. split; [reflexivity|]. split; [apply elem_of_cons; by left|done].
Defined.

End extras_abort.
